(** * Capacity and cost estimators of [devops_test_calculations.py]

    The script computes GPU-hours, tera-FLOPs and cost for a translation
    workload and an LLM chat workload and prints two reports.  Python
    integers are unbounded ([Z]); Python floats are IEEE 754 binary64
    values ([spec_float] of the standard library), every float operation
    being the exact rational result rounded to nearest, ties to even. *)

From Stdlib Require Import ZArith Lia Bool List String Ascii QArith Qabs Qpower.
From Stdlib Require Import Decimal DecimalString.
From Stdlib Require Import Floats.SpecFloat.
Import ListNotations.

Local Open Scope Z_scope.

(** ** Exceptions and results of Python expressions *)

Inductive exn : Type :=
| ZeroDivisionError
| OverflowError.

Inductive outcome (A : Type) : Type :=
| Ok (a : A)
| Raise (e : exn).

Arguments Ok {A} a.
Arguments Raise {A} e.

Definition obind {A B : Type} (o : outcome A) (k : A -> outcome B) : outcome B :=
  match o with
  | Ok a => k a
  | Raise e => Raise e
  end.

(** ** Binary64 arithmetic *)

Module Binary64.

Definition float : Type := spec_float.

Definition prec : Z := 53.
Definition emax : Z := 1024.
(** Exponent of the least significant bit of subnormal numbers. *)
Definition emin : Z := -1074.
(** Largest exponent of a finite number's 53-bit integer significand. *)
Definition etop : Z := 971.

(** [shl x k] is [x * 2^k] for [0 <= k] and [x] otherwise. *)
Definition shl (x k : Z) : Z := x * 2 ^ Z.max 0 k.

(** [ilog2_ratio n d] is the floor of the binary logarithm of [n / d],
    for positive [n] and [d]. *)
Definition ilog2_ratio (n d : Z) : Z :=
  let k := Z.log2 n - Z.log2 d in
  if shl d k <=? shl n (- k) then k else k - 1.

(** [le_ratio c k n d] reads [c * 2^k <= n / d]. *)
Definition le_ratio (c k n d : Z) : Prop := c * shl d k <= shl n (- k).

(** Quotient of [a] by [b] rounded to the nearest integer, ties to even. *)
Definition rnd_div (a b : Z) : Z :=
  let q := a / b in
  let r := a mod b in
  match 2 * r ?= b with
  | Lt => q
  | Gt => q + 1
  | Eq => if Z.even q then q else q + 1
  end.

(** A significand and an exponent as a float: overflow gives infinity,
    a zero significand the signed zero. *)
Definition pack (s : bool) (m e : Z) : float :=
  match m with
  | Z0 => S754_zero s
  | Zpos p => if e <=? etop then S754_finite s p e else S754_infinity s
  | Zneg _ => S754_nan
  end.

(** Rounding may carry into a 54th bit. *)
Definition normalize (s : bool) (m e : Z) : float :=
  if m =? 2 ^ prec then pack s (2 ^ (prec - 1)) (e + 1) else pack s m e.

(** The rational [n / d] ([0 < n], [0 < d]) with sign [s], rounded to
    the nearest binary64 value, ties to even. *)
Definition round_pos (s : bool) (n d : Z) : float :=
  let e := Z.max (ilog2_ratio n d - (prec - 1)) emin in
  normalize s (rnd_div (shl n (- e)) (shl d e)) e.

Definition round_ratio (s : bool) (n d : Z) : float :=
  if n =? 0 then S754_zero s else round_pos s n d.

Definition is_finite (x : float) : bool :=
  match x with
  | S754_zero _ | S754_finite _ _ _ => true
  | _ => false
  end.

Definition is_zero (x : float) : bool :=
  match x with
  | S754_zero _ => true
  | _ => false
  end.

(** A decimal literal [m]e[k] with [0 <= k], such as [1e9]. *)
Definition literal (m k : Z) : float :=
  round_ratio false (m * 10 ^ k) 1.

(** Conversion of a Python int, as done for mixed int/float operands. *)
Definition of_int (n : Z) : outcome float :=
  match round_ratio (n <? 0) (Z.abs n) 1 with
  | S754_infinity _ => Raise OverflowError
  | x => Ok x
  end.

(** [a / b] on Python ints: the correctly rounded quotient. *)
Definition int_truediv (a b : Z) : outcome float :=
  if b =? 0 then Raise ZeroDivisionError
  else
    match round_ratio (xorb (a <? 0) (b <? 0)) (Z.abs a) (Z.abs b) with
    | S754_infinity _ => Raise OverflowError
    | x => Ok x
    end.

(** [x * y] on floats. *)
Definition fmul (x y : float) : float :=
  match x, y with
  | S754_nan, _ | _, S754_nan => S754_nan
  | S754_infinity sx, S754_infinity sy => S754_infinity (xorb sx sy)
  | S754_infinity sx, S754_finite sy _ _ => S754_infinity (xorb sx sy)
  | S754_finite sx _ _, S754_infinity sy => S754_infinity (xorb sx sy)
  | S754_infinity _, S754_zero _ => S754_nan
  | S754_zero _, S754_infinity _ => S754_nan
  | S754_finite sx _ _, S754_zero sy => S754_zero (xorb sx sy)
  | S754_zero sx, S754_finite sy _ _ => S754_zero (xorb sx sy)
  | S754_zero sx, S754_zero sy => S754_zero (xorb sx sy)
  | S754_finite sx mx ex, S754_finite sy my ey =>
      round_pos (xorb sx sy) (shl (Zpos mx * Zpos my) (ex + ey)) (shl 1 (- (ex + ey)))
  end.

(** [x / y] on floats; Python raises on a zero divisor. *)
Definition fdiv (x y : float) : outcome float :=
  match x, y with
  | _, S754_zero _ => Raise ZeroDivisionError
  | S754_nan, _ | _, S754_nan => Ok S754_nan
  | S754_infinity _, S754_infinity _ => Ok S754_nan
  | S754_infinity sx, S754_finite sy _ _ => Ok (S754_infinity (xorb sx sy))
  | S754_finite sx _ _, S754_infinity sy => Ok (S754_zero (xorb sx sy))
  | S754_zero sx, S754_infinity sy => Ok (S754_zero (xorb sx sy))
  | S754_zero sx, S754_finite sy _ _ => Ok (S754_zero (xorb sx sy))
  | S754_finite sx mx ex, S754_finite sy my ey =>
      Ok (round_pos (xorb sx sy) (shl (Zpos mx) (ex - ey)) (shl (Zpos my) (ey - ex)))
  end.

(** The neighbours of a float in the next and in the previous binade:
    twice and half its value, when no overflow or underflow intervenes. *)
Definition fdouble (x : float) : float :=
  match x with
  | S754_finite s m e => pack s (Zpos m) (e + 1)
  | _ => x
  end.

Definition fhalf (x : float) : float :=
  match x with
  | S754_finite s m e => S754_finite s m (e - 1)
  | _ => x
  end.

(** Normal numbers: a full 53-bit significand. *)
Definition normal (x : float) : Prop :=
  match x with
  | S754_finite _ m e => 2 ^ (prec - 1) <= Zpos m < 2 ^ prec /\ emin <= e <= etop
  | _ => False
  end.

(** The rational value of a finite float. *)
Definition F2Q (x : float) : Q :=
  match x with
  | S754_finite s m e =>
      ((if s then Zneg m else Zpos m) # 1) * Qpower (2 # 1) e
  | _ => 0%Q
  end.

Definition two : float := literal 2 0.

(** Zero, or a finite value of magnitude at least [2^-1020]: a float
    whose half is still a normal number. *)
Definition far_from_underflow (x : float) : Prop :=
  match x with
  | S754_zero _ => True
  | S754_finite _ _ e => emin + 1 < e
  | _ => False
  end.

(** Mixed operands: the int is converted first. *)
Definition fmul_int (x : float) (n : Z) : outcome float :=
  obind (of_int n) (fun y => Ok (fmul x y)).

Definition int_mul_f (n : Z) (y : float) : outcome float :=
  obind (of_int n) (fun x => Ok (fmul x y)).

Definition fdiv_int (x : float) (n : Z) : outcome float :=
  obind (of_int n) (fun y => fdiv x y).

(** Structural equality, to compare with the standard library's
    specification of the IEEE operations. *)
Definition float_eqb (x y : float) : bool :=
  match x, y with
  | S754_zero s, S754_zero s' => Bool.eqb s s'
  | S754_infinity s, S754_infinity s' => Bool.eqb s s'
  | S754_nan, S754_nan => true
  | S754_finite s m e, S754_finite s' m' e' =>
      Bool.eqb s s' && (Zpos m =? Zpos m') && (e =? e')
  | _, _ => false
  end.

(** Floats of every kind: zeros, subnormal, normal, extreme, infinite. *)
Definition samples : list float :=
  [ S754_zero false; S754_zero true; S754_infinity false; S754_infinity true;
    S754_nan;
    S754_finite true 3 (-1074);
    S754_finite false 4503599627370495 (-1074);
    S754_finite false 4503599627370496 (-52);
    S754_finite true 6004799503160661 (-54);
    S754_finite false 7916483719987200 (-41);
    S754_finite false 6815744000000000 (-18);
    S754_finite false 9007199254740991 971;
    S754_finite false 6369051672525773 (-600) ].

Definition int_samples : list Z :=
  [0; 1; -1; 3; 7; 90; 1000; 3600; -60000; 10000; 300000000;
   9007199254740991; 9007199254740993; -9007199254740995;
   2 ^ 80 + 1; 3 * 2 ^ 1000 + 12345].

Definition all_pairs {A B : Type} (xs : list A) (ys : list B) : list (A * B) :=
  flat_map (fun x => map (fun y => (x, y)) ys) xs.

End Binary64.

Import Binary64.

(** ** The interpreter state and the monad of Python code

    A running script owns its standard output.  Code is a function of
    the state that returns a value or raises, and a new state. *)

Record World : Type := { stdout : string }.

Definition Py (A : Type) : Type := World -> outcome A * World.

Definition ret {A : Type} (a : A) : Py A := fun w => (Ok a, w).

Definition bind {A B : Type} (c : Py A) (k : A -> Py B) : Py B :=
  fun w =>
    match c w with
    | (Ok a, w') => k a w'
    | (Raise e, w') => (Raise e, w')
    end.

(** An expression: it yields its value or raises, and leaves the state. *)
Definition expr {A : Type} (o : outcome A) : Py A := fun w => (o, w).

(** [print(s)]: the text and a newline are appended to standard output. *)
Definition print (s : string) : Py unit :=
  fun w => (Ok tt, {| stdout := stdout w ++ s ++ String "010" EmptyString |}).

Declare Scope py_scope.
Delimit Scope py_scope with py.
Notation "x <- c ;; k" := (bind c (fun x => k))
  (at level 61, c at next level, right associativity) : py_scope.
Notation "c ;;; k" := (bind c (fun _ => k))
  (at level 61, right associativity) : py_scope.

(** [for x in xs: body]. *)
Fixpoint for_each {A : Type} (xs : list A) (body : A -> Py unit) : Py unit :=
  match xs with
  | [] => ret tt
  | x :: xs' => bind (body x) (fun _ => for_each xs' body)
  end.

Definition start : World := {| stdout := EmptyString |}.

(** Value or exception of a call made in the state [w]. *)
Definition result {A : Type} (c : Py A) (w : World) : outcome A := fst (c w).
Definition after {A : Type} (c : Py A) (w : World) : World := snd (c w).

(** ** Global assumptions *)

Definition GPU_TFLOPS : Z := 90.
Definition GPU_HOURLY_COST : float := literal 2 0.

(** ** Use case 1: machine translation *)

Definition WORDS_PER_MIN_TRANSLATION : Z := 1000.
Definition WORDS_PER_HOUR_TRANSLATION : Z := WORDS_PER_MIN_TRANSLATION * 60.

Local Open Scope py_scope.

(** [gpu_hours * 3600 * GPU_TFLOPS] is two products, left to right;
    [seconds] names the first one. *)
Definition translation_estimates (words_per_day : Z) : Py (float * float * float) :=
  gpu_hours <- expr (int_truediv words_per_day WORDS_PER_HOUR_TRANSLATION) ;;
  seconds <- expr (fmul_int gpu_hours 3600) ;;
  total_tflops <- expr (fmul_int seconds GPU_TFLOPS) ;;
  cost <- ret (fmul gpu_hours GPU_HOURLY_COST) ;;
  ret (gpu_hours, total_tflops, cost).

(** [num_gpus] defaults to 1 in the script; a call gives it here. *)
Definition translation_doc_time (words num_gpus : Z) : Py float :=
  words_per_min_total <- ret (WORDS_PER_MIN_TRANSLATION * num_gpus)%Z ;;
  minutes <- expr (int_truediv words words_per_min_total) ;;
  ret minutes.

(** ** Use case 2: LLM chat *)

Definition LLM_PARAMS_BILLIONS : Z := 13.

(** [2 * LLM_PARAMS_BILLIONS * 1e9], evaluated when the module loads. *)
Definition FLOPS_PER_TOKEN_expr : outcome float :=
  int_mul_f (2 * LLM_PARAMS_BILLIONS) (literal 1 9).

Definition FLOPS_PER_TOKEN : float :=
  match FLOPS_PER_TOKEN_expr with
  | Ok x => x
  | Raise _ => S754_nan
  end.

Definition TOKENS_PER_USER_PER_DAY : Z := 3000.

Definition llm_chat_estimates (users_per_day : Z) : Py (Z * float * float * float) :=
  tokens <- ret (users_per_day * TOKENS_PER_USER_PER_DAY)%Z ;;
  flops_day <- expr (int_mul_f tokens FLOPS_PER_TOKEN) ;;
  flops_per_second <- expr (int_mul_f GPU_TFLOPS (literal 1 12)) ;;
  gpu_seconds <- expr (fdiv flops_day flops_per_second) ;;
  gpu_hours <- expr (fdiv_int gpu_seconds 3600) ;;
  seconds <- expr (fmul_int gpu_hours 3600) ;;
  total_tflops <- expr (fmul_int seconds GPU_TFLOPS) ;;
  cost <- ret (fmul gpu_hours GPU_HOURLY_COST) ;;
  ret (tokens, gpu_hours, total_tflops, cost).

(** ** Text formatting, as done by f-strings *)

Local Open Scope string_scope.

Module Format.

(** [s * n] on strings. *)
Fixpoint repeat_str (s : string) (n : nat) : string :=
  match n with
  | O => ""
  | S n' => s ++ repeat_str s n'
  end.

(** Numbers are right-aligned in their field. *)
Definition pad_left (width : nat) (s : string) : string :=
  repeat_str " " (width - String.length s) ++ s.

(** The decimal digits of a natural number. *)
Definition digits (n : Z) : string :=
  NilZero.string_of_uint (N.to_uint (Z.to_N n)).

Definition sign_str (neg : bool) : string := if neg then "-" else "".

(** [{n}] and [{n:d}]. *)
Definition str_int (n : Z) : string :=
  sign_str (n <? 0)%Z ++ digits (Z.abs n).

(** The [,] option: a comma between groups of three digits. *)
Fixpoint commas (ds : string) : string :=
  match ds with
  | EmptyString => ""
  | String c rest =>
      let n := String.length rest in
      if (negb (n =? 0) && (n mod 3 =? 0))%nat
      then String c ("," ++ commas rest)
      else String c (commas rest)
  end.

(** [{n:W,d}] and [{n:,}] (width 0). *)
Definition fmt_int_comma (width : nat) (n : Z) : string :=
  pad_left width (sign_str (n <? 0)%Z ++ commas (digits (Z.abs n))).

(** The digits of [k] with the decimal point before the last [nd]. *)
Definition place_point (nd : nat) (k : Z) : string :=
  let ds := digits k in
  let ds := repeat_str "0" (S nd - String.length ds) ++ ds in
  let n := String.length ds in
  match nd with
  | O => ds
  | _ => substring 0 (n - nd) ds ++ "." ++ substring (n - nd) nd ds
  end.

(** [{x:W.Nf}]: the exact value rounded to [nd] decimals, ties to even. *)
Definition fmt_fixed (width nd : nat) (x : float) : string :=
  pad_left width
    match x with
    | S754_nan => "nan"
    | S754_infinity s => sign_str s ++ "inf"
    | S754_zero s => sign_str s ++ place_point nd 0
    | S754_finite s m e =>
        sign_str s ++
        place_point nd
          (rnd_div (shl (Zpos m * 10 ^ Z.of_nat nd) e) (shl 1 (- e)))
    end.

(** *** [repr] of a float: the shortest digits that read back *)

Definition scale10 (x k : Z) : Z := (x * 10 ^ Z.max 0 k)%Z.

Definition ilog10 (n : Z) : Z := (Z.of_nat (String.length (digits n)) - 1)%Z.

(** The floor of the decimal logarithm of [n / d]. *)
Definition ilog10_ratio (n d : Z) : Z :=
  let k := (ilog10 n - ilog10 d)%Z in
  if (scale10 d k <=? scale10 n (- k))%Z then k else (k - 1)%Z.

(** [n / d] to [p] significant digits, as the digits read as an integer
    and the decimal exponent of the first one: the nearest such decimal
    (ties to even) and its neighbour on the other side of [n / d]. *)
Definition significant (p n d : Z) : (Z * Z) * (Z * Z) :=
  let k := ilog10_ratio n d in
  let j := (p - 1 - k)%Z in
  let a := scale10 n j in
  let b := scale10 d (- j) in
  let carry (sg : Z) := if (sg =? 10 ^ p)%Z then (10 ^ (p - 1), k + 1)%Z else (sg, k) in
  let near := rnd_div a b in
  let far := if (near =? a / b)%Z then (a / b + 1)%Z else (a / b)%Z in
  (carry near, carry far).

Definition reads_back (s : bool) (m : positive) (e p : Z) (sk : Z * Z) : bool :=
  let '(sg, k) := sk in
  let j := (k - (p - 1))%Z in
  match round_ratio s (scale10 sg j) (scale10 1 (- j)) with
  | S754_finite s' m' e' => Bool.eqb s s' && (Zpos m =? Zpos m')%Z && (e =? e')%Z
  | _ => false
  end.

(** The fewest digits that read back as the float, and with that many
    digits the decimal nearest to it that does; 17 digits always do. *)
Fixpoint shortest (fuel : nat) (s : bool) (m : positive) (e p : Z) : Z * Z * Z :=
  let '(near, far) := significant p (shl (Zpos m) e) (shl 1 (- e)) in
  match fuel with
  | O => (near, p)
  | S fuel' =>
      if reads_back s m e p near then (near, p)
      else if reads_back s m e p far then (far, p)
      else shortest fuel' s m e (p + 1)
  end.

Fixpoint strip_zeros (fuel : nat) (sg : Z) : Z :=
  match fuel with
  | O => sg
  | S fuel' => if (sg mod 10 =? 0)%Z then strip_zeros fuel' (sg / 10) else sg
  end.

Definition exp_str (k : Z) : string :=
  (if (k <? 0)%Z then "-" else "+") ++
  let ds := digits (Z.abs k) in
  repeat_str "0" (2 - String.length ds) ++ ds.

Definition repr_layout (sg k : Z) : string :=
  let ds := digits (strip_zeros 17 sg) in
  let p := String.length ds in
  let decpt := (k + 1)%Z in
  if ((decpt <=? -4) || (16 <? decpt))%Z then
    substring 0 1 ds ++
    (if (1 <? p)%nat then "." ++ substring 1 (p - 1) ds else "") ++
    "e" ++ exp_str k
  else if (decpt <=? 0)%Z then
    "0." ++ repeat_str "0" (Z.to_nat (- decpt)) ++ ds
  else if (decpt <? Z.of_nat p)%Z then
    substring 0 (Z.to_nat decpt) ds ++ "." ++
    substring (Z.to_nat decpt) (p - Z.to_nat decpt) ds
  else
    ds ++ repeat_str "0" (Z.to_nat decpt - p) ++ ".0".

(** [{x}] on a float is [repr(x)]. *)
Definition float_repr (x : float) : string :=
  match x with
  | S754_nan => "nan"
  | S754_infinity s => sign_str s ++ "inf"
  | S754_zero s => sign_str s ++ "0.0"
  | S754_finite s m e =>
      let '(sg, k, _) := shortest 16 s m e 1 in
      sign_str s ++ repr_layout sg k
  end.

End Format.

Import Format.

(** ** The reports *)

Local Open Scope py_scope.

Definition newline : string := String "010" EmptyString.

Definition print_translation_summary : Py unit :=
  print (repeat_str "=" 80) ;;;
  print "USE CASE 1: MACHINE TRANSLATION - CAPACITY & COST ESTIMATES" ;;;
  print "Assumptions:" ;;;
  print ("  - 1 GPU can translate " ++ str_int WORDS_PER_MIN_TRANSLATION ++
         " words/minute " ++
         "(" ++ str_int WORDS_PER_HOUR_TRANSLATION ++ " words/hour)") ;;;
  print ("  - GPU peak performance: " ++ str_int GPU_TFLOPS ++ " TFLOPs/s") ;;;
  print ("  - GPU hourly cost: $" ++ float_repr GPU_HOURLY_COST ++ "/hour" ++ newline) ;;;
  target_words <- ret 10000%Z ;;
  for_each [1; 2]%Z (fun gpus =>
    minutes <- translation_doc_time target_words gpus ;;
    print ("Time to translate a " ++ fmt_int_comma 0 target_words ++
           "-word document on " ++ str_int gpus ++ " GPU(s): " ++
           fmt_fixed 0 2 minutes ++ " minutes")) ;;;
  print "" ;;;
  scenarios <- ret [10000; 100000; 1000000]%Z ;;
  print "Daily translation load scenarios:" ;;;
  print "Words/day | GPU-hours/day | Total TFLOPs used/day | Cost/day (USD)" ;;;
  print (repeat_str "-" 80) ;;;
  for_each scenarios (fun words =>
    r <- translation_estimates words ;;
    let '(gpu_hours, total_tflops, cost) := r in
    print (fmt_int_comma 9 words ++ " | " ++ fmt_fixed 13 2 gpu_hours ++ " | " ++
           fmt_fixed 21 0 total_tflops ++ " | $" ++ fmt_fixed 10 2 cost)) ;;;
  print "".

Definition print_llm_chat_summary : Py unit :=
  print (repeat_str "=" 80) ;;;
  print "USE CASE 2: LLM CHAT - CAPACITY & COST ESTIMATES" ;;;
  print "Assumptions:" ;;;
  print ("  - Model size: ~" ++ str_int LLM_PARAMS_BILLIONS ++ "B parameters") ;;;
  gflops <- expr (fdiv FLOPS_PER_TOKEN (literal 1 9)) ;;
  print ("  - FLOPs per token ≈ 2 × params ≈ " ++ fmt_fixed 0 0 gflops ++
         " GFLOPs/token") ;;;
  print ("  - Avg tokens per user/day: " ++ str_int TOKENS_PER_USER_PER_DAY ++
         " tokens") ;;;
  print ("  - GPU peak performance: " ++ str_int GPU_TFLOPS ++ " TFLOPs/s") ;;;
  print ("  - GPU hourly cost: $" ++ float_repr GPU_HOURLY_COST ++ "/hour" ++ newline) ;;;
  scenarios <- ret [100; 10000; 100000]%Z ;;
  print "Daily user load scenarios:" ;;;
  print "Users/day | Tokens/day     | GPU-hours/day | Total TFLOPs used/day | Cost/day (USD)" ;;;
  print (repeat_str "-" 90) ;;;
  for_each scenarios (fun users =>
    r <- llm_chat_estimates users ;;
    let '(tokens, gpu_hours, total_tflops, cost) := r in
    print (fmt_int_comma 9 users ++ " | " ++ fmt_int_comma 13 tokens ++ " | " ++
           fmt_fixed 13 2 gpu_hours ++ " | " ++
           fmt_fixed 21 0 total_tflops ++ " | $" ++ fmt_fixed 10 2 cost)) ;;;
  print "".

(** The main entry point. *)
Definition main : Py unit :=
  print_translation_summary ;;;
  print_llm_chat_summary.

Local Close Scope py_scope.

(** ** Reading a report back

    The numeric fields of the printed text, read as decimal numbers, to
    compare them with the values the estimators returned. *)

Module Reading.

Fixpoint split_on_aux (fuel : nat) (sep s : string) : list string :=
  match fuel with
  | O => [s]
  | S fuel' =>
      match index 0 sep s with
      | Some i =>
          substring 0 i s ::
          split_on_aux fuel' sep
            (substring (i + String.length sep)
               (String.length s - (i + String.length sep)) s)
      | None => [s]
      end
  end.

Definition split_on (sep s : string) : list string :=
  split_on_aux (String.length s) sep s.

Definition lines (s : string) : list string := split_on newline s.

(** Padding, the currency sign and the thousands separators are dropped. *)
Fixpoint clean (s : string) : string :=
  match s with
  | EmptyString => ""
  | String c rest =>
      if (Ascii.eqb c " " || Ascii.eqb c "$" || Ascii.eqb c ",")%bool
      then clean rest else String c (clean rest)
  end.

Definition nat_of_digits (s : string) : option Z :=
  match s with
  | EmptyString => None
  | _ => option_map Z.of_uint (NilZero.uint_of_string s)
  end.

(** [parse_decimal "  1,666.67"] is [Some (166667, 2)]: the number is
    [166667 / 10^2]. *)
Definition parse_decimal (field : string) : option (Z * nat) :=
  let s := clean field in
  let '(neg, s) :=
    match s with
    | String "-" rest => (true, rest)
    | _ => (false, s)
    end in
  let '(ip, fp) :=
    match index 0 "." s with
    | Some i => (substring 0 i s, substring (i + 1) (String.length s - (i + 1)) s)
    | None => (s, "")
    end in
  match nat_of_digits (ip ++ fp) with
  | Some k => Some (if neg then (- k)%Z else k, String.length fp)
  | None => None
  end.

(** The field shows the integer [n]. *)
Definition shows_int (field : string) (n : Z) : Prop :=
  parse_decimal field = Some (n, O).

(** The field shows the float [x] with [nd] decimals: it is within half
    a unit of the last displayed place of the value of [x]. *)
Definition shows_float (nd : nat) (field : string) (x : float) : Prop :=
  match parse_decimal field with
  | Some (k, nd') =>
      nd' = nd /\ is_finite x = true /\
      (Qabs (inject_Z k / inject_Z (10 ^ Z.of_nat nd) - F2Q x)
       <= 1 / (2 * inject_Z (10 ^ Z.of_nat nd)))%Q
  | None => False
  end.

(** The rows of the tables: the lines cut at [" | "] whose first field
    is a number. *)
Definition is_data_row (fields : list string) : bool :=
  match fields with
  | f :: _ :: _ =>
      match parse_decimal f with
      | Some (_, O) => true
      | _ => false
      end
  | _ => false
  end.

Definition data_rows (out : string) : list (list string) :=
  filter is_data_row (map (split_on " | ") (lines out)).

Definition rows_of_width (n : nat) (out : string) : list (list string) :=
  filter (fun r => (List.length r =? n)%nat) (data_rows out).

(** The latency lines: the count of GPUs and the minutes. *)
Definition doc_time_fields (line : string) : option (string * string) :=
  match split_on " document on " line with
  | [_; rest] =>
      match split_on " GPU(s): " rest with
      | [gpus; rest'] =>
          match split_on " minutes" rest' with
          | [minutes; _] => Some (gpus, minutes)
          | _ => None
          end
      | _ => None
      end
  | _ => None
  end.

Fixpoint keep_some {A : Type} (xs : list (option A)) : list A :=
  match xs with
  | [] => []
  | Some x :: xs' => x :: keep_some xs'
  | None :: xs' => keep_some xs'
  end.

Definition doc_time_lines (out : string) : list (string * string) :=
  keep_some (map doc_time_fields (lines out)).

(** A row of the translation table agrees with [translation_estimates]. *)
Definition translation_row_ok (words : Z) (row : list string) : Prop :=
  match row, result (translation_estimates words) start with
  | [f1; f2; f3; f4], Ok (gpu_hours, total_tflops, cost) =>
      shows_int f1 words /\ shows_float 2 f2 gpu_hours /\
      shows_float 0 f3 total_tflops /\ shows_float 2 f4 cost
  | _, _ => False
  end.

(** A row of the chat table agrees with [llm_chat_estimates]. *)
Definition chat_row_ok (users : Z) (row : list string) : Prop :=
  match row, result (llm_chat_estimates users) start with
  | [f1; f2; f3; f4; f5], Ok (tokens, gpu_hours, total_tflops, cost) =>
      shows_int f1 users /\ shows_int f2 tokens /\ shows_float 2 f3 gpu_hours /\
      shows_float 0 f4 total_tflops /\ shows_float 2 f5 cost
  | _, _ => False
  end.

(** A latency line agrees with [translation_doc_time]. *)
Definition doc_time_ok (target_words gpus : Z) (fields : string * string) : Prop :=
  match result (translation_doc_time target_words gpus) start with
  | Ok minutes => shows_int (fst fields) gpus /\ shows_float 2 (snd fields) minutes
  | Raise _ => False
  end.

End Reading.

Local Close Scope string_scope.

(** ** The chat estimate in exact arithmetic

    The formulas of the chat estimator over the rationals, that is
    without any rounding: tokens, operations, resource-seconds,
    resource-hours, and the two derivations of the total operations. *)

Module Exact.

Local Open Scope Q_scope.

Definition tokens (users_per_day : Z) : Q :=
  inject_Z (users_per_day * TOKENS_PER_USER_PER_DAY).

Definition flops_day (users_per_day : Z) : Q :=
  tokens users_per_day * F2Q FLOPS_PER_TOKEN.

Definition flops_per_second : Q := inject_Z GPU_TFLOPS * inject_Z (10 ^ 12).

Definition gpu_seconds (users_per_day : Z) : Q :=
  flops_day users_per_day / flops_per_second.

Definition gpu_hours (users_per_day : Z) : Q :=
  gpu_seconds users_per_day / inject_Z 3600.

(** Recomputed from the resource-hours, as the code reports it. *)
Definition total_tflops_round_trip (users_per_day : Z) : Q :=
  gpu_hours users_per_day * inject_Z 3600 * inject_Z GPU_TFLOPS.

(** Carried through directly, in tera-operations. *)
Definition total_tflops_direct (users_per_day : Z) : Q :=
  flops_day users_per_day / inject_Z (10 ^ 12).

End Exact.

(** The directly computed operation count in binary64:
    [tokens * FLOPS_PER_TOKEN / 1e12]. *)
Definition direct_tflops (users_per_day : Z) : outcome float :=
  obind (int_mul_f (users_per_day * TOKENS_PER_USER_PER_DAY) FLOPS_PER_TOKEN)
    (fun flops_day => fdiv flops_day (literal 1 12)).

(** ** The estimators as expressions

    Each estimator evaluates a fixed expression over its argument and
    the module constants, and hands the state on untouched. *)

Definition translation_value (words_per_day : Z) : outcome (float * float * float) :=
  obind (int_truediv words_per_day WORDS_PER_HOUR_TRANSLATION) (fun gpu_hours =>
  obind (fmul_int gpu_hours 3600) (fun seconds =>
  obind (fmul_int seconds GPU_TFLOPS) (fun total_tflops =>
  Ok (gpu_hours, total_tflops, fmul gpu_hours GPU_HOURLY_COST)))).

Definition doc_time_value (words num_gpus : Z) : outcome float :=
  int_truediv words (WORDS_PER_MIN_TRANSLATION * num_gpus).

Definition chat_value (users_per_day : Z) : outcome (Z * float * float * float) :=
  let tokens := users_per_day * TOKENS_PER_USER_PER_DAY in
  obind (int_mul_f tokens FLOPS_PER_TOKEN) (fun flops_day =>
  obind (int_mul_f GPU_TFLOPS (literal 1 12)) (fun flops_per_second =>
  obind (fdiv flops_day flops_per_second) (fun gpu_seconds =>
  obind (fdiv_int gpu_seconds 3600) (fun gpu_hours =>
  obind (fmul_int gpu_hours 3600) (fun seconds =>
  obind (fmul_int seconds GPU_TFLOPS) (fun total_tflops =>
  Ok (tokens, gpu_hours, total_tflops, fmul gpu_hours GPU_HOURLY_COST))))))).

(** ** The estimators inside the interpreter

    The estimators above take the module constants at the values the
    script assigns.  The interpreter itself looks a global name up in
    the module namespace each time a function body mentions it, with
    the dynamic type found there, and a process has more to observe
    than its standard output.  This second embedding of the three
    estimators keeps both: the namespace is part of the state, next to
    the output, the clock and the environment of the process, and the
    top-level assignments of the script are code that fills it. *)

Module Script.

Local Open Scope string_scope.

(** The numbers of the script. *)
Inductive value : Type :=
| VInt (n : Z)
| VFloat (x : float).

Inductive raised : Type :=
| NameError (name : string)
| Arith (e : exn).

Inductive answer (A : Type) : Type :=
| Return (a : A)
| Fail (r : raised).

Arguments Return {A} a.
Arguments Fail {A} r.

Definition of_outcome {A B : Type} (f : A -> B) (o : outcome A) : answer B :=
  match o with
  | Ok a => Return (f a)
  | Raise e => Fail (Arith e)
  end.

(** [a * b]: ints multiply exactly, a mixed product converts the int. *)
Definition mul (a b : value) : answer value :=
  match a, b with
  | VInt m, VInt n => Return (VInt (m * n))
  | VInt m, VFloat y => of_outcome VFloat (int_mul_f m y)
  | VFloat x, VInt n => of_outcome VFloat (fmul_int x n)
  | VFloat x, VFloat y => Return (VFloat (fmul x y))
  end.

(** [a / b] is true division, always a float. *)
Definition truediv (a b : value) : answer value :=
  match a, b with
  | VInt m, VInt n => of_outcome VFloat (int_truediv m n)
  | VInt m, VFloat y => of_outcome VFloat (obind (of_int m) (fun x => fdiv x y))
  | VFloat x, VInt n => of_outcome VFloat (fdiv_int x n)
  | VFloat x, VFloat y => of_outcome VFloat (fdiv x y)
  end.

(** What code running in the process can observe or change. *)
Record Process : Type := {
  globals : string -> option value;   (* the module namespace *)
  console : World;                    (* standard output *)
  clock : Z;                          (* the system time *)
  environ : string -> option string   (* the environment variables *)
}.

Definition Run (A : Type) : Type := Process -> answer A * Process.

Definition ret {A : Type} (a : A) : Run A := fun s => (Return a, s).

Definition bind {A B : Type} (c : Run A) (k : A -> Run B) : Run B :=
  fun s =>
    match c s with
    | (Return a, s') => k a s'
    | (Fail r, s') => (Fail r, s')
    end.

(** An operation on values: it yields or raises, and leaves the state. *)
Definition eval {A : Type} (a : answer A) : Run A := fun s => (a, s).

(** A global name in an expression. *)
Definition load_global (x : string) : Run value :=
  fun s =>
    match globals s x with
    | Some v => (Return v, s)
    | None => (Fail (NameError x), s)
    end.

(** [x = e] at the top level of the module. *)
Definition store_global (x : string) (v : value) : Run unit :=
  fun s =>
    (Return tt,
     {| globals := fun y => if String.eqb y x then Some v else globals s y;
        console := console s; clock := clock s; environ := environ s |}).

Declare Scope run_scope.
Delimit Scope run_scope with run.
Notation "x <- c ;; k" := (bind c (fun x => k))
  (at level 61, c at next level, right associativity) : run_scope.
Notation "c ;;; k" := (bind c (fun _ => k))
  (at level 61, right associativity) : run_scope.

Local Open Scope run_scope.

Definition assign (x : string) (e : Run value) : Run unit :=
  v <- e ;; store_global x v.

(** The assignments of lines 15 to 24 and 79 to 83, in their order. *)
Definition module_constants : Run unit :=
  assign "GPU_TFLOPS" (ret (VInt 90)) ;;;
  assign "GPU_HOURLY_COST" (ret (VFloat (literal 2 0))) ;;;
  assign "WORDS_PER_MIN_TRANSLATION" (ret (VInt 1000)) ;;;
  assign "WORDS_PER_HOUR_TRANSLATION"
    (per_min <- load_global "WORDS_PER_MIN_TRANSLATION" ;;
     eval (mul per_min (VInt 60))) ;;;
  assign "LLM_PARAMS_BILLIONS" (ret (VInt 13)) ;;;
  assign "FLOPS_PER_TOKEN"
    (params <- load_global "LLM_PARAMS_BILLIONS" ;;
     twice <- eval (mul (VInt 2) params) ;;
     eval (mul twice (VFloat (literal 1 9)))) ;;;
  assign "TOKENS_PER_USER_PER_DAY" (ret (VInt 3000)).

Definition translation_estimates (words_per_day : Z) : Run (value * value * value) :=
  per_hour <- load_global "WORDS_PER_HOUR_TRANSLATION" ;;
  gpu_hours <- eval (truediv (VInt words_per_day) per_hour) ;;
  seconds <- eval (mul gpu_hours (VInt 3600)) ;;
  peak <- load_global "GPU_TFLOPS" ;;
  total_tflops <- eval (mul seconds peak) ;;
  hourly <- load_global "GPU_HOURLY_COST" ;;
  cost <- eval (mul gpu_hours hourly) ;;
  ret (gpu_hours, total_tflops, cost).

Definition translation_doc_time (words num_gpus : Z) : Run value :=
  per_min <- load_global "WORDS_PER_MIN_TRANSLATION" ;;
  words_per_min_total <- eval (mul per_min (VInt num_gpus)) ;;
  minutes <- eval (truediv (VInt words) words_per_min_total) ;;
  ret minutes.

Definition llm_chat_estimates (users_per_day : Z)
  : Run (value * value * value * value) :=
  per_user <- load_global "TOKENS_PER_USER_PER_DAY" ;;
  tokens <- eval (mul (VInt users_per_day) per_user) ;;
  per_token <- load_global "FLOPS_PER_TOKEN" ;;
  flops_day <- eval (mul tokens per_token) ;;
  peak <- load_global "GPU_TFLOPS" ;;
  flops_per_second <- eval (mul peak (VFloat (literal 1 12))) ;;
  gpu_seconds <- eval (truediv flops_day flops_per_second) ;;
  gpu_hours <- eval (truediv gpu_seconds (VInt 3600)) ;;
  seconds <- eval (mul gpu_hours (VInt 3600)) ;;
  peak' <- load_global "GPU_TFLOPS" ;;
  total_tflops <- eval (mul seconds peak') ;;
  hourly <- load_global "GPU_HOURLY_COST" ;;
  cost <- eval (mul gpu_hours hourly) ;;
  ret (tokens, gpu_hours, total_tflops, cost).

Definition result {A : Type} (c : Run A) (s : Process) : answer A := fst (c s).
Definition after {A : Type} (c : Run A) (s : Process) : Process := snd (c s).

(** The global names the estimators mention. *)
Definition constants : list string :=
  [ "GPU_TFLOPS"; "GPU_HOURLY_COST"; "WORDS_PER_MIN_TRANSLATION";
    "WORDS_PER_HOUR_TRANSLATION"; "FLOPS_PER_TOKEN"; "TOKENS_PER_USER_PER_DAY" ].

(** Two states of a process, or of two processes, in which these names
    are bound to the same values; all the rest may differ. *)
Definition same_constants (s1 s2 : Process) : Prop :=
  forall x, In x constants -> globals s1 x = globals s2 x.

(** Code that computes its result from the constants alone and has no
    effect. *)
Definition pure {A : Type} (c : Run A) : Prop :=
  forall s1 s2, same_constants s1 s2 ->
    result c s1 = result c s2 /\ after c s1 = s1.

(** A process that starts at time [t]: nothing bound, nothing printed. *)
Definition fresh (t : Z) : Process :=
  {| globals := fun _ => None; console := start; clock := t;
     environ := fun _ => None |}.

(** The tuples of the estimators above as values. *)
Definition floats3 (r : float * float * float) : value * value * value :=
  let '(a, b, c) := r in (VFloat a, VFloat b, VFloat c).

Definition int_floats3 (r : Z * float * float * float)
  : value * value * value * value :=
  let '(t, a, b, c) := r in (VInt t, VFloat a, VFloat b, VFloat c).

End Script.

(** ** Further notions to describe the estimators *)

Module Notions.

(** The result of an expression under a function. *)
Definition omap {A B : Type} (f : A -> B) (o : outcome A) : outcome B :=
  match o with
  | Ok a => Ok (f a)
  | Raise e => Raise e
  end.

Definition is_nan (x : float) : bool :=
  match x with
  | S754_nan => true
  | _ => false
  end.

(** Zero, a positive number or plus infinity. *)
Definition nonneg (x : float) : Prop :=
  match x with
  | S754_zero false | S754_finite false _ _ | S754_infinity false => True
  | _ => False
  end.

(** [x <= y] as extended real numbers, for floats that are not NaN. *)
Definition fle (x y : float) : Prop :=
  match x, y with
  | S754_nan, _ | _, S754_nan => False
  | S754_infinity true, _ => True
  | _, S754_infinity false => True
  | S754_infinity false, _ => False
  | _, S754_infinity true => False
  | _, _ => (F2Q x <= F2Q y)%Q
  end.

(** A float of sign [s] that is not NaN. *)
Definition signed (s : bool) (x : float) : Prop :=
  match x with
  | S754_zero s' | S754_infinity s' | S754_finite s' _ _ => s' = s
  | S754_nan => False
  end.

(** An infinity of sign [s], or a normal number of sign [s] whose
    exponent is at least [lo]. *)
Definition normal_or_inf (s : bool) (lo : Z) (x : float) : Prop :=
  match x with
  | S754_infinity s' => s' = s
  | S754_finite s' _ e => s' = s /\ normal x /\ lo <= e
  | _ => False
  end.

(** The value of a finite float counted in units of [2^-1074], the
    spacing of the subnormal numbers. *)
Definition units (x : float) : Z :=
  match x with
  | S754_finite s m e => (if s then -1 else 1) * (Zpos m * 2 ^ (e - emin))
  | _ => 0
  end.

(** [x <= y] for non-negative floats whose exponents are in range, in
    units: if [y] is finite then so is [x], with no more units. *)
Definition in_range (x : float) : Prop :=
  match x with
  | S754_finite _ _ e => emin <= e
  | _ => True
  end.

Definition ole (x y : float) : Prop :=
  (signed false x /\ in_range x) /\ (signed false y /\ in_range y) /\
  (is_finite y = true -> is_finite x = true /\ units x <= units y).

(** The opposite of each component. *)
Definition opp3 (r : float * float * float) : float * float * float :=
  let '(a, b, c) := r in (SFopp a, SFopp b, SFopp c).

Definition opp4 (r : Z * float * float * float) : Z * float * float * float :=
  let '(t, a, b, c) := r in ((- t)%Z, SFopp a, SFopp b, SFopp c).

(** The largest magnitude an int may have short of overflowing a float:
    from [2^1024 - 2^970] on, the nearest float is infinite. *)
Definition overflow_threshold : Z := 2 ^ 1024 - 2 ^ 970.

End Notions.

Import Notions.

(** * Properties *)

(** ** Rounding to binary64 *)

Module Binary64Facts.

Lemma pow2_pos (k : Z) : 0 < 2 ^ Z.max 0 k.
Proof. apply Z.pow_pos_nonneg; lia. Qed.

Lemma shl_pos (x k : Z) : 0 < x -> 0 < shl x k.
Proof. intros Hx. unfold shl. pose proof (pow2_pos k). nia. Qed.

Lemma shl_neg (x k : Z) : k <= 0 -> shl x k = x.
Proof.
  intros Hk. unfold shl. replace (Z.max 0 k) with 0 by lia.
  rewrite Z.pow_0_r. lia.
Qed.

Lemma shl_nonneg (x k : Z) : 0 <= k -> shl x k = x * 2 ^ k.
Proof. intros Hk. unfold shl. now replace (Z.max 0 k) with k by lia. Qed.

Lemma shl_succ (x k : Z) : 0 <= k -> shl x (k + 1) = 2 * shl x k.
Proof.
  intros Hk. rewrite !shl_nonneg by lia.
  rewrite Z.pow_add_r by lia. change (2 ^ 1) with 2. lia.
Qed.

Lemma shl_mul (c x k : Z) : shl (c * x) k = c * shl x k.
Proof. unfold shl. lia. Qed.

(** Moving one binade: either the denominator or the numerator doubles. *)
Lemma shl_step (n d k : Z) :
  (shl d (k + 1) = 2 * shl d k /\ shl n (- (k + 1)) = shl n (- k)) \/
  (shl d (k + 1) = shl d k /\ shl n (- k) = 2 * shl n (- (k + 1))).
Proof.
  destruct (Z_le_gt_dec 0 k) as [Hk | Hk].
  - left. split.
    + now apply shl_succ.
    + rewrite !shl_neg by lia. reflexivity.
  - right. split.
    + rewrite !shl_neg by lia. reflexivity.
    + replace (- k) with (- (k + 1) + 1) by lia.
      rewrite shl_succ by lia. reflexivity.
Qed.

Lemma le_ratio_step (c k n d : Z) :
  le_ratio c (k + 1) n d <-> le_ratio (2 * c) k n d.
Proof.
  unfold le_ratio.
  destruct (shl_step n d k) as [[-> ->] | [-> ->]]; lia.
Qed.

Lemma le_ratio_shift (j : Z) :
  0 <= j -> forall c k n d, le_ratio c (k + j) n d <-> le_ratio (c * 2 ^ j) k n d.
Proof.
  intros Hj. pattern j. apply natlike_ind; [| | exact Hj].
  - intros c k n d. rewrite Z.add_0_r, Z.pow_0_r, Z.mul_1_r. tauto.
  - intros x Hx IH c k n d.
    replace (k + Z.succ x) with ((k + x) + 1) by lia.
    rewrite le_ratio_step, IH.
    rewrite Z.pow_succ_r by lia.
    replace (2 * c * 2 ^ x) with (c * (2 * 2 ^ x)) by lia. tauto.
Qed.

Lemma le_ratio_mono_c (c c' k n d : Z) :
  0 < d -> c <= c' -> le_ratio c' k n d -> le_ratio c k n d.
Proof.
  unfold le_ratio. intros Hd Hc H.
  pose proof (shl_pos d k Hd). nia.
Qed.

Lemma le_ratio_mono_k (k k' n d : Z) :
  0 < d -> k <= k' -> le_ratio 1 k' n d -> le_ratio 1 k n d.
Proof.
  intros Hd Hk H.
  replace k' with (k + (k' - k)) in H by lia.
  apply le_ratio_shift in H; [| lia].
  apply le_ratio_mono_c with (c' := 1 * 2 ^ (k' - k)); auto.
  assert (0 < 2 ^ (k' - k)) by (apply Z.pow_pos_nonneg; lia). lia.
Qed.

Lemma le_ratio_scale (a c k n d : Z) :
  0 < a -> le_ratio c k (a * n) (a * d) <-> le_ratio c k n d.
Proof.
  intros Ha. unfold le_ratio. rewrite !shl_mul. nia.
Qed.

(** The binary logarithm of a ratio. *)
Lemma ilog2_ratio_spec (n d : Z) :
  0 < n -> 0 < d ->
  le_ratio 1 (ilog2_ratio n d) n d /\ ~ le_ratio 1 (ilog2_ratio n d + 1) n d.
Proof.
  intros Hn Hd.
  pose proof (Z.log2_spec n Hn) as [Hn1 Hn2].
  pose proof (Z.log2_spec d Hd) as [Hd1 Hd2].
  pose proof (Z.log2_nonneg n) as Hln.
  pose proof (Z.log2_nonneg d) as Hld.
  set (ln := Z.log2 n) in *. set (ld := Z.log2 d) in *.
  rewrite Z.pow_succ_r in Hn2, Hd2 by lia.
  assert (Hlow : le_ratio 1 (ln - ld - 1) n d).
  { unfold le_ratio.
    destruct (Z_le_gt_dec 0 (ln - ld - 1)) as [Hk | Hk].
    - rewrite shl_nonneg, shl_neg by lia.
      assert (2 ^ ln = 2 * 2 ^ ld * 2 ^ (ln - ld - 1)) as E.
      { rewrite <- Z.pow_succ_r, <- Z.pow_add_r by lia. f_equal. lia. }
      assert (0 < 2 ^ (ln - ld - 1)) by (apply Z.pow_pos_nonneg; lia). nia.
    - rewrite shl_neg, shl_nonneg by lia.
      assert (2 * 2 ^ ld = 2 ^ ln * 2 ^ (- (ln - ld - 1))) as E.
      { rewrite <- Z.pow_succ_r, <- Z.pow_add_r by lia. f_equal. lia. }
      assert (0 < 2 ^ (- (ln - ld - 1))) by (apply Z.pow_pos_nonneg; lia). nia. }
  assert (Hup : ~ le_ratio 1 (ln - ld + 1) n d).
  { unfold le_ratio.
    destruct (Z_le_gt_dec 0 (ln - ld + 1)) as [Hk | Hk].
    - rewrite shl_nonneg, shl_neg by lia.
      assert (2 * 2 ^ ln = 2 ^ ld * 2 ^ (ln - ld + 1)) as E.
      { rewrite <- Z.pow_succ_r, <- Z.pow_add_r by lia. f_equal. lia. }
      assert (0 < 2 ^ (ln - ld + 1)) by (apply Z.pow_pos_nonneg; lia). nia.
    - rewrite shl_neg, shl_nonneg by lia.
      assert (2 ^ ld = 2 * 2 ^ ln * 2 ^ (- (ln - ld + 1))) as E.
      { rewrite <- Z.pow_succ_r, <- Z.pow_add_r by lia. f_equal. lia. }
      assert (0 < 2 ^ (- (ln - ld + 1))) by (apply Z.pow_pos_nonneg; lia). nia. }
  unfold ilog2_ratio. fold ln ld.
  destruct (Z.leb_spec (shl d (ln - ld)) (shl n (- (ln - ld)))) as [H | H].
  - split; [unfold le_ratio; lia | exact Hup].
  - split.
    + exact Hlow.
    + replace (ln - ld - 1 + 1) with (ln - ld) by lia. unfold le_ratio. lia.
Qed.

Lemma ilog2_ratio_unique (n d k : Z) :
  0 < n -> 0 < d ->
  le_ratio 1 k n d -> ~ le_ratio 1 (k + 1) n d -> ilog2_ratio n d = k.
Proof.
  intros Hn Hd Hle Hnle.
  destruct (ilog2_ratio_spec n d Hn Hd) as [H1 H2].
  destruct (Z_lt_le_dec k (ilog2_ratio n d)) as [Hlt | Hge].
  - exfalso. apply Hnle.
    apply le_ratio_mono_k with (k' := ilog2_ratio n d); auto; lia.
  - destruct (Z_lt_le_dec (ilog2_ratio n d) k) as [Hlt | Hge'].
    + exfalso. apply H2.
      apply le_ratio_mono_k with (k' := k); auto; lia.
    + lia.
Qed.

Lemma ilog2_ratio_scale (a n d : Z) :
  0 < a -> 0 < n -> 0 < d -> ilog2_ratio (a * n) (a * d) = ilog2_ratio n d.
Proof.
  intros Ha Hn Hd.
  destruct (ilog2_ratio_spec n d Hn Hd) as [H1 H2].
  apply ilog2_ratio_unique; try nia.
  - now apply le_ratio_scale.
  - now rewrite le_ratio_scale.
Qed.

Lemma ilog2_ratio_double (n d : Z) :
  0 < n -> 0 < d -> ilog2_ratio (2 * n) d = ilog2_ratio n d + 1.
Proof.
  intros Hn Hd.
  destruct (ilog2_ratio_spec n d Hn Hd) as [H1 H2].
  assert (Hd2 : forall k, le_ratio 1 (k + 1) (2 * n) d <-> le_ratio 1 k n d).
  { intros k. rewrite le_ratio_step. unfold le_ratio. rewrite shl_mul. lia. }
  apply ilog2_ratio_unique; try lia.
  - now apply Hd2.
  - now rewrite Hd2.
Qed.

(** Rounded division. *)
Lemma rnd_div_scale (c a b : Z) :
  0 < c -> 0 < b -> rnd_div (c * a) (c * b) = rnd_div a b.
Proof.
  intros Hc Hb. unfold rnd_div.
  rewrite Z.div_mul_cancel_l by lia.
  rewrite Z.mul_mod_distr_l by lia.
  replace (2 * (c * (a mod b))) with (c * (2 * (a mod b))) by lia.
  rewrite <- Zmult_compare_compat_l by lia. reflexivity.
Qed.

Lemma rnd_div_cases (a b : Z) :
  rnd_div a b = a / b \/ rnd_div a b = a / b + 1.
Proof.
  unfold rnd_div.
  destruct (2 * (a mod b) ?= b); auto.
  destruct (Z.even (a / b)); auto.
Qed.

Lemma rnd_div_bounds (a b lo hi : Z) :
  0 < b -> lo * b <= a -> a < hi * b -> lo <= rnd_div a b <= hi.
Proof.
  intros Hb Hlo Hhi.
  assert (lo <= a / b) by (apply Z.div_le_lower_bound; lia).
  assert (a / b < hi) by (apply Z.div_lt_upper_bound; lia).
  destruct (rnd_div_cases a b) as [-> | ->]; lia.
Qed.

Lemma rnd_div_exact (m b : Z) : 0 < b -> rnd_div (m * b) b = m.
Proof.
  intros Hb. unfold rnd_div.
  rewrite Z.div_mul, Z.mod_mul by lia.
  change (2 * 0) with 0.
  destruct (Z.compare_spec 0 b); try lia.
Qed.

(** The rounded quotient reaches [h] exactly when the quotient is at
    least [h - 1/2], for an even [h] above the quotient. *)
Lemma rnd_div_top (a b h : Z) :
  0 < b -> 0 <= a -> a < h * b -> Z.even h = true ->
  rnd_div a b = h <-> (2 * h - 1) * b <= 2 * a.
Proof.
  intros Hb Ha Hlt Hev.
  pose proof (Z.div_mod a b ltac:(lia)) as Hdm.
  pose proof (Z.mod_pos_bound a b Hb) as Hr.
  assert (Hq : a / b < h) by (apply Z.div_lt_upper_bound; lia).
  unfold rnd_div.
  destruct (Z.compare_spec (2 * (a mod b)) b) as [E | L | G].
  - destruct (Z.even (a / b)) eqn:Eq.
    + split; intros H; [lia |].
      assert (a / b = h - 1) by nia.
      replace (a / b) with (h - 1) in Eq.
      replace (h - 1) with (Z.pred h) in Eq by lia.
      rewrite Z.even_pred in Eq.
      rewrite <- Z.negb_even in Eq. rewrite Hev in Eq. discriminate.
    + split; intros H; nia.
  - split; intros H; nia.
  - split; intros H; nia.
Qed.

(** Packing. *)
Lemma normalize_succ (s : bool) (m e : Z) :
  0 < m <= 2 ^ prec ->
  normalize s m (e + 1) = fdouble (normalize s m e).
Proof.
  intros Hm. unfold normalize.
  destruct (Z.eqb_spec m (2 ^ prec)) as [E | E].
  - unfold pack, fdouble, pack.
    change (2 ^ (prec - 1)) with 4503599627370496.
    destruct (Z.leb_spec (e + 1) etop), (Z.leb_spec (e + 1 + 1) etop);
      try reflexivity; lia.
  - unfold pack. destruct m as [| p | p]; try lia.
    destruct (Z.leb_spec e etop), (Z.leb_spec (e + 1) etop);
      cbn [fdouble pack]; try reflexivity; try lia.
    + now destruct (Z.leb_spec (e + 1) etop); try lia.
    + now destruct (Z.leb_spec (e + 1) etop); try lia.
Qed.

(** ** Rounding depends on the ratio only *)

Lemma round_pos_scale (s : bool) (a n d : Z) :
  0 < a -> 0 < n -> 0 < d -> round_pos s (a * n) (a * d) = round_pos s n d.
Proof.
  intros Ha Hn Hd. unfold round_pos.
  rewrite ilog2_ratio_scale by assumption.
  rewrite !shl_mul, rnd_div_scale; auto using shl_pos.
Qed.

Lemma round_pos_ratio (s : bool) (n d n' d' : Z) :
  0 < n -> 0 < d -> 0 < n' -> 0 < d' ->
  n * d' = n' * d -> round_pos s n d = round_pos s n' d'.
Proof.
  intros Hn Hd Hn' Hd' E.
  rewrite <- (round_pos_scale s d' n d) by assumption.
  rewrite <- (round_pos_scale s d n' d') by assumption.
  f_equal; lia.
Qed.

(** The significand computed by [round_pos] lies between [2^52] and
    [2^53] when the ratio is at least [2^-1022]. *)
Lemma round_pos_mantissa (n d : Z) :
  0 < n -> 0 < d -> emin + (prec - 1) <= ilog2_ratio n d ->
  let e := ilog2_ratio n d - (prec - 1) in
  2 ^ (prec - 1) <= rnd_div (shl n (- e)) (shl d e) <= 2 ^ prec.
Proof.
  intros Hn Hd Hnorm e.
  destruct (ilog2_ratio_spec n d Hn Hd) as [H1 H2].
  replace (ilog2_ratio n d) with (e + (prec - 1)) in H1 by (unfold e; lia).
  replace (ilog2_ratio n d + 1) with (e + prec) in H2 by (unfold e; lia).
  rewrite le_ratio_shift in H1 by (unfold prec; lia).
  rewrite le_ratio_shift in H2 by (unfold prec; lia).
  unfold le_ratio in H1, H2.
  apply rnd_div_bounds; auto using shl_pos; lia.
Qed.

(** Doubling the ratio moves the result to the next binade. *)
Lemma round_pos_double (s : bool) (n d : Z) :
  0 < n -> 0 < d -> emin + (prec - 1) <= ilog2_ratio n d ->
  round_pos s (2 * n) d = fdouble (round_pos s n d).
Proof.
  intros Hn Hd Hnorm.
  pose proof (round_pos_mantissa n d Hn Hd Hnorm) as Hm. cbv zeta in Hm.
  unfold round_pos.
  rewrite ilog2_ratio_double by assumption.
  set (e := ilog2_ratio n d - (prec - 1)) in *.
  replace (ilog2_ratio n d + 1 - (prec - 1)) with (e + 1) by (unfold e; lia).
  replace (Z.max (e + 1) emin) with (e + 1) by (unfold e; lia).
  replace (Z.max e emin) with e by (unfold e; lia).
  assert (E : rnd_div (shl (2 * n) (- (e + 1))) (shl d (e + 1))
              = rnd_div (shl n (- e)) (shl d e)).
  { rewrite shl_mul.
    destruct (shl_step n d e) as [[-> ->] | [-> ->]].
    - apply rnd_div_scale; auto using shl_pos; lia.
    - reflexivity. }
  rewrite E. apply normalize_succ.
  change (2 ^ (prec - 1)) with 4503599627370496 in Hm. lia.
Qed.

Lemma ilog2_ratio_ge (k n d : Z) :
  0 < n -> 0 < d -> le_ratio 1 k n d -> k <= ilog2_ratio n d.
Proof.
  intros Hn Hd H.
  destruct (ilog2_ratio_spec n d Hn Hd) as [_ H2].
  destruct (Z_lt_le_dec (ilog2_ratio n d) k) as [Hlt | Hge]; [| lia].
  exfalso. apply H2. apply le_ratio_mono_k with (k' := k); auto; lia.
Qed.

Lemma ilog2_ratio_lt (k n d : Z) :
  0 < n -> 0 < d -> ~ le_ratio 1 k n d -> ilog2_ratio n d < k.
Proof.
  intros Hn Hd H.
  destruct (ilog2_ratio_spec n d Hn Hd) as [H1 _].
  destruct (Z_lt_le_dec (ilog2_ratio n d) k) as [Hlt | Hge]; [lia |].
  exfalso. apply H. apply le_ratio_mono_k with (k' := ilog2_ratio n d); auto.
Qed.

(** ** Values [a / b * 2^K] *)

Lemma le_ratio_val_step (c j a b K : Z) :
  le_ratio c (j + (K + 1)) (shl a (K + 1)) (shl b (- (K + 1))) <->
  le_ratio c (j + K) (shl a K) (shl b (- K)).
Proof.
  replace (j + (K + 1)) with (j + K + 1) by lia.
  rewrite le_ratio_step.
  destruct (shl_step b a K) as [[-> ->] | [-> ->]];
    unfold le_ratio; rewrite !shl_mul; lia.
Qed.

Lemma le_ratio_val (c j a b K : Z) :
  le_ratio c (j + K) (shl a K) (shl b (- K)) <-> le_ratio c j a b.
Proof.
  assert (H0 : le_ratio c (j + 0) (shl a 0) (shl b (- 0)) <-> le_ratio c j a b).
  { rewrite Z.add_0_r. cbn [Z.opp]. rewrite !(shl_neg _ 0) by lia. tauto. }
  destruct (Z_le_gt_dec 0 K) as [HK | HK].
  - pattern K. apply natlike_ind; [exact H0 | | exact HK].
    intros x Hx IH. unfold Z.succ. rewrite le_ratio_val_step. exact IH.
  - assert (G : forall z, 0 <= z ->
      le_ratio c (j + - z) (shl a (- z)) (shl b (- - z)) <-> le_ratio c j a b).
    { intros z Hz. pattern z. apply natlike_ind; [exact H0 | | exact Hz].
      intros x Hx IH. rewrite <- IH.
      replace (- x) with (- Z.succ x + 1) by lia.
      rewrite le_ratio_val_step. tauto. }
    specialize (G (- K) ltac:(lia)).
    now replace (- - K) with K in G by lia.
Qed.

Lemma ilog2_ratio_val (a b K : Z) :
  0 < a -> 0 < b ->
  ilog2_ratio (shl a K) (shl b (- K)) = ilog2_ratio a b + K.
Proof.
  intros Ha Hb.
  destruct (ilog2_ratio_spec a b Ha Hb) as [H1 H2].
  apply ilog2_ratio_unique; auto using shl_pos.
  - now apply le_ratio_val.
  - replace (ilog2_ratio a b + K + 1) with (ilog2_ratio a b + 1 + K) by lia.
    now rewrite le_ratio_val.
Qed.

Lemma shl_shl (x k : Z) :
  shl (shl x k) (- k) = x * 2 ^ Z.abs k /\ shl (shl x (- k)) k = x * 2 ^ Z.abs k.
Proof.
  destruct (Z_le_gt_dec 0 k) as [Hk | Hk].
  - rewrite (shl_neg _ (- k)), (shl_neg x (- k)) by lia.
    rewrite !shl_nonneg by lia. now rewrite Z.abs_eq by lia.
  - rewrite (shl_neg x k), (shl_neg _ k) by lia.
    rewrite !shl_nonneg by lia. now rewrite Z.abs_neq by lia.
Qed.

(** Moving one binade up in a value [a / b * 2^K] doubles the ratio. *)
Lemma round_val_succ (s : bool) (a b K : Z) :
  0 < a -> 0 < b -> emin + (prec - 1) <= ilog2_ratio a b + K ->
  round_pos s (shl a (K + 1)) (shl b (- (K + 1)))
  = fdouble (round_pos s (shl a K) (shl b (- K))).
Proof.
  intros Ha Hb Hnorm.
  rewrite <- round_pos_double; auto using shl_pos.
  - apply round_pos_ratio; auto using shl_pos.
    + pose proof (shl_pos a K Ha). lia.
    + destruct (shl_step b a K) as [[-> ->] | [-> ->]]; lia.
  - now rewrite ilog2_ratio_val.
Qed.

(** A representable value is its own rounding. *)
Lemma round_pos_exact (s : bool) (m e : Z) :
  2 ^ (prec - 1) <= m < 2 ^ prec -> emin <= e ->
  round_pos s (shl m e) (shl 1 (- e)) = pack s m e.
Proof.
  intros Hm He.
  change (2 ^ (prec - 1)) with 4503599627370496 in Hm.
  change (2 ^ prec) with 9007199254740992 in Hm.
  assert (Hl : ilog2_ratio m 1 = prec - 1).
  { apply ilog2_ratio_unique; try lia; unfold le_ratio; cbn;
      rewrite shl_neg by lia; lia. }
  unfold round_pos. rewrite ilog2_ratio_val, Hl by lia.
  replace (Z.max (prec - 1 + e - (prec - 1)) emin) with e by lia.
  destruct (shl_shl m e) as [-> _]. destruct (shl_shl 1 e) as [_ ->].
  rewrite Z.mul_1_l, rnd_div_exact by (apply Z.pow_pos_nonneg; lia).
  unfold normalize.
  destruct (Z.eqb_spec m (2 ^ prec)) as [E | E]; [| reflexivity].
  change (2 ^ prec) with 9007199254740992 in E. lia.
Qed.

(** Results in the normal range. *)
Lemma round_pos_normal (s : bool) (n d : Z) :
  0 < n -> 0 < d -> emin + (prec - 1) <= ilog2_ratio n d ->
  round_pos s n d = S754_infinity s \/
  exists m e, round_pos s n d = S754_finite s m e /\
    normal (S754_finite s m e) /\
    ilog2_ratio n d - (prec - 1) <= e <= ilog2_ratio n d - (prec - 1) + 1.
Proof.
  intros Hn Hd Hnorm.
  pose proof (round_pos_mantissa n d Hn Hd Hnorm) as Hm. cbv zeta in Hm.
  unfold round_pos.
  replace (Z.max (ilog2_ratio n d - (prec - 1)) emin)
    with (ilog2_ratio n d - (prec - 1)) by lia.
  set (e := ilog2_ratio n d - (prec - 1)) in *.
  set (m := rnd_div (shl n (- e)) (shl d e)) in *.
  change (2 ^ (prec - 1)) with 4503599627370496 in Hm.
  change (2 ^ prec) with 9007199254740992 in Hm.
  unfold normalize.
  destruct (Z.eqb_spec m (2 ^ prec)) as [E | E].
  - cbn [pack Z.pow Z.sub prec Z.add Z.opp Z.pos_sub Pos.pred_double Z.pow_pos Pos.iter Z.mul Pos.mul].
    destruct (Z.leb_spec (e + 1) etop) as [Le | Le]; [right | now left].
    eexists _, (e + 1). split; [reflexivity |]. split.
    + cbn. unfold emin, etop in *. lia.
    + lia.
  - change (2 ^ prec) with 9007199254740992 in E.
    destruct m as [| p | p]; try lia. cbn [pack].
    destruct (Z.leb_spec e etop) as [Le | Le]; [right | now left].
    exists p, e. split; [reflexivity |]. split.
    + cbn. unfold etop in *. change emin with (-1074) in *. lia.
    + lia.
Qed.

(** Below [2^1023] the result is finite. *)
Lemma round_pos_finite (s : bool) (n d : Z) :
  0 < n -> 0 < d -> ilog2_ratio n d < emax - 1 ->
  is_finite (round_pos s n d) = true.
Proof.
  intros Hn Hd Hlt.
  unfold round_pos.
  set (e := Z.max (ilog2_ratio n d - (prec - 1)) emin).
  assert (He : e < etop) by (unfold e, emax, prec, emin, etop in *; lia).
  set (m := rnd_div (shl n (- e)) (shl d e)).
  assert (Hm : 0 <= m).
  { pose proof (shl_pos n (- e) Hn). pose proof (shl_pos d e Hd).
    unfold m. apply (rnd_div_bounds _ _ 0 (shl n (- e) + 1)); nia. }
  unfold normalize.
  destruct (Z.eqb_spec m (2 ^ prec)) as [E | E].
  - cbn. destruct (Z.leb_spec (e + 1) etop); [reflexivity | lia].
  - destruct m as [| p | p]; try lia; cbn [pack]; [reflexivity |].
    destruct (Z.leb_spec e etop); [reflexivity | lia].
Qed.

Lemma round_pos_exponent (s s' : bool) (n d : Z) (m : positive) (e : Z) :
  round_pos s n d = S754_finite s' m e ->
  let e0 := Z.max (ilog2_ratio n d - (prec - 1)) emin in
  s' = s /\ (e = e0 \/ e = e0 + 1).
Proof.
  unfold round_pos, normalize. cbv zeta.
  set (e0 := Z.max (ilog2_ratio n d - (prec - 1)) emin).
  destruct (_ =? 2 ^ prec).
  - cbn. destruct (e0 + 1 <=? etop); [| discriminate].
    intros [= <- _ <-]. auto.
  - unfold pack. destruct (rnd_div _ _); try discriminate.
    destruct (e0 <=? etop); [| discriminate].
    intros [= <- _ <-]. auto.
Qed.

(** The binary exponent of the ratio decides overflow, but for the last
    half unit below [2^1024]. *)
Lemma round_pos_overflow (s : bool) (n d : Z) :
  0 < n -> 0 < d ->
  round_pos s n d = S754_infinity s <-> (2 ^ emax - 2 ^ (etop - 1)) * d <= n.
Proof.
  intros Hn Hd.
  assert (P970 : 0 < 2 ^ (etop - 1)) by (apply Z.pow_pos_nonneg; unfold etop; lia).
  assert (E971 : 2 ^ etop = 2 * 2 ^ (etop - 1)).
  { rewrite <- Z.pow_succ_r by (unfold etop; lia). f_equal. }
  assert (E1023 : 2 ^ (emax - 1) = 2 ^ (prec - 1) * 2 ^ etop).
  { rewrite <- Z.pow_add_r by (unfold etop, prec; lia). f_equal. }
  assert (E1024 : 2 ^ emax = 2 ^ prec * 2 ^ etop).
  { rewrite <- Z.pow_add_r by (unfold etop, prec; lia). f_equal. }
  change (2 ^ (prec - 1)) with 4503599627370496 in E1023.
  change (2 ^ prec) with 9007199254740992 in E1024.
  set (P := 2 ^ (etop - 1)) in *.
  destruct (Z_lt_le_dec n (d * 2 ^ (emax - 1))) as [Hlow | Hlow].
  - (* below 2^1023 *)
    assert (Hfl : ilog2_ratio n d < emax - 1).
    { apply ilog2_ratio_lt; auto. unfold le_ratio.
      rewrite shl_nonneg, shl_neg by (unfold emax; lia). lia. }
    pose proof (round_pos_finite s n d Hn Hd Hfl) as Hf.
    split.
    + intros E. rewrite E in Hf. discriminate.
    + intros H. exfalso. nia.
  - destruct (Z_lt_le_dec n (d * 2 ^ emax)) as [Hhigh | Hhigh].
    + (* the last binade *)
      assert (Hfl : ilog2_ratio n d = emax - 1).
      { apply ilog2_ratio_unique; auto; unfold le_ratio.
        - rewrite shl_nonneg, shl_neg by (unfold emax; lia). lia.
        - replace (emax - 1 + 1) with emax by lia.
          rewrite shl_nonneg, shl_neg by (unfold emax; lia). lia. }
      pose proof (round_pos_mantissa n d Hn Hd) as Hm.
      rewrite Hfl in Hm. specialize (Hm ltac:(unfold emin, emax, prec; lia)).
      cbv zeta in Hm.
      unfold round_pos. rewrite Hfl.
      replace (Z.max (emax - 1 - (prec - 1)) emin) with etop by reflexivity.
      replace (emax - 1 - (prec - 1)) with etop in Hm by reflexivity.
      rewrite shl_neg in * by (unfold etop; lia).
      rewrite shl_nonneg in * by (unfold etop; lia).
      set (m := rnd_div n (d * 2 ^ etop)) in *.
      change (2 ^ (prec - 1)) with 4503599627370496 in Hm.
      change (2 ^ prec) with 9007199254740992 in Hm.
      assert (Htop : m = 9007199254740992 <->
                     (2 * 9007199254740992 - 1) * (d * 2 ^ etop) <= 2 * n).
      { apply rnd_div_top; try nia. reflexivity. }
      unfold normalize. change (2 ^ prec) with 9007199254740992.
      destruct (Z.eqb_spec m 9007199254740992) as [E | E].
      * split; [intros _ | reflexivity].
        apply Htop in E. nia.
      * destruct m as [| p | p]; try lia. cbn [pack].
        change (etop <=? etop) with true. cbv iota.
        split; [discriminate |].
        intros H. exfalso. apply E. apply Htop. nia.
    + (* at or above 2^1024 *)
      assert (Hfl : emax <= ilog2_ratio n d).
      { apply ilog2_ratio_ge; auto. unfold le_ratio.
        rewrite shl_nonneg, shl_neg by (unfold emax; lia). lia. }
      split; [intros _; nia | intros _].
      destruct (round_pos_normal s n d Hn Hd) as [E | (m & e & E & Hnorm & He)];
        [unfold emin, emax, prec in *; lia | exact E |].
      exfalso. cbn in Hnorm. unfold emax, prec, etop in *. lia.
Qed.

(** *** Agreement with the standard library

    On the samples, the operations coincide with the standard library's
    specification of binary64 arithmetic. *)

Example fmul_agrees_with_SFmul :
  forallb (fun p => float_eqb (fmul (fst p) (snd p)) (SFmul 53 1024 (fst p) (snd p)))
    (all_pairs samples samples) = true.
Proof. vm_compute. reflexivity. Qed.

Example fdiv_agrees_with_SFdiv :
  forallb (fun p =>
             match fdiv (fst p) (snd p) with
             | Ok q => float_eqb q (SFdiv 53 1024 (fst p) (snd p))
             | Raise e => is_zero (snd p)
             end)
    (all_pairs samples samples) = true.
Proof. vm_compute. reflexivity. Qed.

Example of_int_agrees_with_binary_normalize :
  forallb (fun n =>
             match of_int n with
             | Ok x => float_eqb x (binary_normalize 53 1024 n 0 (n <? 0))
             | Raise e => false
             end)
    int_samples = true.
Proof. vm_compute. reflexivity. Qed.

(** The quotient of two integers of at most 53 bits is the IEEE
    quotient of their conversions. *)
Example int_truediv_agrees_with_SFdiv :
  forallb (fun p =>
             match int_truediv (fst p) (snd p), of_int (fst p), of_int (snd p) with
             | Ok q, Ok x, Ok y => float_eqb q (SFdiv 53 1024 x y)
             | Raise ZeroDivisionError, _, _ => snd p =? 0
             | _, _, _ => false
             end)
    (all_pairs (firstn 12 int_samples) (firstn 12 int_samples)) = true.
Proof. vm_compute. reflexivity. Qed.

(** *** Conversion of integers *)

Lemma ilog2_ratio_int_nonneg (n : Z) : 0 < n -> 0 <= ilog2_ratio n 1.
Proof.
  intros Hn. apply ilog2_ratio_ge; try lia.
  unfold le_ratio. rewrite !shl_neg by lia. lia.
Qed.

Lemma of_int_pos (n : Z) :
  0 < n ->
  of_int n = Raise OverflowError \/
  exists m e, of_int n = Ok (S754_finite false m e) /\
    normal (S754_finite false m e) /\ - (prec - 1) <= e.
Proof.
  intros Hn. unfold of_int, round_ratio.
  destruct (Z.eqb_spec (Z.abs n) 0) as [E | _]; [lia |].
  replace (n <? 0) with false by (symmetry; apply Z.ltb_ge; lia).
  rewrite Z.abs_eq by lia.
  pose proof (ilog2_ratio_int_nonneg n Hn) as Hl.
  destruct (round_pos_normal false n 1) as [E | (m & e & E & Hnorm & He)];
    try lia.
  - unfold emin, prec. lia.
  - rewrite E. now left.
  - rewrite E. right. exists m, e. repeat split; try apply Hnorm. lia.
Qed.

Lemma of_int_double (n : Z) (x2 : float) :
  0 < n -> of_int (2 * n) = Ok x2 ->
  exists m e, of_int n = Ok (S754_finite false m e) /\
    normal (S754_finite false m e) /\ - (prec - 1) <= e /\ e < etop /\
    x2 = S754_finite false m (e + 1).
Proof.
  intros Hn H2.
  assert (Hd : round_pos false (2 * n) 1 = fdouble (round_pos false n 1)).
  { apply round_pos_double; try lia.
    pose proof (ilog2_ratio_int_nonneg n Hn). unfold emin, prec. lia. }
  unfold of_int, round_ratio in H2.
  destruct (Z.eqb_spec (Z.abs (2 * n)) 0) as [E | _]; [lia |].
  replace (2 * n <? 0) with false in H2 by (symmetry; apply Z.ltb_ge; lia).
  rewrite Z.abs_eq in H2 by lia. rewrite Hd in H2.
  destruct (of_int_pos n Hn) as [E | (m & e & E & Hnorm & He)].
  - exfalso. unfold of_int, round_ratio in E.
    destruct (Z.eqb_spec (Z.abs n) 0) as [E0 | _]; [lia |].
    replace (n <? 0) with false in E by (symmetry; apply Z.ltb_ge; lia).
    rewrite Z.abs_eq in E by lia.
    destruct (round_pos false n 1); discriminate.
  - exists m, e. split; [exact E |].
    unfold of_int, round_ratio in E.
    destruct (Z.eqb_spec (Z.abs n) 0) as [E0 | _]; [lia |].
    replace (n <? 0) with false in E by (symmetry; apply Z.ltb_ge; lia).
    rewrite Z.abs_eq in E by lia.
    destruct (round_pos false n 1) eqn:R; try discriminate.
    + injection E as <- <- <-.
      cbn [fdouble pack] in H2.
      destruct (Z.leb_spec (e0 + 1) etop) as [Le | Le]; [| discriminate].
      injection H2 as <-. repeat split; try apply Hnorm; lia.
Qed.

(** *** Products and quotients of normal numbers *)

Lemma shl_transfer (m K j : Z) :
  0 <= j ->
  shl m (K + j) * shl 1 (- K) = 2 ^ j * shl m K * shl 1 (- (K + j)).
Proof.
  intros Hj. pattern j. apply natlike_ind; [| | exact Hj].
  - rewrite Z.add_0_r, Z.pow_0_r. lia.
  - intros x Hx IH. rewrite Z.pow_succ_r by lia.
    replace (K + Z.succ x) with (K + x + 1) by lia.
    destruct (shl_step 1 m (K + x)) as [[-> ->] | [-> E]].
    + lia.
    + rewrite E in IH. lia.
Qed.

Lemma ilog2_ratio_product (mx my : Z) :
  2 ^ (prec - 1) <= mx -> 2 ^ (prec - 1) <= my ->
  2 * (prec - 1) <= ilog2_ratio (mx * my) 1.
Proof.
  change (2 ^ (prec - 1)) with 4503599627370496. intros Hx Hy.
  apply ilog2_ratio_ge; try nia.
  unfold le_ratio. cbn. rewrite shl_neg by lia. nia.
Qed.

Lemma ilog2_ratio_quotient (mx my : Z) :
  2 ^ (prec - 1) <= mx -> 0 < my < 2 ^ prec -> -1 <= ilog2_ratio mx my.
Proof.
  change (2 ^ (prec - 1)) with 4503599627370496.
  change (2 ^ prec) with 9007199254740992. intros Hx Hy.
  apply ilog2_ratio_ge; try lia.
  unfold le_ratio. cbn [Z.opp]. rewrite shl_neg by lia.
  rewrite shl_nonneg by lia. lia.
Qed.

Lemma ilog2_ratio_quotient_le (mx my : Z) :
  0 < mx < 2 ^ prec -> 2 ^ (prec - 1) <= my -> ilog2_ratio mx my <= 0.
Proof.
  change (2 ^ (prec - 1)) with 4503599627370496.
  change (2 ^ prec) with 9007199254740992. intros Hx Hy.
  assert (ilog2_ratio mx my < 1); [| lia].
  apply ilog2_ratio_lt; try lia.
  unfold le_ratio. cbn [Z.opp]. rewrite (shl_neg mx) by lia.
  rewrite shl_nonneg by lia. lia.
Qed.

Section NormalOperands.

Variables (sx sy : bool) (mx my : positive) (ex ey : Z).
Hypothesis Hx : normal (S754_finite sx mx ex).
Hypothesis Hy : normal (S754_finite sy my ey).

Let x := S754_finite sx mx ex.
Let y := S754_finite sy my ey.

Lemma fmul_normal :
  emin <= ex + ey + (prec - 1) ->
  fmul x y = S754_infinity (xorb sx sy) \/
  exists m e, fmul x y = S754_finite (xorb sx sy) m e /\
    normal (S754_finite (xorb sx sy) m e) /\ ex + ey + (prec - 1) <= e.
Proof.
  intros Hrange. destruct Hx as [Hmx _], Hy as [Hmy _].
  pose proof (ilog2_ratio_product _ _ (proj1 Hmx) (proj1 Hmy)) as Hl.
  unfold x, y, fmul.
  destruct (round_pos_normal (xorb sx sy)
              (shl (Zpos mx * Zpos my) (ex + ey)) (shl 1 (- (ex + ey))))
    as [E | (m & e & E & Hn & He)];
    [apply shl_pos; lia | apply shl_pos; lia | | now left |].
  - rewrite ilog2_ratio_val by lia. unfold prec in *. lia.
  - right. exists m, e. rewrite ilog2_ratio_val in He by lia.
    repeat split; try apply Hn; auto. unfold prec in *. lia.
Qed.

Lemma fmul_fdouble_l :
  ex < etop -> emin <= ex + ey + (prec - 1) ->
  fmul (S754_finite sx mx (ex + 1)) y = fdouble (fmul x y).
Proof.
  intros Htop Hrange. destruct Hx as [Hmx _], Hy as [Hmy _].
  pose proof (ilog2_ratio_product _ _ (proj1 Hmx) (proj1 Hmy)) as Hl.
  unfold x, y, fmul.
  replace (ex + 1 + ey) with (ex + ey + 1) by lia.
  apply round_val_succ; unfold prec in *; lia.
Qed.

Lemma fdiv_normal :
  emin + (prec - 1) <= ex - ey - 1 ->
  exists q, fdiv x y = Ok q /\
    (q = S754_infinity (xorb sx sy) \/
     exists m e, q = S754_finite (xorb sx sy) m e /\
       normal q /\ ex - ey - prec <= e <= ex - ey - prec + 2).
Proof.
  intros Hrange. destruct Hx as [Hmx _], Hy as [Hmy _].
  pose proof (ilog2_ratio_quotient (Zpos mx) (Zpos my) (proj1 Hmx) ltac:(lia)) as Hl.
  pose proof (ilog2_ratio_quotient_le (Zpos mx) (Zpos my) ltac:(lia) (proj1 Hmy)) as Hu.
  unfold x, y, fdiv. eexists. split; [reflexivity |].
  replace (ey - ex) with (- (ex - ey)) by lia.
  destruct (round_pos_normal (xorb sx sy)
              (shl (Zpos mx) (ex - ey)) (shl (Zpos my) (- (ex - ey))))
    as [E | (m & e & E & Hn & He)];
    [apply shl_pos; lia | apply shl_pos; lia | | now left |].
  - rewrite ilog2_ratio_val by lia. lia.
  - right. exists m, e. rewrite ilog2_ratio_val in He by lia.
    rewrite E. repeat split; try apply Hn; auto; unfold prec in *; lia.
Qed.

Lemma fdiv_fdouble_l :
  ex < etop -> emin + (prec - 1) <= ex - ey - 1 ->
  fdiv (S754_finite sx mx (ex + 1)) y
  = obind (fdiv x y) (fun q => Ok (fdouble q)).
Proof.
  intros Htop Hrange. destruct Hx as [Hmx _], Hy as [Hmy _].
  pose proof (ilog2_ratio_quotient (Zpos mx) (Zpos my) (proj1 Hmx) ltac:(lia)) as Hl.
  unfold x, y, fdiv, obind. f_equal.
  replace (ex + 1 - ey) with (ex - ey + 1) by lia.
  replace (ey - (ex + 1)) with (- (ex - ey + 1)) by lia.
  replace (ey - ex) with (- (ex - ey)) by lia.
  apply round_val_succ; lia.
Qed.

(** One step of a computation run on [x] and on twice [x]. *)
Lemma fmul_double_step :
  ex < etop -> emin <= ex + ey + (prec - 1) ->
  fmul (S754_finite sx mx (ex + 1)) y <> S754_infinity (xorb sx sy) ->
  exists m e,
    fmul x y = S754_finite (xorb sx sy) m e /\
    normal (S754_finite (xorb sx sy) m e) /\
    ex + ey + (prec - 1) <= e < etop /\
    fmul (S754_finite sx mx (ex + 1)) y = S754_finite (xorb sx sy) m (e + 1).
Proof.
  intros Htop Hrange. rewrite fmul_fdouble_l by assumption.
  destruct (fmul_normal Hrange) as [E | (m & e & E & Hn & He)];
    rewrite E; cbn [fdouble pack]; [congruence |].
  destruct (Z.leb_spec (e + 1) etop) as [Le | Le]; [| congruence].
  intros _. exists m, e. repeat split; try apply Hn; auto; lia.
Qed.

Lemma fdiv_double_step (q2 : float) :
  ex < etop -> emin + (prec - 1) <= ex - ey - 1 ->
  fdiv (S754_finite sx mx (ex + 1)) y = Ok q2 ->
  q2 <> S754_infinity (xorb sx sy) ->
  exists m e,
    fdiv x y = Ok (S754_finite (xorb sx sy) m e) /\
    normal (S754_finite (xorb sx sy) m e) /\
    ex - ey - prec <= e <= ex - ey - prec + 2 /\ e < etop /\
    q2 = S754_finite (xorb sx sy) m (e + 1).
Proof.
  intros Htop Hrange. rewrite fdiv_fdouble_l by assumption.
  destruct (fdiv_normal Hrange) as (q & -> & [-> | (m & e & -> & Hn & He)]);
    cbn [obind fdouble pack]; [congruence |].
  destruct (Z.leb_spec (e + 1) etop) as [Le | Le]; [| congruence].
  intros [= <-] _. exists m, e. repeat split; try apply Hn; auto; lia.
Qed.

(** Multiplying by [2.0] and dividing by [2.0] are exact. *)
Lemma fmul_two_r : fmul x two = fdouble x.
Proof.
  destruct Hx as [Hmx Hex].
  unfold x. change two with (S754_finite false 4503599627370496 (-51)).
  unfold fmul, fdouble. rewrite Bool.xorb_false_r.
  rewrite <- round_pos_exact by (unfold emin in *; lia).
  apply round_pos_ratio; try (apply shl_pos; lia).
  pose proof (shl_transfer (Zpos mx) (ex + -51) 52 ltac:(lia)) as T.
  replace (ex + -51 + 52) with (ex + 1) in T by lia.
  rewrite (Z.mul_comm (Zpos mx)), shl_mul.
  change (2 ^ 52) with 4503599627370496 in T. lia.
Qed.

Lemma fmul_two_l : fmul two x = fdouble x.
Proof.
  rewrite <- fmul_two_r.
  unfold x. change two with (S754_finite false 4503599627370496 (-51)).
  unfold fmul. rewrite Bool.xorb_false_r. cbn [xorb].
  f_equal; f_equal; lia.
Qed.

Lemma fdiv_two : emin < ex -> fdiv x two = Ok (fhalf x).
Proof.
  intros Hlow. destruct Hx as [Hmx Hex].
  unfold x. change two with (S754_finite false 4503599627370496 (-51)).
  unfold fdiv, fhalf. rewrite Bool.xorb_false_r. f_equal.
  replace (S754_finite sx mx (ex - 1)) with (pack sx (Zpos mx) (ex - 1)).
  2:{ cbn [pack]. destruct (Z.leb_spec (ex - 1) etop); [reflexivity | lia]. }
  rewrite <- round_pos_exact by (unfold emin in *; lia).
  apply round_pos_ratio; try (apply shl_pos; lia).
  pose proof (shl_transfer (Zpos mx) (ex - 1) 52 ltac:(lia)) as T.
  replace (ex - 1 + 52) with (ex - -51) in T by lia.
  replace (- (ex - -51)) with (-51 - ex) in T by lia.
  change 4503599627370496 with (4503599627370496 * 1) at 1.
  rewrite shl_mul.
  change (2 ^ 52) with 4503599627370496 in T. lia.
Qed.

End NormalOperands.

(** *** Values *)

Lemma Qpower_2_succ (e : Z) : (Qpower (2 # 1) (e + 1) == 2 * Qpower (2 # 1) e)%Q.
Proof.
  rewrite Qpower_plus by discriminate.
  change (Qpower (2 # 1) 1) with (2 # 1)%Q. ring.
Qed.

Lemma F2Q_double (s : bool) (m : positive) (e : Z) :
  (F2Q (S754_finite s m (e + 1)) == 2 * F2Q (S754_finite s m e))%Q.
Proof. unfold F2Q. rewrite Qpower_2_succ. ring. Qed.

Lemma F2Q_half (s : bool) (m : positive) (e : Z) :
  (F2Q (S754_finite s m (e - 1)) == F2Q (S754_finite s m e) / 2)%Q.
Proof.
  pose proof (F2Q_double s m (e - 1)) as H.
  replace (e - 1 + 1) with e in H by lia.
  rewrite H. field.
Qed.

(** *** True division of integers *)

Lemma round_pos_infinity_sign (s s' : bool) (n d : Z) :
  round_pos s n d = S754_infinity s' -> s' = s.
Proof.
  unfold round_pos, normalize, pack.
  destruct (_ =? 2 ^ prec).
  - cbn. destruct (_ <=? etop); [discriminate | now intros [= <-]].
  - destruct (rnd_div _ _); try discriminate.
    destruct (_ <=? etop); [discriminate | now intros [= <-]].
Qed.

Lemma round_pos_not_nan (s : bool) (n d : Z) :
  0 < n -> 0 < d -> round_pos s n d <> S754_nan.
Proof.
  intros Hn Hd. unfold round_pos.
  set (e := Z.max _ emin).
  assert (Hm : 0 <= rnd_div (shl n (- e)) (shl d e)).
  { pose proof (shl_pos n (- e) Hn). pose proof (shl_pos d e Hd).
    apply (rnd_div_bounds _ _ 0 (shl n (- e) + 1)); nia. }
  unfold normalize, pack.
  destruct (_ =? 2 ^ prec).
  - cbn. now destruct (_ <=? etop).
  - destruct (rnd_div _ _); try lia; try discriminate.
    now destruct (_ <=? etop).
Qed.

Lemma rnd_div_zero_double (a b : Z) :
  0 <= a -> 0 < b -> rnd_div a b = 0 -> rnd_div a (2 * b) = 0.
Proof.
  intros Ha Hb H.
  pose proof (Z.div_mod a b ltac:(lia)) as Hdm.
  pose proof (Z.mod_pos_bound a b Hb) as Hr.
  assert (Hq : 0 <= a / b) by (apply Z.div_pos; lia).
  assert (H2 : 2 * a <= b).
  { unfold rnd_div in H.
    destruct (Z.compare_spec (2 * (a mod b)) b) as [E | L | G];
      try destruct (Z.even (a / b)); nia. }
  unfold rnd_div.
  rewrite Z.div_small, Z.mod_small by lia.
  destruct (Z.compare_spec (2 * a) (2 * b)); lia.
Qed.

Lemma ilog2_ratio_double_den (n d : Z) :
  0 < n -> 0 < d -> ilog2_ratio n (2 * d) = ilog2_ratio n d - 1.
Proof.
  intros Hn Hd.
  pose proof (ilog2_ratio_double n (2 * d) Hn ltac:(lia)) as H.
  rewrite ilog2_ratio_scale in H by lia. lia.
Qed.

(** A quotient that rounds to zero still does with twice the divisor. *)
Lemma round_pos_zero_half (s s' : bool) (n d : Z) :
  0 < n -> 0 < d ->
  round_pos s n d = S754_zero s' -> round_pos s n (2 * d) = S754_zero s'.
Proof.
  intros Hn Hd H.
  assert (Hfl : ilog2_ratio n d - (prec - 1) < emin).
  { destruct (Z_lt_le_dec (ilog2_ratio n d - (prec - 1)) emin) as [L | G]; auto.
    destruct (round_pos_normal s n d Hn Hd) as [E | (m & e & E & _)];
      try lia; rewrite E in H; discriminate. }
  unfold round_pos in *.
  rewrite ilog2_ratio_double_den by assumption.
  replace (Z.max (ilog2_ratio n d - 1 - (prec - 1)) emin) with emin by lia.
  replace (Z.max (ilog2_ratio n d - (prec - 1)) emin) with emin in H by lia.
  rewrite (shl_neg (2 * d) emin) by (unfold emin; lia).
  rewrite (shl_neg d emin) in H by (unfold emin; lia).
  set (m := rnd_div (shl n (- emin)) d) in *.
  assert (Hm : m = 0 /\ s' = s).
  { unfold normalize, pack in H.
    destruct (m =? 2 ^ prec).
    - cbn in H. discriminate.
    - destruct m; try discriminate.
      now injection H as <-. }
  destruct Hm as [Hm ->]. unfold m in Hm.
  rewrite rnd_div_zero_double; auto.
  pose proof (shl_pos n (- emin) Hn). lia.
Qed.

(** Halving a quotient that is far from underflow. *)
Lemma round_pos_half (s s' : bool) (n d : Z) (m : positive) (e : Z) :
  0 < n -> 0 < d ->
  round_pos s n d = S754_finite s' m e -> emin + 1 < e ->
  round_pos s n (2 * d) = S754_finite s' m (e - 1) /\
  normal (S754_finite s' m e).
Proof.
  intros Hn Hd H He.
  destruct (round_pos_exponent _ _ _ _ _ _ H) as [-> He0].
  assert (Hfl : emin + (prec - 1) + 1 <= ilog2_ratio n d) by lia.
  assert (Hx : normal (S754_finite s m e)).
  { destruct (round_pos_normal s n d Hn Hd) as [E | (m' & e' & E & Hnorm & _)];
      try lia; rewrite E in H; [discriminate |].
    now injection H as <- <-. }
  split; [| exact Hx].
  pose proof (round_pos_double s n (2 * d) Hn ltac:(lia)) as D.
  rewrite ilog2_ratio_double_den in D by assumption.
  specialize (D ltac:(lia)).
  rewrite round_pos_scale in D by lia. rewrite H in D.
  destruct (round_pos_normal s n (2 * d) Hn ltac:(lia))
    as [E | (m' & e' & E & Hnorm & _)].
  - rewrite ilog2_ratio_double_den by assumption. lia.
  - rewrite E in D. discriminate.
  - rewrite E in *. cbn [fdouble pack] in D.
    destruct (_ <=? etop) in D; [| discriminate].
    injection D as -> ->. f_equal. lia.
Qed.

Lemma int_truediv_double_den (a b : Z) (x : float) :
  b <> 0 -> int_truediv a b = Ok x -> far_from_underflow x ->
  int_truediv a (2 * b) = Ok (fhalf x) /\
  (is_zero x = true \/ normal x).
Proof.
  intros Hb H Hfar. unfold int_truediv in *.
  destruct (Z.eqb_spec b 0) as [E | _]; [contradiction |].
  destruct (Z.eqb_spec (2 * b) 0) as [E | _]; [lia |].
  replace (2 * b <? 0) with (b <? 0)
    by (destruct (Z.ltb_spec b 0), (Z.ltb_spec (2 * b) 0); auto; lia).
  replace (Z.abs (2 * b)) with (2 * Z.abs b) by lia.
  set (s := xorb (a <? 0) (b <? 0)) in *.
  unfold round_ratio in *.
  destruct (Z.eqb_spec (Z.abs a) 0) as [E | Ha].
  - injection H as <-. cbn. auto.
  - assert (Hn : 0 < Z.abs a) by lia. assert (Hd : 0 < Z.abs b) by lia.
    destruct (round_pos s (Z.abs a) (Z.abs b)) as [s' | s' | | s' m e] eqn:R;
      try discriminate; injection H as <-; cbn in Hfar; try contradiction.
    + rewrite (round_pos_zero_half _ _ _ _ Hn Hd R). cbn. auto.
    + destruct (round_pos_half _ _ _ _ _ _ Hn Hd R Hfar) as [-> Hnorm].
      cbn. auto.
Qed.

(** [a / b] overflows exactly from [(2^1024 - 2^970) * |b|] upwards. *)
Lemma int_truediv_returns (a b : Z) :
  b <> 0 ->
  (Z.abs a < (2 ^ emax - 2 ^ (etop - 1)) * Z.abs b ->
   exists x, int_truediv a b = Ok x /\ is_finite x = true) /\
  ((2 ^ emax - 2 ^ (etop - 1)) * Z.abs b <= Z.abs a ->
   int_truediv a b = Raise OverflowError).
Proof.
  intros Hb. unfold int_truediv.
  destruct (Z.eqb_spec b 0) as [E | _]; [contradiction |].
  set (s := xorb (a <? 0) (b <? 0)).
  assert (P : 0 < 2 ^ emax - 2 ^ (etop - 1)) by reflexivity.
  unfold round_ratio.
  destruct (Z.eqb_spec (Z.abs a) 0) as [E | Ha].
  - split; [eauto | intros H; nia].
  - assert (Hn : 0 < Z.abs a) by lia. assert (Hd : 0 < Z.abs b) by lia.
    pose proof (round_pos_overflow s _ _ Hn Hd) as Ho.
    pose proof (round_pos_not_nan s _ _ Hn Hd) as Hnan.
    destruct (round_pos s (Z.abs a) (Z.abs b)) as [s' | s' | | s' m e] eqn:R;
      try contradiction.
    + split; [eauto | intros H; apply Ho in H; discriminate].
    + pose proof (round_pos_infinity_sign _ _ _ _ R) as ->.
      split; [intros H; pose proof (proj1 Ho eq_refl); lia | reflexivity].
    + split; [eauto | intros H; apply Ho in H; discriminate].
Qed.

End Binary64Facts.

Import Binary64Facts.

(** ** The estimators as expressions *)

Lemma translation_estimates_run (words_per_day : Z) (w : World) :
  translation_estimates words_per_day w = (translation_value words_per_day, w).
Proof.
  unfold translation_estimates, translation_value, bind, expr, ret, obind.
  destruct (int_truediv _ _) as [gh |]; [| reflexivity].
  destruct (fmul_int gh 3600) as [s |]; [| reflexivity].
  destruct (fmul_int s GPU_TFLOPS); reflexivity.
Qed.

Lemma translation_doc_time_run (words num_gpus : Z) (w : World) :
  translation_doc_time words num_gpus w = (doc_time_value words num_gpus, w).
Proof.
  unfold translation_doc_time, doc_time_value, bind, expr, ret.
  destruct (int_truediv _ _); reflexivity.
Qed.

Lemma llm_chat_estimates_run (users_per_day : Z) (w : World) :
  llm_chat_estimates users_per_day w = (chat_value users_per_day, w).
Proof.
  unfold llm_chat_estimates, chat_value, bind, expr, ret, obind.
  destruct (int_mul_f _ FLOPS_PER_TOKEN) as [fd |]; [| reflexivity].
  destruct (int_mul_f GPU_TFLOPS _) as [fs |]; [| reflexivity].
  destruct (fdiv fd fs) as [gs |]; [| reflexivity].
  destruct (fdiv_int gs 3600) as [gh |]; [| reflexivity].
  destruct (fmul_int gh 3600) as [s |]; [| reflexivity].
  destruct (fmul_int s GPU_TFLOPS); reflexivity.
Qed.

Lemma translation_result (words_per_day : Z) (w : World) :
  result (translation_estimates words_per_day) w = translation_value words_per_day.
Proof. unfold result. now rewrite translation_estimates_run. Qed.

Lemma doc_time_result (words num_gpus : Z) (w : World) :
  result (translation_doc_time words num_gpus) w = doc_time_value words num_gpus.
Proof. unfold result. now rewrite translation_doc_time_run. Qed.

Lemma chat_result (users_per_day : Z) (w : World) :
  result (llm_chat_estimates users_per_day) w = chat_value users_per_day.
Proof. unfold result. now rewrite llm_chat_estimates_run. Qed.

(** The conversions of the integer constants. *)
Lemma of_int_3600 : of_int 3600 = Ok (literal 3600 0).
Proof. reflexivity. Qed.

Lemma of_int_GPU_TFLOPS : of_int GPU_TFLOPS = Ok (literal 90 0).
Proof. reflexivity. Qed.

(** ** Cost and total operations *)

(** C1. Whenever [translation_estimates] or [llm_chat_estimates] returns,
    the cost it returns is the binary64 product of the resource-hours it
    returns and the hourly cost [2.0]: [cost == gpu_hours * GPU_HOURLY_COST]. *)
Theorem cost_is_hours_times_hourly_cost (w : World) :
  (forall words gpu_hours total_tflops cost,
      result (translation_estimates words) w = Ok (gpu_hours, total_tflops, cost) ->
      cost = fmul gpu_hours GPU_HOURLY_COST) /\
  (forall users tokens gpu_hours total_tflops cost,
      result (llm_chat_estimates users) w = Ok (tokens, gpu_hours, total_tflops, cost) ->
      cost = fmul gpu_hours GPU_HOURLY_COST).
Proof.
  split.
  - intros words gh tf c. rewrite translation_result. unfold translation_value.
    destruct (int_truediv _ _) as [gh0 |]; cbn [obind]; [| discriminate].
    destruct (fmul_int gh0 3600) as [s |]; cbn [obind]; [| discriminate].
    destruct (fmul_int s GPU_TFLOPS); cbn [obind]; [| discriminate].
    now intros [= <- _ <-].
  - intros users t gh tf c. rewrite chat_result. unfold chat_value. cbv zeta.
    destruct (int_mul_f _ FLOPS_PER_TOKEN) as [fd |]; cbn [obind]; [| discriminate].
    destruct (int_mul_f GPU_TFLOPS _) as [fs |]; cbn [obind]; [| discriminate].
    destruct (fdiv fd fs) as [gs |]; cbn [obind]; [| discriminate].
    destruct (fdiv_int gs 3600) as [gh0 |]; cbn [obind]; [| discriminate].
    destruct (fmul_int gh0 3600) as [s |]; cbn [obind]; [| discriminate].
    destruct (fmul_int s GPU_TFLOPS); cbn [obind]; [| discriminate].
    now intros [= _ <- _ <-].
Qed.

Lemma cost_is_hours_times_hourly_cost_witness :
  result (translation_estimates 100000) start
  = Ok (S754_finite false 7505999378950827 (-52),
        S754_finite false 4638564679680000 (-33),
        S754_finite false 7505999378950827 (-51)) /\
  S754_finite false 7505999378950827 (-51)
  = fmul (S754_finite false 7505999378950827 (-52)) GPU_HOURLY_COST.
Proof.
  split; [vm_compute; reflexivity |].
  apply (proj1 (cost_is_hours_times_hourly_cost start) 100000 _
           (S754_finite false 4638564679680000 (-33))).
  vm_compute. reflexivity.
Defined.

(** The product with [2.0] is exact: the cost is twice the resource-hours
    as a number too, short of overflow. *)
Lemma cost_value_is_twice_hours (s : bool) (m : positive) (e : Z) :
  normal (S754_finite s m e) -> e < etop ->
  (F2Q (fmul (S754_finite s m e) GPU_HOURLY_COST) == 2 * F2Q (S754_finite s m e))%Q.
Proof.
  intros Hn He. change GPU_HOURLY_COST with two.
  rewrite (fmul_two_r _ _ _ Hn). cbn [fdouble pack].
  destruct (Z.leb_spec (e + 1) etop) as [_ | L]; [| lia].
  apply F2Q_double.
Qed.

(** C2. Whenever an estimator returns, the total operations it returns
    are what [gpu_hours * 3600 * GPU_TFLOPS] evaluates to on the
    resource-hours it returns: two binary64 products, left to right. *)
Theorem total_is_hours_times_3600_times_peak (w : World) :
  (forall words gpu_hours total_tflops cost,
      result (translation_estimates words) w = Ok (gpu_hours, total_tflops, cost) ->
      obind (fmul_int gpu_hours 3600) (fun seconds => fmul_int seconds GPU_TFLOPS)
      = Ok total_tflops /\
      total_tflops = fmul (fmul gpu_hours (literal 3600 0)) (literal 90 0)) /\
  (forall users tokens gpu_hours total_tflops cost,
      result (llm_chat_estimates users) w = Ok (tokens, gpu_hours, total_tflops, cost) ->
      obind (fmul_int gpu_hours 3600) (fun seconds => fmul_int seconds GPU_TFLOPS)
      = Ok total_tflops /\
      total_tflops = fmul (fmul gpu_hours (literal 3600 0)) (literal 90 0)).
Proof.
  assert (E : forall x, obind (fmul_int x 3600) (fun s => fmul_int s GPU_TFLOPS)
                        = Ok (fmul (fmul x (literal 3600 0)) (literal 90 0))).
  { intros x. unfold fmul_int. rewrite of_int_3600, of_int_GPU_TFLOPS. reflexivity. }
  split.
  - intros words gh tf c. rewrite translation_result. unfold translation_value.
    destruct (int_truediv _ _) as [gh0 |]; cbn [obind]; [| discriminate].
    unfold fmul_int. rewrite of_int_3600, of_int_GPU_TFLOPS. cbn [obind].
    intros [= <- <- _]. split; reflexivity.
  - intros users t gh tf c. rewrite chat_result. unfold chat_value. cbv zeta.
    destruct (int_mul_f _ FLOPS_PER_TOKEN) as [fd |]; cbn [obind]; [| discriminate].
    destruct (int_mul_f GPU_TFLOPS _) as [fs |]; cbn [obind]; [| discriminate].
    destruct (fdiv fd fs) as [gs |]; cbn [obind]; [| discriminate].
    destruct (fdiv_int gs 3600) as [gh0 |]; cbn [obind]; [| discriminate].
    unfold fmul_int. rewrite of_int_3600, of_int_GPU_TFLOPS. cbn [obind].
    intros [= _ <- <- _]. split; reflexivity.
Qed.

Lemma total_is_hours_times_3600_times_peak_witness :
  result (llm_chat_estimates 100) start
  = Ok (300000,
        S754_finite false 6938879425874542 (-58),
        S754_finite false 8576190696652800 (-40),
        S754_finite false 6938879425874542 (-57)) /\
  S754_finite false 8576190696652800 (-40)
  = fmul (fmul (S754_finite false 6938879425874542 (-58)) (literal 3600 0))
      (literal 90 0).
Proof.
  split; [vm_compute; reflexivity |].
  apply (proj2 (total_is_hours_times_3600_times_peak start) 100 300000 _ _
           (S754_finite false 6938879425874542 (-57))).
  vm_compute. reflexivity.
Defined.

(** ** Reference values *)

(** C5. [translation_estimates(60000)] returns [(1.0, 324000.0, 2.0)]. *)
Theorem translation_estimates_one_hour (w : World) :
  result (translation_estimates 60000) w
  = Ok (literal 1 0, literal 324000 0, literal 2 0) /\
  (F2Q (literal 1 0) == 1)%Q /\
  (F2Q (literal 324000 0) == inject_Z (3600 * 90))%Q /\
  (F2Q (literal 2 0) == 2)%Q.
Proof.
  rewrite translation_result. repeat split; vm_compute; reflexivity.
Qed.

(** ** Division by zero *)

(** C10. [translation_doc_time(words, num_gpus=0)] raises
    [ZeroDivisionError] for every word count: the divisor
    [WORDS_PER_MIN_TRANSLATION * num_gpus] is zero. *)
Theorem translation_doc_time_zero_gpus (words : Z) (w : World) :
  result (translation_doc_time words 0) w = Raise ZeroDivisionError.
Proof. rewrite doc_time_result. reflexivity. Qed.

(** ** Determinism *)

Module ScriptFacts.

Import Script.

Local Open Scope run_scope.

Lemma same_constants_refl (s : Process) : same_constants s s.
Proof. intros x _. reflexivity. Qed.

Lemma pure_ret {A : Type} (a : A) : pure (ret a).
Proof. intros s1 s2 _. split; reflexivity. Qed.

Lemma pure_eval {A : Type} (a : answer A) : pure (eval a).
Proof. intros s1 s2 _. split; reflexivity. Qed.

Lemma pure_load_global (x : string) : In x constants -> pure (load_global x).
Proof.
  intros Hx s1 s2 H. unfold result, after, load_global.
  rewrite (H x Hx). destruct (globals s2 x); split; reflexivity.
Qed.

Lemma pure_bind {A B : Type} (c : Run A) (k : A -> Run B) :
  pure c -> (forall a, pure (k a)) -> pure (bind c k).
Proof.
  intros Hc Hk s1 s2 H.
  destruct (Hc s1 s2 H) as [R1 A1].
  destruct (Hc s2 s2 (same_constants_refl s2)) as [_ A2].
  unfold result, after, bind in *.
  destruct (c s1) as [r1 t1], (c s2) as [r2 t2]. cbn [fst snd] in *. subst.
  destruct r2 as [a | e]; [| split; reflexivity].
  exact (Hk a s1 s2 H).
Qed.

Ltac pure_body :=
  repeat first
    [ apply pure_ret
    | apply pure_eval
    | apply pure_load_global; cbn [In constants]; tauto
    | apply pure_bind; [| intros ?] ].

Lemma translation_estimates_pure (n : Z) : pure (translation_estimates n).
Proof. unfold translation_estimates. pure_body. Qed.

Lemma translation_doc_time_pure (n g : Z) : pure (translation_doc_time n g).
Proof. unfold translation_doc_time. pure_body. Qed.

Lemma llm_chat_estimates_pure (n : Z) : pure (llm_chat_estimates n).
Proof. unfold llm_chat_estimates. pure_body. Qed.

(** A second run of pure code returns what the first one did. *)
Lemma pure_twice {A : Type} (c : Run A) :
  pure c ->
  forall s, result (x <- c ;; y <- c ;; ret (x, y)) s
            = result (x <- c ;; ret (x, x)) s.
Proof.
  intros Hc s. destruct (Hc s s (same_constants_refl s)) as [_ E].
  unfold result, after, bind, ret in *.
  destruct (c s) as [r t] eqn:C. cbn [snd] in E. subst t.
  destruct r as [a | e]; [| reflexivity]. rewrite C. reflexivity.
Qed.

(** What the assignments of the module leave in the namespace. *)
Lemma module_constants_bound (s0 : Process) :
  let s := after module_constants s0 in
  globals s "GPU_TFLOPS" = Some (VInt GPU_TFLOPS) /\
  globals s "GPU_HOURLY_COST" = Some (VFloat GPU_HOURLY_COST) /\
  globals s "WORDS_PER_MIN_TRANSLATION" = Some (VInt WORDS_PER_MIN_TRANSLATION) /\
  globals s "WORDS_PER_HOUR_TRANSLATION" = Some (VInt WORDS_PER_HOUR_TRANSLATION) /\
  globals s "FLOPS_PER_TOKEN" = Some (VFloat FLOPS_PER_TOKEN) /\
  globals s "TOKENS_PER_USER_PER_DAY" = Some (VInt TOKENS_PER_USER_PER_DAY).
Proof. cbv zeta. repeat split; vm_compute; reflexivity. Qed.

Lemma of_outcome_obind {A B C : Type} (f : B -> C) (o : outcome A)
    (k : A -> outcome B) :
  of_outcome f (obind o k)
  = match o with
    | Ok a => of_outcome f (k a)
    | Raise e => Fail (Arith e)
    end.
Proof. destruct o; reflexivity. Qed.

Lemma bind_load_global {B : Type} (x : string) (v : value) (k : value -> Run B)
    (s : Process) :
  globals s x = Some v -> bind (load_global x) k s = k v s.
Proof. intros H. unfold bind, load_global. rewrite H. reflexivity. Qed.

Lemma bind_eval_return {A B : Type} (a : A) (k : A -> Run B) (s : Process) :
  bind (eval (Return a)) k s = k a s.
Proof. reflexivity. Qed.

Lemma bind_eval_fail {A B : Type} (r : raised) (k : A -> Run B) (s : Process) :
  bind (eval (Fail r)) k s = (Fail r, s).
Proof. reflexivity. Qed.

(** With the constants of the module the estimators in the interpreter
    return what the estimators on the constants return. *)
Lemma translation_estimates_loaded (n : Z) (s0 : Process) :
  result (translation_estimates n) (after module_constants s0)
  = of_outcome floats3 (translation_value n).
Proof.
  destruct (module_constants_bound s0) as (Hp & Hc & _ & Hh & _). cbv zeta in *.
  set (s := after module_constants s0) in *.
  unfold result, translation_estimates, translation_value.
  rewrite (bind_load_global _ _ _ _ Hh). cbn [truediv].
  destruct (int_truediv n WORDS_PER_HOUR_TRANSLATION) as [h | e];
    cbn [of_outcome obind]; [| reflexivity].
  rewrite bind_eval_return. cbn [mul]. unfold fmul_int.
  rewrite of_int_3600, of_int_GPU_TFLOPS. cbn [obind of_outcome].
  rewrite bind_eval_return, (bind_load_global _ _ _ _ Hp). cbn [mul].
  unfold fmul_int. rewrite of_int_GPU_TFLOPS. cbn [obind of_outcome].
  rewrite bind_eval_return, (bind_load_global _ _ _ _ Hc). reflexivity.
Qed.

Lemma translation_doc_time_loaded (n g : Z) (s0 : Process) :
  result (translation_doc_time n g) (after module_constants s0)
  = of_outcome VFloat (doc_time_value n g).
Proof.
  destruct (module_constants_bound s0) as (_ & _ & Hm & _). cbv zeta in *.
  set (s := after module_constants s0) in *.
  unfold result, translation_doc_time, doc_time_value.
  rewrite (bind_load_global _ _ _ _ Hm). cbn [mul].
  rewrite bind_eval_return. cbn [truediv].
  destruct (int_truediv n (WORDS_PER_MIN_TRANSLATION * g)); reflexivity.
Qed.

Lemma llm_chat_estimates_loaded (n : Z) (s0 : Process) :
  result (llm_chat_estimates n) (after module_constants s0)
  = of_outcome int_floats3 (chat_value n).
Proof.
  destruct (module_constants_bound s0) as (Hp & Hc & _ & _ & Hf & Ht).
  cbv zeta in *. set (s := after module_constants s0) in *.
  unfold result, llm_chat_estimates, chat_value. cbv zeta.
  rewrite (bind_load_global _ _ _ _ Ht). cbn [mul].
  rewrite bind_eval_return, (bind_load_global _ _ _ _ Hf). cbn [mul].
  destruct (int_mul_f (n * TOKENS_PER_USER_PER_DAY) FLOPS_PER_TOKEN) as [fd | e];
    cbn [of_outcome obind]; [| reflexivity].
  rewrite bind_eval_return, (bind_load_global _ _ _ _ Hp). cbn [mul].
  assert (E : int_mul_f GPU_TFLOPS (literal 1 12)
              = Ok (S754_finite false 5760000000000000 (-6))) by reflexivity.
  rewrite E. cbn [of_outcome obind].
  rewrite bind_eval_return. cbn [truediv].
  destruct (fdiv fd _) as [gs | e]; cbn [of_outcome obind]; [| reflexivity].
  rewrite bind_eval_return. cbn [truediv].
  destruct (fdiv_int gs 3600) as [gh | e]; cbn [of_outcome obind]; [| reflexivity].
  rewrite bind_eval_return. cbn [mul]. unfold fmul_int.
  rewrite of_int_3600, of_int_GPU_TFLOPS. cbn [obind of_outcome].
  rewrite bind_eval_return, (bind_load_global _ _ _ _ Hp). cbn [mul].
  unfold fmul_int. rewrite of_int_GPU_TFLOPS. cbn [obind of_outcome].
  rewrite bind_eval_return, (bind_load_global _ _ _ _ Hc). reflexivity.
Qed.

(** The notion of purity tells code apart: reading the clock, or
    rebinding a constant, is not pure, and the estimators do read the
    constants. *)
Lemma reading_the_clock_is_not_pure :
  ~ pure (fun s => (Return (VInt (clock s)), s)).
Proof.
  intros H. destruct (H (fresh 0) (fresh 1)) as [E _].
  - intros x _. reflexivity.
  - discriminate E.
Qed.

Lemma rebinding_a_constant_is_not_pure :
  ~ pure (store_global "GPU_TFLOPS" (VInt 100)).
Proof.
  intros H. destruct (H (fresh 0) (fresh 0) (same_constants_refl _)) as [_ E].
  apply (f_equal (fun s => globals s "GPU_TFLOPS")) in E. discriminate E.
Qed.

Lemma the_constants_are_inputs :
  result (translation_estimates 60000)
    (after (store_global "GPU_TFLOPS" (VInt 100))
       (after module_constants (fresh 0)))
  <> result (translation_estimates 60000) (after module_constants (fresh 0)).
Proof. vm_compute. discriminate. Qed.

End ScriptFacts.

(** C7. The three estimators are deterministic pure functions of their
    arguments and the module constants.  Take any two states of the
    interpreter in which the constants are bound to the same values:
    two moments of one run, before and after other code, or two
    processes with different clocks, outputs, environments and other
    globals.  Each estimator returns the same tuple, or raises the same
    exception, in both; it leaves the whole state as it found it; and a
    second run right after the first returns the same again.  After the
    assignments of the module the results are those of the estimators
    on the constants, which the other theorems are about. *)
Theorem estimators_are_pure (n g : Z) (s1 s2 : Script.Process) :
  Script.same_constants s1 s2 ->
  (Script.result (Script.translation_estimates n) s1
   = Script.result (Script.translation_estimates n) s2 /\
   Script.result (Script.translation_doc_time n g) s1
   = Script.result (Script.translation_doc_time n g) s2 /\
   Script.result (Script.llm_chat_estimates n) s1
   = Script.result (Script.llm_chat_estimates n) s2) /\
  (Script.after (Script.translation_estimates n) s1 = s1 /\
   Script.after (Script.translation_doc_time n g) s1 = s1 /\
   Script.after (Script.llm_chat_estimates n) s1 = s1) /\
  (Script.result
     (Script.bind (Script.translation_estimates n) (fun x =>
      Script.bind (Script.translation_estimates n) (fun y => Script.ret (x, y)))) s1
   = Script.result
       (Script.bind (Script.translation_estimates n) (fun x => Script.ret (x, x))) s1 /\
   Script.result
     (Script.bind (Script.translation_doc_time n g) (fun x =>
      Script.bind (Script.translation_doc_time n g) (fun y => Script.ret (x, y)))) s1
   = Script.result
       (Script.bind (Script.translation_doc_time n g) (fun x => Script.ret (x, x))) s1 /\
   Script.result
     (Script.bind (Script.llm_chat_estimates n) (fun x =>
      Script.bind (Script.llm_chat_estimates n) (fun y => Script.ret (x, y)))) s1
   = Script.result
       (Script.bind (Script.llm_chat_estimates n) (fun x => Script.ret (x, x))) s1) /\
  (forall (s0 : Script.Process) (w : World),
     Script.result (Script.translation_estimates n)
       (Script.after Script.module_constants s0)
     = Script.of_outcome Script.floats3 (result (translation_estimates n) w) /\
     Script.result (Script.translation_doc_time n g)
       (Script.after Script.module_constants s0)
     = Script.of_outcome Script.VFloat (result (translation_doc_time n g) w) /\
     Script.result (Script.llm_chat_estimates n)
       (Script.after Script.module_constants s0)
     = Script.of_outcome Script.int_floats3 (result (llm_chat_estimates n) w)).
Proof.
  intros H.
  destruct (ScriptFacts.translation_estimates_pure n s1 s2 H) as [R1 A1].
  destruct (ScriptFacts.translation_doc_time_pure n g s1 s2 H) as [R2 A2].
  destruct (ScriptFacts.llm_chat_estimates_pure n s1 s2 H) as [R3 A3].
  split; [exact (conj R1 (conj R2 R3)) |].
  split; [exact (conj A1 (conj A2 A3)) |].
  split.
  - split; [| split]; apply ScriptFacts.pure_twice.
    + apply ScriptFacts.translation_estimates_pure.
    + apply ScriptFacts.translation_doc_time_pure.
    + apply ScriptFacts.llm_chat_estimates_pure.
  - intros s0 w.
    rewrite translation_result, doc_time_result, chat_result.
    split; [apply ScriptFacts.translation_estimates_loaded |].
    split; [apply ScriptFacts.translation_doc_time_loaded |].
    apply ScriptFacts.llm_chat_estimates_loaded.
Qed.

Lemma estimators_are_pure_witness :
  Script.same_constants
    (Script.after Script.module_constants (Script.fresh 0))
    (Script.after (Script.store_global "SCRATCH" (Script.VInt 7))
       (Script.after Script.module_constants (Script.fresh 86400))) /\
  (Script.result (Script.translation_estimates 100000)
     (Script.after Script.module_constants (Script.fresh 0))
   = Script.result (Script.translation_estimates 100000)
       (Script.after (Script.store_global "SCRATCH" (Script.VInt 7))
          (Script.after Script.module_constants (Script.fresh 86400))) /\
   Script.result (Script.translation_doc_time 100000 2)
     (Script.after Script.module_constants (Script.fresh 0))
   = Script.result (Script.translation_doc_time 100000 2)
       (Script.after (Script.store_global "SCRATCH" (Script.VInt 7))
          (Script.after Script.module_constants (Script.fresh 86400))) /\
   Script.result (Script.llm_chat_estimates 100000)
     (Script.after Script.module_constants (Script.fresh 0))
   = Script.result (Script.llm_chat_estimates 100000)
       (Script.after (Script.store_global "SCRATCH" (Script.VInt 7))
          (Script.after Script.module_constants (Script.fresh 86400)))).
Proof.
  assert (H : Script.same_constants
                (Script.after Script.module_constants (Script.fresh 0))
                (Script.after (Script.store_global "SCRATCH" (Script.VInt 7))
                   (Script.after Script.module_constants (Script.fresh 86400)))).
  { intros x Hx. cbn [In Script.constants] in Hx.
    destruct Hx as [<- | [<- | [<- | [<- | [<- | [<- | []]]]]]];
      vm_compute; reflexivity. }
  split; [exact H |].
  exact (proj1 (estimators_are_pure 100000 2 _ _ H)).
Defined.

(** ** Formatting *)

Example fmt_fixed_samples :
  map (fmt_fixed 8 2)
    [ round_ratio false 1 8; round_ratio false 3 8; round_ratio false 2675 1000;
      round_ratio true 1 1000; round_ratio false 5 1000; round_ratio false 15 1000;
      round_ratio false 9995 1000; S754_zero true; S754_infinity true ]
  = [ "    0.12"; "    0.38"; "    2.67"; "   -0.00"; "    0.01"; "    0.01";
      "    9.99"; "   -0.00"; "    -inf" ]%string.
Proof. vm_compute. reflexivity. Qed.

Example float_repr_samples :
  map float_repr
    [ round_ratio false 1 10; literal 2 0; literal 1 22; round_ratio false 15 100000000;
      round_ratio false 1 3; literal 1 16; literal 1 15; round_ratio false 1 10000;
      round_ratio false 1 100000; S754_finite false 1 (-1074);
      S754_finite false 9007199254740991 971;
      S754_finite false 5798205849600001 (-30);
      round_ratio false 1 (2 ^ 24); round_ratio false (2 ^ 63) 1;
      round_ratio false (2 ^ 100) 1; round_ratio false 1 (2 ^ 1022);
      S754_finite false 5404319552844596 (-54); literal 1 23 ]
  = [ "0.1"; "2.0"; "1e+22"; "1.5e-07"; "0.3333333333333333"; "1e+16";
      "1000000000000000.0"; "0.0001"; "1e-05"; "5e-324";
      "1.7976931348623157e+308"; "5400000.000000001";
      "5.960464477539063e-08"; "9.223372036854776e+18";
      "1.2676506002282294e+30"; "2.2250738585072014e-308";
      "0.30000000000000004"; "1e+23" ]%string.
Proof. vm_compute. reflexivity. Qed.

Example fmt_int_comma_samples :
  map (fmt_int_comma 9) [0; 123; 1234; 1000000; -1234; 1234567890]
  = [ "        0"; "      123"; "    1,234"; "1,000,000"; "   -1,234";
      "1,234,567,890" ]%string.
Proof. vm_compute. reflexivity. Qed.

(** ** The reports *)

Section Report.

Import Reading.

Let out : string := stdout (after main start).

Lemma shows_float_check (nd : nat) (field : string) (x : float) :
  match parse_decimal field with
  | Some (k, nd') =>
      (Nat.eqb nd' nd && is_finite x &&
       Qle_bool (Qabs (inject_Z k / inject_Z (10 ^ Z.of_nat nd) - F2Q x))
         (1 / (2 * inject_Z (10 ^ Z.of_nat nd))))%bool
  | None => false
  end = true ->
  shows_float nd field x.
Proof.
  unfold shows_float. destruct (parse_decimal field) as [[k nd'] |]; [| discriminate].
  intros H. apply andb_true_iff in H as [H H3]. apply andb_true_iff in H as [H1 H2].
  apply Nat.eqb_eq in H1. apply Qle_bool_iff in H3. auto.
Qed.

Ltac row_value :=
  match goal with
  | |- context [translation_value ?n] =>
      let v := eval vm_compute in (translation_value n) in
      replace (translation_value n) with v by (vm_compute; reflexivity)
  | |- context [chat_value ?n] =>
      let v := eval vm_compute in (chat_value n) in
      replace (chat_value n) with v by (vm_compute; reflexivity)
  | |- context [doc_time_value ?n ?g] =>
      let v := eval vm_compute in (doc_time_value n g) in
      replace (doc_time_value n g) with v by (vm_compute; reflexivity)
  end.

(** C9. Printing both reports over the documented scenario lists ends
    without an exception.  The text holds two latency lines, three rows
    of the translation table and three rows of the chat table; every
    numeric field of them, read back as a decimal number, is the integer
    that was formatted, or lies within half a unit of its last displayed
    digit (two decimals, none for the total operations) of the float
    that the estimator returned for that scenario. *)
Theorem reports_show_the_estimates :
  result main start = Ok tt /\
  Forall2 (doc_time_ok 10000) [1; 2] (doc_time_lines out) /\
  Forall2 translation_row_ok [10000; 100000; 1000000] (rows_of_width 4 out) /\
  Forall2 chat_row_ok [100; 10000; 100000] (rows_of_width 5 out).
Proof.
  split; [vm_compute; reflexivity |].
  split; [| split].
  - let v := eval vm_compute in (doc_time_lines out) in
    replace (doc_time_lines out) with v by (vm_compute; reflexivity).
    refine (Forall2_cons _ _ _ (Forall2_cons _ _ _ (Forall2_nil _)));
      unfold doc_time_ok; rewrite doc_time_result; row_value;
      (split; [vm_compute; reflexivity |]);
      apply shows_float_check; vm_compute; reflexivity.
  - let v := eval vm_compute in (rows_of_width 4 out) in
    replace (rows_of_width 4 out) with v by (vm_compute; reflexivity).
    refine (Forall2_cons _ _ _ (Forall2_cons _ _ _
             (Forall2_cons _ _ _ (Forall2_nil _))));
      unfold translation_row_ok; rewrite translation_result; row_value;
      (split; [vm_compute; reflexivity |]);
      (split; [| split]); apply shows_float_check; vm_compute; reflexivity.
  - let v := eval vm_compute in (rows_of_width 5 out) in
    replace (rows_of_width 5 out) with v by (vm_compute; reflexivity).
    refine (Forall2_cons _ _ _ (Forall2_cons _ _ _
             (Forall2_cons _ _ _ (Forall2_nil _))));
      unfold chat_row_ok; rewrite chat_result; row_value;
      (split; [vm_compute; reflexivity |]);
      (split; [vm_compute; reflexivity |]);
      (split; [| split]); apply shows_float_check; vm_compute; reflexivity.
Qed.

(** The text of the two reports. *)
Lemma report_text :
  lines out =
  [ "================================================================================";
    "USE CASE 1: MACHINE TRANSLATION - CAPACITY & COST ESTIMATES";
    "Assumptions:";
    "  - 1 GPU can translate 1000 words/minute (60000 words/hour)";
    "  - GPU peak performance: 90 TFLOPs/s";
    "  - GPU hourly cost: $2.0/hour";
    "";
    "Time to translate a 10,000-word document on 1 GPU(s): 10.00 minutes";
    "Time to translate a 10,000-word document on 2 GPU(s): 5.00 minutes";
    "";
    "Daily translation load scenarios:";
    "Words/day | GPU-hours/day | Total TFLOPs used/day | Cost/day (USD)";
    "--------------------------------------------------------------------------------";
    "   10,000 |          0.17 |                 54000 | $      0.33";
    "  100,000 |          1.67 |                540000 | $      3.33";
    "1,000,000 |         16.67 |               5400000 | $     33.33";
    "";
    "================================================================================";
    "USE CASE 2: LLM CHAT - CAPACITY & COST ESTIMATES";
    "Assumptions:";
    "  - Model size: ~13B parameters";
    "  - FLOPs per token ≈ 2 × params ≈ 26 GFLOPs/token";
    "  - Avg tokens per user/day: 3000 tokens";
    "  - GPU peak performance: 90 TFLOPs/s";
    "  - GPU hourly cost: $2.0/hour";
    "";
    "Daily user load scenarios:";
    "Users/day | Tokens/day     | GPU-hours/day | Total TFLOPs used/day | Cost/day (USD)";
    "------------------------------------------------------------------------------------------";
    "      100 |       300,000 |          0.02 |                  7800 | $      0.05";
    "   10,000 |    30,000,000 |          2.41 |                780000 | $      4.81";
    "  100,000 |   300,000,000 |         24.07 |               7800000 | $     48.15";
    "";
    "" ]%string.
Proof. vm_compute. reflexivity. Qed.

End Report.

(** ** Totality of the translation estimate *)

(** C8, as stated, fails: a word count of [60000 * 2^1024] makes the
    true division overflow, and the call raises [OverflowError]. *)
Lemma translation_estimates_overflow :
  result (translation_estimates (60000 * 2 ^ 1024)) start = Raise OverflowError /\
  ~ (exists r, result (translation_estimates (60000 * 2 ^ 1024)) start = Ok r).
Proof.
  assert (E : result (translation_estimates (60000 * 2 ^ 1024)) start
              = Raise OverflowError) by (vm_compute; reflexivity).
  split; [exact E |]. intros [r Hr]. rewrite E in Hr. discriminate.
Qed.

(** C8, amended. [translation_estimates] never raises
    [ZeroDivisionError]: the divisor is the constant 60000.  It returns
    for every word count of magnitude below [60000 * (2^1024 - 2^970)],
    and raises [OverflowError] for every other one. *)
Theorem translation_estimates_returns (words : Z) (w : World) :
  result (translation_estimates words) w <> Raise ZeroDivisionError /\
  (Z.abs words < 60000 * (2 ^ 1024 - 2 ^ 970) ->
   exists r, result (translation_estimates words) w = Ok r) /\
  (60000 * (2 ^ 1024 - 2 ^ 970) <= Z.abs words ->
   result (translation_estimates words) w = Raise OverflowError).
Proof.
  rewrite translation_result. unfold translation_value.
  destruct (int_truediv_returns words WORDS_PER_HOUR_TRANSLATION ltac:(discriminate))
    as [Hok Hover].
  change (Z.abs WORDS_PER_HOUR_TRANSLATION) with 60000 in *.
  change emax with 1024 in *. change (etop - 1) with 970 in *.
  assert (Hcases : Z.abs words < 60000 * (2 ^ 1024 - 2 ^ 970) \/
                   60000 * (2 ^ 1024 - 2 ^ 970) <= Z.abs words) by lia.
  destruct Hcases as [Hlt | Hge].
  - destruct (Hok ltac:(lia)) as (x & -> & _). cbn [obind].
    unfold fmul_int. rewrite of_int_3600, of_int_GPU_TFLOPS. cbn [obind].
    split; [discriminate | split; [eauto | intros; lia]].
  - rewrite (Hover ltac:(lia)). cbn [obind].
    split; [discriminate | split; [intros; lia | reflexivity]].
Qed.

Lemma translation_estimates_returns_witness :
  Z.abs 1000000 < 60000 * (2 ^ 1024 - 2 ^ 970) /\
  exists r, result (translation_estimates 1000000) start = Ok r.
Proof.
  assert (H : Z.abs 1000000 < 60000 * (2 ^ 1024 - 2 ^ 970)) by reflexivity.
  split; [exact H |].
  exact (proj1 (proj2 (translation_estimates_returns 1000000 start)) H).
Defined.

(** ** Latency of one document *)

(** C4, as stated, fails near underflow: with [5 * 2^1074] resources a
    document of 13000 words takes [3 * 2^-1074] minutes, and with twice
    as many [2^-1074] minutes, which is not the half. *)
Lemma halving_fails_near_underflow :
  0 < 5 * 2 ^ 1074 /\
  result (translation_doc_time 13000 (5 * 2 ^ 1074)) start
  = Ok (S754_finite false 3 (-1074)) /\
  result (translation_doc_time 13000 (2 * (5 * 2 ^ 1074))) start
  = Ok (S754_finite false 1 (-1074)) /\
  fdiv (S754_finite false 3 (-1074)) two <> Ok (S754_finite false 1 (-1074)) /\
  ~ (F2Q (S754_finite false 1 (-1074)) == F2Q (S754_finite false 3 (-1074)) / 2)%Q /\
  ~ (exists minutes half,
       result (translation_doc_time 13000 (5 * 2 ^ 1074)) start = Ok minutes /\
       result (translation_doc_time 13000 (2 * (5 * 2 ^ 1074))) start = Ok half /\
       fdiv minutes two = Ok half).
Proof.
  split; [reflexivity |].
  split; [vm_compute; reflexivity |].
  split; [vm_compute; reflexivity |].
  split; [vm_compute; discriminate |].
  split; [vm_compute; discriminate |].
  intros (minutes & half & H1 & H2 & H3).
  assert (E1 : result (translation_doc_time 13000 (5 * 2 ^ 1074)) start
               = Ok (S754_finite false 3 (-1074))) by (vm_compute; reflexivity).
  assert (E2 : result (translation_doc_time 13000 (2 * (5 * 2 ^ 1074))) start
               = Ok (S754_finite false 1 (-1074))) by (vm_compute; reflexivity).
  rewrite E1 in H1. rewrite E2 in H2.
  injection H1 as <-. injection H2 as <-.
  clear E1 E2. revert H3. vm_compute. intros H3. discriminate H3.
Qed.

(** C4, amended. [translation_doc_time(10000, 1)] is [10.0] and
    [translation_doc_time(10000, 2)] is [5.0].  For every word count and
    every positive resource count [g] for which the call returns a float
    that is zero or of magnitude at least [2^-1020], the call with
    [2 * g] resources returns exactly half of it: the float [minutes / 2],
    whose value is half the value of [minutes]. *)
Theorem translation_doc_time_halving (w : World) :
  result (translation_doc_time 10000 1) w = Ok (literal 10 0) /\
  result (translation_doc_time 10000 2) w = Ok (literal 5 0) /\
  forall words g minutes,
    0 < g ->
    result (translation_doc_time words g) w = Ok minutes ->
    far_from_underflow minutes ->
    exists half,
      result (translation_doc_time words (2 * g)) w = Ok half /\
      fdiv minutes two = Ok half /\
      (F2Q half == F2Q minutes / 2)%Q.
Proof.
  split; [rewrite doc_time_result; vm_compute; reflexivity |].
  split; [rewrite doc_time_result; vm_compute; reflexivity |].
  intros words g minutes Hg. rewrite !doc_time_result. unfold doc_time_value.
  intros H Hfar.
  replace (WORDS_PER_MIN_TRANSLATION * (2 * g))
    with (2 * (WORDS_PER_MIN_TRANSLATION * g)) by lia.
  assert (Hb : WORDS_PER_MIN_TRANSLATION * g <> 0)
    by (unfold WORDS_PER_MIN_TRANSLATION; lia).
  destruct (int_truediv_double_den _ _ _ Hb H Hfar) as [H2 Hx].
  exists (fhalf minutes). split; [exact H2 |].
  destruct minutes as [s | s | | s m e]; cbn in Hfar; try contradiction.
  - split; [destruct s; reflexivity | cbn; reflexivity].
  - destruct Hx as [Hx | Hx]; [discriminate |].
    split.
    + apply fdiv_two; [exact Hx | unfold emin in *; lia].
    + apply F2Q_half.
Qed.

Lemma translation_doc_time_halving_witness :
  0 < 1 /\
  result (translation_doc_time 10000 1) start
  = Ok (S754_finite false 5629499534213120 (-49)) /\
  far_from_underflow (S754_finite false 5629499534213120 (-49)) /\
  exists half,
    result (translation_doc_time 10000 (2 * 1)) start = Ok half /\
    fdiv (S754_finite false 5629499534213120 (-49)) two = Ok half /\
    (F2Q half == F2Q (S754_finite false 5629499534213120 (-49)) / 2)%Q.
Proof.
  assert (H1 : 0 < 1) by reflexivity.
  assert (H2 : result (translation_doc_time 10000 1) start
               = Ok (S754_finite false 5629499534213120 (-49)))
    by (vm_compute; reflexivity).
  assert (H3 : far_from_underflow (S754_finite false 5629499534213120 (-49)))
    by (vm_compute; reflexivity).
  repeat split; try assumption.
  exact (proj2 (proj2 (translation_doc_time_halving start)) 10000 1 _ H1 H2 H3).
Defined.

(** ** Linearity of the chat estimate *)

(** The constants of the chat estimate as binary64 numbers. *)
Lemma FLOPS_PER_TOKEN_value :
  FLOPS_PER_TOKEN = S754_finite false 6815744000000000 (-18).
Proof. reflexivity. Qed.

Lemma flops_per_second_value :
  int_mul_f GPU_TFLOPS (literal 1 12) = Ok (S754_finite false 5760000000000000 (-6)).
Proof. reflexivity. Qed.

Lemma literal_3600_value :
  literal 3600 0 = S754_finite false 7916483719987200 (-41).
Proof. reflexivity. Qed.

Lemma normal_constants :
  normal (S754_finite false 6815744000000000 (-18)) /\
  normal (S754_finite false 5760000000000000 (-6)) /\
  normal (S754_finite false 7916483719987200 (-41)).
Proof. unfold normal, prec, emin, etop. change (2 ^ (53 - 1)) with 4503599627370496.
  change (2 ^ 53) with 9007199254740992. lia. Qed.

(** C3, as stated, fails where the operation count overflows: for
    [N = 2^977] users the resource-hours are finite, for [2 * N] they
    are infinite. *)
Lemma chat_linearity_fails_at_overflow :
  0 < 2 ^ 977 /\
  exists tokens tokens2 total_tflops,
    result (llm_chat_estimates (2 ^ 977)) start
    = Ok (tokens, S754_finite false 8881765665119414 912, total_tflops,
          S754_finite false 8881765665119414 913) /\
    result (llm_chat_estimates (2 * 2 ^ 977)) start
    = Ok (tokens2, S754_infinity false, S754_infinity false, S754_infinity false) /\
    S754_infinity false <> fmul two (S754_finite false 8881765665119414 912) /\
    ~ (exists t gh tf c t2 gh2 tf2 c2,
         result (llm_chat_estimates (2 ^ 977)) start = Ok (t, gh, tf, c) /\
         result (llm_chat_estimates (2 * 2 ^ 977)) start = Ok (t2, gh2, tf2, c2) /\
         gh2 = fmul two gh).
Proof.
  split; [reflexivity |].
  eexists _, _, _.
  split; [vm_compute; reflexivity |].
  split; [vm_compute; reflexivity |].
  split; [vm_compute; discriminate |].
  intros (t & gh & tf & c & t2 & gh2 & tf2 & c2 & H1 & H2 & H3).
  let v := eval vm_compute in (result (llm_chat_estimates (2 ^ 977)) start) in
  assert (E1 : result (llm_chat_estimates (2 ^ 977)) start = v)
    by (vm_compute; reflexivity).
  let v := eval vm_compute in (result (llm_chat_estimates (2 * 2 ^ 977)) start) in
  assert (E2 : result (llm_chat_estimates (2 * 2 ^ 977)) start = v)
    by (vm_compute; reflexivity).
  rewrite E1 in H1. rewrite E2 in H2.
  injection H1 as _ <- _ _. injection H2 as _ <- _ _.
  clear E1 E2. revert H3. vm_compute. intros H3. discriminate H3.
Qed.

(** C3, amended. [llm_chat_estimates(1)] returns 3000 tokens.  For every
    [N > 0] for which [llm_chat_estimates(2 * N)] returns finite
    resource-hours, [llm_chat_estimates(N)] returns too, and the tokens,
    the resource-hours and the cost of the former are exactly twice
    those of the latter: as integers for the tokens, as the floats
    [2.0 * gpu_hours] and [2.0 * cost], and as rational values. *)
Theorem chat_estimates_linear (w : World) :
  (exists gpu_hours total_tflops cost,
     result (llm_chat_estimates 1) w = Ok (3000, gpu_hours, total_tflops, cost)) /\
  forall N tokens2 gpu_hours2 total_tflops2 cost2,
    0 < N ->
    result (llm_chat_estimates (2 * N)) w
    = Ok (tokens2, gpu_hours2, total_tflops2, cost2) ->
    is_finite gpu_hours2 = true ->
    exists tokens gpu_hours total_tflops cost,
      result (llm_chat_estimates N) w = Ok (tokens, gpu_hours, total_tflops, cost) /\
      tokens2 = 2 * tokens /\
      gpu_hours2 = fmul two gpu_hours /\
      (F2Q gpu_hours2 == 2 * F2Q gpu_hours)%Q /\
      cost2 = fmul two cost /\
      (F2Q cost2 == 2 * F2Q cost)%Q.
Proof.
  split.
  { rewrite chat_result. eexists _, _, _. vm_compute. reflexivity. }
  intros N tokens2 gh2 tf2 c2 HN. rewrite !chat_result. unfold chat_value.
  cbv zeta. rewrite flops_per_second_value, FLOPS_PER_TOKEN_value. cbn [obind].
  destruct normal_constants as (HnF & HnG & Hn3600).
  replace (2 * N * TOKENS_PER_USER_PER_DAY)
    with (2 * (N * TOKENS_PER_USER_PER_DAY)) by lia.
  set (t := N * TOKENS_PER_USER_PER_DAY).
  assert (Ht : 0 < t) by (unfold t, TOKENS_PER_USER_PER_DAY; lia).
  unfold int_mul_f, fdiv_int, fmul_int.
  rewrite of_int_3600, of_int_GPU_TFLOPS, literal_3600_value. cbn [obind].
  (* the conversion of the tokens *)
  destruct (of_int (2 * t)) as [x2 |] eqn:Ex2; cbn [obind]; [| discriminate].
  destruct (of_int_double t x2 Ht Ex2) as (m & e & -> & Hnx & Hlo & Htop & ->).
  cbn [obind].
  (* the operations of the day *)
  set (F := S754_finite false 6815744000000000 (-18)) in *.
  set (G := S754_finite false 5760000000000000 (-6)) in *.
  set (H3600 := S754_finite false 7916483719987200 (-41)) in *.
  destruct (fdiv (fmul (S754_finite false m (e + 1)) F) G) as [gs2 |] eqn:Egs2;
    cbn [obind]; [| discriminate].
  destruct (fdiv gs2 H3600) as [gh2' |] eqn:Egh2; cbn [obind]; [| discriminate].
  intros [= <- <- <- <-] Hfin.
  assert (Hgs2 : gs2 <> S754_infinity false).
  { intros ->. cbn in Egh2. injection Egh2 as <-. discriminate. }
  assert (Hf2 : fmul (S754_finite false m (e + 1)) F <> S754_infinity false).
  { intros E. rewrite E in Egs2. cbn in Egs2. injection Egs2 as <-. now apply Hgs2. }
  destruct (fmul_double_step false false m 6815744000000000 e (-18) Hnx HnF)
    as (m1 & e1 & Ef & Hn1 & He1 & Ef2);
    [lia | unfold emin, prec in *; lia | exact Hf2 |].
  cbn [xorb] in *. fold F in Ef, Ef2. rewrite Ef2 in Egs2. rewrite Ef.
  (* the resource-seconds *)
  destruct (fdiv_double_step false false m1 5760000000000000 e1 (-6) Hn1 HnG gs2)
    as (m2 & e2 & Egs & Hn2 & He2 & Htop2 & ->);
    [lia | unfold emin, prec in *; lia | exact Egs2 | exact Hgs2 |].
  cbn [xorb] in *. fold G in Egs. rewrite Egs. cbn [obind].
  (* the resource-hours *)
  destruct (fdiv_double_step false false m2 7916483719987200 e2 (-41) Hn2 Hn3600 gh2')
    as (m3 & e3 & Egh & Hn3 & He3 & Htop3 & ->);
    [lia | unfold emin, prec in *; lia | exact Egh2 | |].
  { intros ->. discriminate. }
  cbn [xorb] in *. fold H3600 in Egh. rewrite Egh. cbn [obind].
  change GPU_HOURLY_COST with two.
  assert (Hn3' : normal (S754_finite false m3 (e3 + 1))).
  { destruct Hn3 as [Hm3 He3']. split; [exact Hm3 | lia]. }
  eexists _, _, _, _. split; [reflexivity |].
  split; [reflexivity |].
  rewrite (fmul_two_l _ _ _ Hn3), !(fmul_two_r _ _ _ Hn3), (fmul_two_r _ _ _ Hn3').
  cbn [fdouble pack].
  destruct (Z.leb_spec (e3 + 1) etop) as [_ | L]; [| lia].
  rewrite (fmul_two_l _ _ _ Hn3'). cbn [fdouble pack].
  unfold prec in *.
  destruct (Z.leb_spec (e3 + 1 + 1) etop) as [_ | L]; [| lia].
  repeat split; try reflexivity; apply F2Q_double.
Qed.

Lemma chat_estimates_linear_witness :
  0 < 100 /\
  result (llm_chat_estimates (2 * 100)) start
  = Ok (600000,
        S754_finite false 6938879425874542 (-57),
        S754_finite false 8576190696652800 (-39),
        S754_finite false 6938879425874542 (-56)) /\
  is_finite (S754_finite false 6938879425874542 (-57)) = true /\
  exists tokens gpu_hours total_tflops cost,
    result (llm_chat_estimates 100) start
    = Ok (tokens, gpu_hours, total_tflops, cost) /\
    600000 = 2 * tokens /\
    S754_finite false 6938879425874542 (-57) = fmul two gpu_hours /\
    (F2Q (S754_finite false 6938879425874542 (-57)) == 2 * F2Q gpu_hours)%Q /\
    S754_finite false 6938879425874542 (-56) = fmul two cost /\
    (F2Q (S754_finite false 6938879425874542 (-56)) == 2 * F2Q cost)%Q.
Proof.
  assert (H1 : 0 < 100) by reflexivity.
  assert (H2 : result (llm_chat_estimates (2 * 100)) start
               = Ok (600000,
                     S754_finite false 6938879425874542 (-57),
                     S754_finite false 8576190696652800 (-39),
                     S754_finite false 6938879425874542 (-56)))
    by (vm_compute; reflexivity).
  assert (H3 : is_finite (S754_finite false 6938879425874542 (-57)) = true)
    by reflexivity.
  repeat split; try assumption.
  exact (proj2 (chat_estimates_linear start) 100 _ _ _ _ H1 H2 H3).
Defined.

(** ** The two derivations of the total operations *)

(** On the floats of the code the recomputation reintroduces rounding,
    as the specification notes: for 13 users the recomputed total is
    the float next above 1014, while the directly computed
    [tokens * FLOPS_PER_TOKEN / 1e12] is 1014 itself. *)
Lemma round_trip_differs_at_13_users :
  exists tokens gpu_hours cost,
    result (llm_chat_estimates 13) start
    = Ok (tokens, gpu_hours, S754_finite false 8919238324518913 (-43), cost) /\
    direct_tflops 13 = Ok (S754_finite false 8919238324518912 (-43)) /\
    (F2Q (S754_finite false 8919238324518912 (-43)) == 1014)%Q /\
    ~ (F2Q (S754_finite false 8919238324518913 (-43))
       == F2Q (S754_finite false 8919238324518912 (-43)))%Q /\
    ~ (exists t gh tf c,
         result (llm_chat_estimates 13) start = Ok (t, gh, tf, c) /\
         direct_tflops 13 = Ok tf).
Proof.
  eexists _, _, _.
  split; [vm_compute; reflexivity |].
  split; [vm_compute; reflexivity |].
  split; [vm_compute; reflexivity |].
  split; [vm_compute; discriminate |].
  intros (t & gh & tf & c & H1 & H2).
  assert (E1 : result (llm_chat_estimates 13) start
               = Ok (39000, S754_finite false 7216434602909524 (-61),
                     S754_finite false 8919238324518913 (-43),
                     S754_finite false 7216434602909524 (-60)))
    by (vm_compute; reflexivity).
  assert (E2 : direct_tflops 13 = Ok (S754_finite false 8919238324518912 (-43)))
    by (vm_compute; reflexivity).
  rewrite E1 in H1. rewrite E2 in H2.
  injection H1 as _ _ <- _. discriminate H2.
Qed.

Lemma FLOPS_PER_TOKEN_exact : (F2Q FLOPS_PER_TOKEN == inject_Z (26 * 10 ^ 9))%Q.
Proof. vm_compute. reflexivity. Qed.

(** C6. The two derivations of the total operations are mathematically
    equivalent: without rounding, that is with the formulas of the
    estimator over the rationals, the total recomputed from the
    resource-hours equals the directly computed
    [tokens * FLOPS_PER_TOKEN / 1e12] for every user count, both being
    [78 * users] tera-operations.  For the documented loads of 100,
    10000 and 100000 users the float the code returns is the directly
    computed float, and its value is the exact one. *)
Theorem round_trip_is_direct_without_rounding (users : Z) :
  (Exact.total_tflops_round_trip users == Exact.total_tflops_direct users)%Q /\
  (Exact.total_tflops_direct users == inject_Z (78 * users))%Q /\
  (In users [100; 10000; 100000] ->
   forall w, exists tokens gpu_hours total_tflops cost,
     result (llm_chat_estimates users) w
     = Ok (tokens, gpu_hours, total_tflops, cost) /\
     direct_tflops users = Ok total_tflops /\
     (F2Q total_tflops == Exact.total_tflops_direct users)%Q).
Proof.
  assert (Hd : (Exact.total_tflops_direct users == inject_Z (78 * users))%Q).
  { unfold Exact.total_tflops_direct, Exact.flops_day, Exact.tokens.
    rewrite FLOPS_PER_TOKEN_exact.
    unfold TOKENS_PER_USER_PER_DAY.
    change (10 ^ 12) with 1000000000000. change (26 * 10 ^ 9) with 26000000000.
    rewrite !inject_Z_mult. field. }
  split; [| split; [exact Hd |]].
  - unfold Exact.total_tflops_round_trip, Exact.gpu_hours, Exact.gpu_seconds,
      Exact.total_tflops_direct, Exact.flops_per_second.
    change (10 ^ 12) with 1000000000000. unfold GPU_TFLOPS.
    field.
  - intros Hin w. rewrite chat_result.
    destruct Hin as [<- | [<- | [<- | []]]];
      eexists _, _, _, _; (split; [vm_compute; reflexivity |]);
      split; vm_compute; reflexivity.
Qed.

Lemma round_trip_is_direct_without_rounding_witness :
  In 100 [100; 10000; 100000] /\
  exists tokens gpu_hours total_tflops cost,
    result (llm_chat_estimates 100) start
    = Ok (tokens, gpu_hours, total_tflops, cost) /\
    direct_tflops 100 = Ok total_tflops /\
    (F2Q total_tflops == Exact.total_tflops_direct 100)%Q.
Proof.
  assert (H : In 100 [100; 10000; 100000]) by (left; reflexivity).
  split; [exact H |].
  exact (proj2 (proj2 (round_trip_is_direct_without_rounding 100)) H start).
Defined.

(** * Further properties of the estimators *)

(** ** Signs *)

Module Binary64Signs.

Lemma xorb_negb_l (a b : bool) : xorb (negb a) b = negb (xorb a b).
Proof. now destruct a, b. Qed.

Lemma xorb_negb_r (a b : bool) : xorb a (negb b) = negb (xorb a b).
Proof. now destruct a, b. Qed.

Lemma round_pos_opp (s : bool) (n d : Z) :
  SFopp (round_pos s n d) = round_pos (negb s) n d.
Proof.
  unfold round_pos, normalize, pack.
  destruct (_ =? 2 ^ prec).
  - cbn. now destruct (_ <=? etop).
  - destruct (rnd_div _ _); try reflexivity.
    now destruct (_ <=? etop).
Qed.

Lemma round_ratio_opp (s : bool) (n d : Z) :
  SFopp (round_ratio s n d) = round_ratio (negb s) n d.
Proof.
  unfold round_ratio. destruct (n =? 0); [reflexivity | apply round_pos_opp].
Qed.

Lemma int_truediv_opp_r (a b : Z) :
  int_truediv a (- b) = omap SFopp (int_truediv a b).
Proof.
  unfold int_truediv.
  destruct (Z.eqb_spec b 0) as [-> | Hb]; [reflexivity |].
  destruct (Z.eqb_spec (- b) 0) as [E | _]; [lia |].
  rewrite Z.abs_opp.
  replace (- b <? 0) with (negb (b <? 0))
    by (destruct (Z.ltb_spec b 0), (Z.ltb_spec (- b) 0); auto; lia).
  rewrite xorb_negb_r, <- round_ratio_opp.
  now destruct (round_ratio _ _ _).
Qed.

Lemma int_truediv_opp_l (a b : Z) :
  a <> 0 -> int_truediv (- a) b = omap SFopp (int_truediv a b).
Proof.
  intros Ha. unfold int_truediv.
  destruct (Z.eqb_spec b 0) as [-> | Hb]; [reflexivity |].
  rewrite Z.abs_opp.
  replace (- a <? 0) with (negb (a <? 0))
    by (destruct (Z.ltb_spec a 0), (Z.ltb_spec (- a) 0); auto; lia).
  rewrite xorb_negb_l, <- round_ratio_opp.
  now destruct (round_ratio _ _ _).
Qed.

Lemma of_int_opp (n : Z) :
  n <> 0 -> of_int (- n) = omap SFopp (of_int n).
Proof.
  intros Hn. unfold of_int. rewrite Z.abs_opp.
  replace (- n <? 0) with (negb (n <? 0))
    by (destruct (Z.ltb_spec n 0), (Z.ltb_spec (- n) 0); auto; lia).
  rewrite <- round_ratio_opp. now destruct (round_ratio _ _ _).
Qed.

Lemma fmul_opp_l (x y : float) : fmul (SFopp x) y = SFopp (fmul x y).
Proof.
  destruct x as [sx | sx | | sx mx ex], y as [sy | sy | | sy my ey];
    cbn [fmul SFopp]; rewrite ?xorb_negb_l; try reflexivity.
  now rewrite round_pos_opp.
Qed.

Lemma fdiv_opp_l (x y : float) : fdiv (SFopp x) y = omap SFopp (fdiv x y).
Proof.
  destruct x as [sx | sx | | sx mx ex], y as [sy | sy | | sy my ey];
    cbn [fdiv SFopp omap]; rewrite ?xorb_negb_l; try reflexivity.
  now rewrite round_pos_opp.
Qed.

End Binary64Signs.

Import Binary64Signs.

(** X4. [translation_doc_time] does not check signs: with the opposite
    resource count it returns the opposite minutes (and raises as
    before), and likewise with the opposite of a nonzero word count. *)
Theorem translation_doc_time_opposite (words g : Z) (w : World) :
  result (translation_doc_time words (- g)) w
  = omap SFopp (result (translation_doc_time words g) w) /\
  (words <> 0 ->
   result (translation_doc_time (- words) g) w
   = omap SFopp (result (translation_doc_time words g) w)).
Proof.
  rewrite !doc_time_result. unfold doc_time_value.
  replace (WORDS_PER_MIN_TRANSLATION * - g)
    with (- (WORDS_PER_MIN_TRANSLATION * g)) by lia.
  split; [apply int_truediv_opp_r | apply int_truediv_opp_l].
Qed.

Lemma translation_doc_time_opposite_witness :
  10000 <> 0 /\
  result (translation_doc_time (- 10000) 2) start
  = omap SFopp (result (translation_doc_time 10000 2) start).
Proof.
  assert (H : 10000 <> 0) by discriminate.
  split; [exact H |].
  exact (proj2 (translation_doc_time_opposite 10000 2 start) H).
Defined.

(** X5. Neither estimator checks the sign of its input: for the
    opposite of a nonzero load it returns the opposite of every
    component, and raises when it raised for the load itself. *)
Theorem estimates_of_opposite_load (n : Z) (w : World) :
  n <> 0 ->
  result (translation_estimates (- n)) w
  = omap opp3 (result (translation_estimates n) w) /\
  result (llm_chat_estimates (- n)) w
  = omap opp4 (result (llm_chat_estimates n) w).
Proof.
  intros Hn. rewrite !translation_result, !chat_result. split.
  - unfold translation_value.
    rewrite int_truediv_opp_l by assumption.
    destruct (int_truediv n _) as [gh |]; cbn [omap obind]; [| reflexivity].
    unfold fmul_int. rewrite of_int_3600, of_int_GPU_TFLOPS. cbn [obind omap opp3].
    now rewrite !fmul_opp_l.
  - unfold chat_value. cbv zeta.
    replace (- n * TOKENS_PER_USER_PER_DAY)
      with (- (n * TOKENS_PER_USER_PER_DAY)) by lia.
    unfold int_mul_f at 1 3.
    rewrite of_int_opp by (unfold TOKENS_PER_USER_PER_DAY; lia).
    destruct (of_int (n * _)) as [x |]; cbn [omap obind]; [| reflexivity].
    destruct (int_mul_f GPU_TFLOPS _) as [fs |]; cbn [obind]; [| reflexivity].
    rewrite fmul_opp_l, fdiv_opp_l.
    destruct (fdiv (fmul x FLOPS_PER_TOKEN) fs) as [gs |]; cbn [omap obind];
      [| reflexivity].
    unfold fdiv_int, fmul_int. rewrite of_int_3600, of_int_GPU_TFLOPS.
    cbn [obind]. rewrite fdiv_opp_l.
    destruct (fdiv gs (literal 3600 0)) as [gh |]; cbn [omap obind opp4];
      [| reflexivity].
    now rewrite !fmul_opp_l.
Qed.

Lemma estimates_of_opposite_load_witness :
  100 <> 0 /\
  result (translation_estimates (- 100)) start
  = omap opp3 (result (translation_estimates 100) start) /\
  result (llm_chat_estimates (- 100)) start
  = omap opp4 (result (llm_chat_estimates 100) start).
Proof.
  assert (H : 100 <> 0) by discriminate.
  split; [exact H |].
  exact (estimates_of_opposite_load 100 start H).
Defined.

(** ** Errors and shapes of the results *)

Module Binary64Shapes.

Lemma round_pos_signed (s : bool) (n d : Z) :
  0 < n -> 0 < d -> signed s (round_pos s n d).
Proof.
  intros Hn Hd. pose proof (round_pos_not_nan s n d Hn Hd) as Hnan.
  destruct (round_pos s n d) as [s' | s' | | s' m e] eqn:R; cbn.
  - unfold round_pos, normalize, pack in R.
    destruct (_ =? 2 ^ prec) in R.
    + cbn in R. destruct (_ <=? etop) in R; discriminate.
    + destruct (rnd_div _ _) in R; try discriminate.
      * now injection R as <-.
      * destruct (_ <=? etop) in R; discriminate.
  - now apply round_pos_infinity_sign in R.
  - contradiction.
  - now destruct (round_pos_exponent _ _ _ _ _ _ R).
Qed.

Lemma round_ratio_signed (s : bool) (n d : Z) :
  0 <= n -> 0 < d -> signed s (round_ratio s n d).
Proof.
  intros Hn Hd. unfold round_ratio.
  destruct (Z.eqb_spec n 0); [reflexivity | apply round_pos_signed; lia].
Qed.

Lemma int_truediv_signed (a b : Z) (x : float) :
  int_truediv a b = Ok x ->
  signed (xorb (a <? 0) (b <? 0)) x /\ is_finite x = true.
Proof.
  unfold int_truediv. destruct (Z.eqb_spec b 0); [discriminate |].
  pose proof (round_ratio_signed (xorb (a <? 0) (b <? 0)) (Z.abs a) (Z.abs b)
                ltac:(lia) ltac:(lia)) as H.
  destruct (round_ratio _ _ _); try discriminate; try contradiction;
    intros [= <-]; auto.
Qed.

Lemma of_int_signed (n : Z) (x : float) :
  of_int n = Ok x -> signed (n <? 0) x /\ is_finite x = true.
Proof.
  unfold of_int.
  pose proof (round_ratio_signed (n <? 0) (Z.abs n) 1 ltac:(lia) ltac:(lia)) as H.
  destruct (round_ratio _ _ _); try discriminate; try contradiction;
    intros [= <-]; auto.
Qed.

Lemma fmul_signed (s sy : bool) (x : float) (my : positive) (ey : Z) :
  signed s x -> signed (xorb s sy) (fmul x (S754_finite sy my ey)).
Proof.
  destruct x as [sx | sx | | sx mx ex]; cbn [signed fmul]; try contradiction;
    intros <-; try reflexivity.
  apply round_pos_signed; apply shl_pos; lia.
Qed.

Lemma fdiv_signed (s sy : bool) (x : float) (my : positive) (ey : Z) :
  signed s x ->
  exists q, fdiv x (S754_finite sy my ey) = Ok q /\ signed (xorb s sy) q.
Proof.
  destruct x as [sx | sx | | sx mx ex]; cbn [signed fdiv]; try contradiction;
    intros <-; eexists; (split; [reflexivity |]); try reflexivity.
  apply round_pos_signed; apply shl_pos; lia.
Qed.

Lemma signed_not_nan (s : bool) (x : float) : signed s x -> is_nan x = false.
Proof. now destruct x. Qed.

Lemma signed_nonneg (x : float) : signed false x -> nonneg x.
Proof. destruct x as [[] | [] | | [] m e]; cbn; auto; discriminate. Qed.

(** Conversion and true division overflow at the same threshold. *)
Lemma of_int_returns (n : Z) :
  (Z.abs n < overflow_threshold ->
   exists x, of_int n = Ok x /\ is_finite x = true) /\
  (overflow_threshold <= Z.abs n -> of_int n = Raise OverflowError).
Proof.
  destruct (int_truediv_returns n 1 ltac:(discriminate)) as [Hok Hover].
  assert (E : int_truediv n 1 = of_int n).
  { unfold int_truediv, of_int. cbn [Z.eqb Z.ltb Z.compare Z.abs].
    now rewrite Bool.xorb_false_r. }
  rewrite E in *. change (Z.abs 1) with 1 in *.
  change (2 ^ emax - 2 ^ (etop - 1)) with overflow_threshold in *.
  rewrite Z.mul_1_r in *. auto.
Qed.

Lemma int_truediv_scale (k a b : Z) :
  0 < k -> int_truediv (k * a) (k * b) = int_truediv a b.
Proof.
  intros Hk. unfold int_truediv.
  destruct (Z.eqb_spec b 0) as [-> | Hb].
  - now rewrite Z.mul_0_r.
  - destruct (Z.eqb_spec (k * b) 0) as [E | _]; [nia |].
    replace (k * a <? 0) with (a <? 0)
      by (destruct (Z.ltb_spec a 0), (Z.ltb_spec (k * a) 0); auto; nia).
    replace (k * b <? 0) with (b <? 0)
      by (destruct (Z.ltb_spec b 0), (Z.ltb_spec (k * b) 0); auto; nia).
    rewrite !Z.abs_mul, (Z.abs_eq k) by lia.
    unfold round_ratio.
    destruct (Z.eqb_spec (Z.abs a) 0) as [E | Ha].
    + rewrite E, Z.mul_0_r. reflexivity.
    + destruct (Z.eqb_spec (k * Z.abs a) 0) as [E | _]; [nia |].
      rewrite round_pos_scale by lia. reflexivity.
Qed.

(** Nonzero integers convert to normal numbers. *)
Lemma of_int_normal (n : Z) (x : float) :
  n <> 0 -> of_int n = Ok x -> normal_or_inf (n <? 0) (- (prec - 1)) x.
Proof.
  intros Hn. unfold of_int, round_ratio.
  destruct (Z.eqb_spec (Z.abs n) 0) as [E | _]; [lia |].
  assert (Hp : 0 < Z.abs n) by lia.
  pose proof (ilog2_ratio_int_nonneg _ Hp) as Hl.
  destruct (round_pos_normal (n <? 0) (Z.abs n) 1 Hp ltac:(lia))
    as [E | (m & e & E & Hnorm & He)].
  - unfold emin, prec. lia.
  - rewrite E. discriminate.
  - rewrite E. intros [= <-]. cbn [normal_or_inf].
    repeat split; try apply Hnorm; unfold prec in *; lia.
Qed.

Lemma int_truediv_normal (a b : Z) (lo : Z) (x : float) :
  a <> 0 -> le_ratio 1 lo (Z.abs a) (Z.abs b) -> emin + (prec - 1) <= lo ->
  int_truediv a b = Ok x ->
  normal_or_inf (xorb (a <? 0) (b <? 0)) (lo - (prec - 1)) x.
Proof.
  intros Ha Hle Hlo. unfold int_truediv, round_ratio.
  destruct (Z.eqb_spec b 0) as [E | Hb]; [discriminate |].
  destruct (Z.eqb_spec (Z.abs a) 0) as [E | _]; [lia |].
  assert (Hn : 0 < Z.abs a) by lia. assert (Hd : 0 < Z.abs b) by lia.
  pose proof (ilog2_ratio_ge _ _ _ Hn Hd Hle) as Hl.
  destruct (round_pos_normal (xorb (a <? 0) (b <? 0)) _ _ Hn Hd)
    as [E | (m & e & E & Hnorm & He)]; try lia.
  - rewrite E. discriminate.
  - rewrite E. intros [= <-]. cbn [normal_or_inf].
    repeat split; try apply Hnorm; unfold prec in *; lia.
Qed.

Lemma fmul_normal_or_inf (s sy : bool) (lo : Z) (x : float) (my : positive) (ey : Z) :
  normal_or_inf s lo x -> normal (S754_finite sy my ey) ->
  emin <= lo + ey + (prec - 1) ->
  normal_or_inf (xorb s sy) (lo + ey + (prec - 1)) (fmul x (S754_finite sy my ey)).
Proof.
  intros Hx Hy Hlo.
  destruct x as [sx | sx | | sx mx ex]; cbn [normal_or_inf] in Hx; try contradiction.
  - subst. reflexivity.
  - destruct Hx as (-> & Hn & He).
    destruct (fmul_normal s sy mx my ex ey Hn Hy ltac:(lia))
      as [E | (m & e & E & Hnorm & Hge)]; rewrite E; cbn [normal_or_inf].
    + reflexivity.
    + repeat split; try apply Hnorm; unfold prec in *; lia.
Qed.

Lemma fdiv_normal_or_inf (s sy : bool) (lo : Z) (x : float) (my : positive) (ey : Z) :
  normal_or_inf s lo x -> normal (S754_finite sy my ey) ->
  emin + (prec - 1) <= lo - ey - 1 ->
  exists q, fdiv x (S754_finite sy my ey) = Ok q /\
    normal_or_inf (xorb s sy) (lo - ey - prec) q.
Proof.
  intros Hx Hy Hlo.
  destruct x as [sx | sx | | sx mx ex]; cbn [normal_or_inf] in Hx; try contradiction.
  - subst. eexists; split; reflexivity.
  - destruct Hx as (-> & Hn & He).
    destruct (fdiv_normal s sy mx my ex ey Hn Hy ltac:(lia))
      as (q & Eq & [Hq | (m & e & Hq & Hnorm & Hge)]);
      exists q; (split; [exact Eq |]); rewrite Hq in *; cbn [normal_or_inf].
    + reflexivity.
    + repeat split; try apply Hnorm; unfold prec in *; lia.
Qed.

Lemma normal_or_inf_signed (s : bool) (lo : Z) (x : float) :
  normal_or_inf s lo x -> signed s x.
Proof. destruct x; cbn; tauto. Qed.

(** The product with [2.0] has twice the value, unless it overflows. *)
Lemma fmul_two_value (s : bool) (lo : Z) (x : float) :
  x = S754_zero s \/ normal_or_inf s lo x ->
  is_finite (fmul x two) = true ->
  (F2Q (fmul x two) == 2 * F2Q x)%Q.
Proof.
  intros [-> | Hx].
  - intros _. cbn. reflexivity.
  - destruct x as [sx | sx | | sx mx ex]; cbn [normal_or_inf] in Hx;
      try contradiction.
    + subst. discriminate.
    + destruct Hx as (-> & Hn & _).
      rewrite (fmul_two_r _ _ _ Hn). cbn [fdouble pack].
      destruct (ex + 1 <=? etop); [intros _ | discriminate].
      apply F2Q_double.
Qed.

End Binary64Shapes.

Import Binary64Shapes.

Lemma literal_90_value :
  literal 90 0 = S754_finite false 6333186975989760 (-46).
Proof. reflexivity. Qed.

Lemma normal_90 : normal (S754_finite false 6333186975989760 (-46)).
Proof.
  unfold normal, prec, emin, etop. change (2 ^ (53 - 1)) with 4503599627370496.
  change (2 ^ 53) with 9007199254740992. lia.
Qed.

Lemma fdiv_finite_divisor (x : float) (s : bool) (m : positive) (e : Z) :
  exists q, fdiv x (S754_finite s m e) = Ok q.
Proof. destruct x; cbn [fdiv]; eauto. Qed.

(** X1. [llm_chat_estimates] never raises [ZeroDivisionError].  It
    returns exactly when the token count [3000 * users] is below
    [2^1024 - 2^970] in magnitude, and raises [OverflowError] otherwise,
    when the token count is converted to a float. *)
Theorem llm_chat_estimates_returns (users : Z) (w : World) :
  result (llm_chat_estimates users) w <> Raise ZeroDivisionError /\
  (Z.abs users * 3000 < overflow_threshold ->
   exists r, result (llm_chat_estimates users) w = Ok r) /\
  (overflow_threshold <= Z.abs users * 3000 ->
   result (llm_chat_estimates users) w = Raise OverflowError).
Proof.
  rewrite chat_result. unfold chat_value. cbv zeta.
  rewrite flops_per_second_value. unfold int_mul_f.
  destruct (of_int_returns (users * TOKENS_PER_USER_PER_DAY)) as [Hok Hover].
  replace (Z.abs (users * TOKENS_PER_USER_PER_DAY)) with (Z.abs users * 3000)
    in * by (unfold TOKENS_PER_USER_PER_DAY; lia).
  destruct (Z_lt_le_dec (Z.abs users * 3000) overflow_threshold) as [Hlt | Hge].
  - destruct (Hok Hlt) as (x & -> & _). cbn [obind].
    destruct (fdiv_finite_divisor (fmul x FLOPS_PER_TOKEN)
                false 5760000000000000 (-6)) as [gs ->].
    cbn [obind]. unfold fdiv_int, fmul_int.
    rewrite of_int_3600, of_int_GPU_TFLOPS, literal_3600_value. cbn [obind].
    destruct (fdiv_finite_divisor gs false 7916483719987200 (-41)) as [gh ->].
    cbn [obind].
    split; [discriminate | split; [eauto | intros; lia]].
  - rewrite (Hover Hge). cbn [obind].
    split; [discriminate | split; [intros; lia | reflexivity]].
Qed.

Lemma llm_chat_estimates_returns_witness :
  Z.abs 100000 * 3000 < overflow_threshold /\
  exists r, result (llm_chat_estimates 100000) start = Ok r.
Proof.
  assert (H : Z.abs 100000 * 3000 < overflow_threshold) by reflexivity.
  split; [exact H |].
  exact (proj1 (proj2 (llm_chat_estimates_returns 100000 start)) H).
Defined.

(** X2. The three outcomes of [translation_doc_time]: it raises
    [ZeroDivisionError] exactly for no resources; with resources it
    raises [OverflowError] exactly when the word count reaches
    [(2^1024 - 2^970) * 1000 * |num_gpus|] in magnitude, and otherwise
    returns a finite float. *)
Theorem translation_doc_time_outcomes (words g : Z) (w : World) :
  (g = 0 -> result (translation_doc_time words g) w = Raise ZeroDivisionError) /\
  (g <> 0 -> Z.abs words < overflow_threshold * (1000 * Z.abs g) ->
   exists minutes,
     result (translation_doc_time words g) w = Ok minutes /\
     is_finite minutes = true) /\
  (g <> 0 -> overflow_threshold * (1000 * Z.abs g) <= Z.abs words ->
   result (translation_doc_time words g) w = Raise OverflowError).
Proof.
  rewrite doc_time_result. unfold doc_time_value.
  split; [intros ->; reflexivity |].
  assert (Habs : Z.abs (WORDS_PER_MIN_TRANSLATION * g) = 1000 * Z.abs g)
    by (unfold WORDS_PER_MIN_TRANSLATION; lia).
  split; intros Hg H;
    destruct (int_truediv_returns words (WORDS_PER_MIN_TRANSLATION * g))
      as [Hok Hover];
    try (unfold WORDS_PER_MIN_TRANSLATION; lia);
    rewrite Habs in *;
    change (2 ^ emax - 2 ^ (etop - 1)) with overflow_threshold in *; auto.
Qed.

Lemma translation_doc_time_outcomes_witness :
  2 <> 0 /\ Z.abs 10000 < overflow_threshold * (1000 * Z.abs 2) /\
  exists minutes,
    result (translation_doc_time 10000 2) start = Ok minutes /\
    is_finite minutes = true.
Proof.
  assert (H1 : 2 <> 0) by discriminate.
  assert (H2 : Z.abs 10000 < overflow_threshold * (1000 * Z.abs 2)) by reflexivity.
  repeat split; try assumption.
  exact (proj1 (proj2 (translation_doc_time_outcomes 10000 2 start)) H1 H2).
Defined.

(** X6. The latency depends on the ratio of words to resources only:
    multiplying both by the same positive factor changes nothing, not
    even in the last bit (nor the exception, if one is raised). *)
Theorem translation_doc_time_scale (k words g : Z) (w : World) :
  0 < k ->
  result (translation_doc_time (k * words) (k * g)) w
  = result (translation_doc_time words g) w.
Proof.
  intros Hk. rewrite !doc_time_result. unfold doc_time_value.
  replace (WORDS_PER_MIN_TRANSLATION * (k * g))
    with (k * (WORDS_PER_MIN_TRANSLATION * g)) by lia.
  now apply int_truediv_scale.
Qed.

Lemma translation_doc_time_scale_witness :
  0 < 7 /\
  result (translation_doc_time (7 * 10000) (7 * 3)) start
  = result (translation_doc_time 10000 3) start.
Proof.
  assert (H : 0 < 7) by reflexivity.
  split; [exact H |].
  exact (translation_doc_time_scale 7 10000 3 start H).
Defined.

(** X3. Neither estimator ever returns NaN: the resource-hours of the
    translation estimate are finite, and every float returned is zero, a
    number or an infinity.  For a non-negative load no component is
    negative. *)
Theorem estimates_are_never_nan (n : Z) (w : World) :
  (forall gpu_hours total_tflops cost,
      result (translation_estimates n) w = Ok (gpu_hours, total_tflops, cost) ->
      is_finite gpu_hours = true /\
      is_nan total_tflops = false /\ is_nan cost = false /\
      (0 <= n -> nonneg gpu_hours /\ nonneg total_tflops /\ nonneg cost)) /\
  (forall tokens gpu_hours total_tflops cost,
      result (llm_chat_estimates n) w = Ok (tokens, gpu_hours, total_tflops, cost) ->
      is_nan gpu_hours = false /\
      is_nan total_tflops = false /\ is_nan cost = false /\
      (0 <= n ->
       0 <= tokens /\ nonneg gpu_hours /\ nonneg total_tflops /\ nonneg cost)).
Proof.
  assert (Hs : 0 <= n -> (n <? 0) = false) by (intros; apply Z.ltb_ge; lia).
  split.
  - intros gh tf c. rewrite translation_result. unfold translation_value.
    destruct (int_truediv n _) as [gh0 |] eqn:E; cbn [obind]; [| discriminate].
    destruct (int_truediv_signed _ _ _ E) as [Sg Fg].
    change (WORDS_PER_HOUR_TRANSLATION <? 0) with false in Sg.
    rewrite Bool.xorb_false_r in Sg.
    unfold fmul_int. rewrite of_int_3600, of_int_GPU_TFLOPS. cbn [obind].
    change GPU_HOURLY_COST with (S754_finite false 4503599627370496 (-51)).
    rewrite literal_3600_value. change (literal 90 0) with
      (S754_finite false 6333186975989760 (-46)).
    intros [= <- <- <-].
    pose proof (fmul_signed _ false _ 7916483719987200 (-41) Sg) as S1.
    pose proof (fmul_signed _ false _ 6333186975989760 (-46) S1) as S2.
    pose proof (fmul_signed _ false _ 4503599627370496 (-51) Sg) as S3.
    rewrite !Bool.xorb_false_r in *.
    split; [exact Fg |].
    split; [exact (signed_not_nan _ _ S2) |].
    split; [exact (signed_not_nan _ _ S3) |].
    intros Hn. rewrite (Hs Hn) in *. auto using signed_nonneg.
  - intros t gh tf c. rewrite chat_result. unfold chat_value. cbv zeta.
    rewrite flops_per_second_value, FLOPS_PER_TOKEN_value. unfold int_mul_f.
    destruct (of_int _) as [x |] eqn:E; cbn [obind]; [| discriminate].
    destruct (of_int_signed _ _ E) as [Sx _].
    replace (n * TOKENS_PER_USER_PER_DAY <? 0) with (n <? 0) in Sx
      by (unfold TOKENS_PER_USER_PER_DAY;
          destruct (Z.ltb_spec n 0), (Z.ltb_spec (n * 3000) 0); auto; lia).
    pose proof (fmul_signed _ false _ 6815744000000000 (-18) Sx) as S1.
    destruct (fdiv_signed _ false _ 5760000000000000 (-6) S1) as (gs & -> & S2).
    cbn [obind]. unfold fdiv_int, fmul_int.
    rewrite of_int_3600, of_int_GPU_TFLOPS, literal_3600_value. cbn [obind].
    destruct (fdiv_signed _ false _ 7916483719987200 (-41) S2) as (gh0 & -> & S3).
    cbn [obind].
    change GPU_HOURLY_COST with (S754_finite false 4503599627370496 (-51)).
    change (literal 90 0) with (S754_finite false 6333186975989760 (-46)).
    intros [= <- <- <- <-].
    pose proof (fmul_signed _ false _ 7916483719987200 (-41) S3) as S4.
    pose proof (fmul_signed _ false _ 6333186975989760 (-46) S4) as S5.
    pose proof (fmul_signed _ false _ 4503599627370496 (-51) S3) as S6.
    rewrite !Bool.xorb_false_r in *.
    split; [exact (signed_not_nan _ _ S3) |].
    split; [exact (signed_not_nan _ _ S5) |].
    split; [exact (signed_not_nan _ _ S6) |].
    intros Hn. rewrite (Hs Hn) in *.
    split; [unfold TOKENS_PER_USER_PER_DAY; lia | auto using signed_nonneg].
Qed.

Lemma estimates_are_never_nan_witness :
  0 <= 10000 /\
  exists gh tf c,
    result (translation_estimates 10000) start = Ok (gh, tf, c) /\
    nonneg gh /\ nonneg tf /\ nonneg c.
Proof.
  assert (H : 0 <= 10000) by discriminate.
  split; [exact H |].
  eexists _, _, _. split; [vm_compute; reflexivity |].
  refine (proj2 (proj2 (proj2
    (proj1 (estimates_are_never_nan 10000 start) _ _ _ _))) H).
  vm_compute. reflexivity.
Defined.

Lemma hours_ratio (n : Z) :
  n <> 0 -> le_ratio 1 (-16) (Z.abs n) (Z.abs WORDS_PER_HOUR_TRANSLATION).
Proof.
  intros Hn. unfold le_ratio. change (Z.abs WORDS_PER_HOUR_TRANSLATION) with 60000.
  rewrite shl_neg by lia. cbn [Z.opp]. rewrite shl_nonneg by lia.
  change (2 ^ 16) with 65536. lia.
Qed.

(** X8. The cost is twice the resource-hours as a number, without any
    rounding error: whenever an estimator returns a finite cost, its
    rational value is exactly twice that of the resource-hours. *)
Theorem cost_is_twice_hours_as_numbers (n : Z) (w : World) :
  (forall gpu_hours total_tflops cost,
      result (translation_estimates n) w = Ok (gpu_hours, total_tflops, cost) ->
      is_finite cost = true ->
      (F2Q cost == 2 * F2Q gpu_hours)%Q) /\
  (forall tokens gpu_hours total_tflops cost,
      result (llm_chat_estimates n) w = Ok (tokens, gpu_hours, total_tflops, cost) ->
      is_finite cost = true ->
      (F2Q cost == 2 * F2Q gpu_hours)%Q).
Proof.
  split.
  - intros gh tf c. rewrite translation_result. unfold translation_value.
    destruct (int_truediv n _) as [gh0 |] eqn:E; cbn [obind]; [| discriminate].
    unfold fmul_int. rewrite of_int_3600, of_int_GPU_TFLOPS. cbn [obind].
    change GPU_HOURLY_COST with two. intros [= <- _ <-].
    destruct (Z.eq_dec n 0) as [-> | Hn].
    + injection E as <-. intros _. reflexivity.
    + apply (fmul_two_value (xorb (n <? 0) (WORDS_PER_HOUR_TRANSLATION <? 0))
               (-16 - (prec - 1))).
      right. apply int_truediv_normal; auto using hours_ratio.
      unfold emin, prec. lia.
  - intros t gh tf c. rewrite chat_result.
    destruct (Z.eq_dec n 0) as [-> | Hn].
    + replace (chat_value 0)
        with (Ok (0, S754_zero false, S754_zero false, S754_zero false))
        by (vm_compute; reflexivity).
      intros [= _ <- _ <-] _. reflexivity.
    + unfold chat_value. cbv zeta.
      rewrite flops_per_second_value, FLOPS_PER_TOKEN_value. unfold int_mul_f.
      destruct (of_int _) as [x |] eqn:E; cbn [obind]; [| discriminate].
      destruct normal_constants as (HnF & HnG & Hn3600).
      apply of_int_normal in E; [| unfold TOKENS_PER_USER_PER_DAY; lia].
      set (s := n * TOKENS_PER_USER_PER_DAY <? 0) in *.
      pose proof (fmul_normal_or_inf _ false _ _ _ _ E HnF
                    ltac:(unfold emin, prec; lia)) as S1.
      destruct (fdiv_normal_or_inf _ false _ _ _ _ S1 HnG
                  ltac:(unfold emin, prec; lia)) as (gs & -> & S2).
      cbn [obind]. unfold fdiv_int, fmul_int.
      rewrite of_int_3600, of_int_GPU_TFLOPS, literal_3600_value. cbn [obind].
      destruct (fdiv_normal_or_inf _ false _ _ _ _ S2 Hn3600
                  ltac:(unfold emin, prec; lia)) as (gh0 & -> & S3).
      cbn [obind]. change GPU_HOURLY_COST with two.
      intros [= _ <- _ <-].
      eapply fmul_two_value. right. exact S3.
Qed.

Lemma cost_is_twice_hours_as_numbers_witness :
  exists gh tf c,
    result (translation_estimates 100000) start = Ok (gh, tf, c) /\
    is_finite c = true /\ (F2Q c == 2 * F2Q gh)%Q.
Proof.
  exists (S754_finite false 7505999378950827 (-52)),
    (S754_finite false 4638564679680000 (-33)),
    (S754_finite false 7505999378950827 (-51)).
  assert (H : result (translation_estimates 100000) start
              = Ok (S754_finite false 7505999378950827 (-52),
                    S754_finite false 4638564679680000 (-33),
                    S754_finite false 7505999378950827 (-51)))
    by (vm_compute; reflexivity).
  assert (Hf : is_finite (S754_finite false 7505999378950827 (-51)) = true)
    by reflexivity.
  split; [exact H | split; [exact Hf |]].
  exact (proj1 (cost_is_twice_hours_as_numbers 100000 start) _ _ _ H Hf).
Defined.

(** Twice the dividend, away from underflow. *)
Lemma int_truediv_double (a b lo : Z) (x2 : float) :
  a <> 0 -> le_ratio 1 lo (Z.abs a) (Z.abs b) -> emin + (prec - 1) <= lo ->
  int_truediv (2 * a) b = Ok x2 ->
  exists m e,
    int_truediv a b = Ok (S754_finite (xorb (a <? 0) (b <? 0)) m e) /\
    normal (S754_finite (xorb (a <? 0) (b <? 0)) m e) /\
    lo - (prec - 1) <= e < etop /\
    x2 = S754_finite (xorb (a <? 0) (b <? 0)) m (e + 1).
Proof.
  intros Ha Hle Hlo. unfold int_truediv, round_ratio.
  destruct (Z.eqb_spec b 0) as [E | Hb]; [discriminate |].
  destruct (Z.eqb_spec (Z.abs a) 0) as [E | _]; [lia |].
  destruct (Z.eqb_spec (Z.abs (2 * a)) 0) as [E | _]; [lia |].
  replace (2 * a <? 0) with (a <? 0)
    by (destruct (Z.ltb_spec a 0), (Z.ltb_spec (2 * a) 0); auto; lia).
  replace (Z.abs (2 * a)) with (2 * Z.abs a) by lia.
  set (s := xorb (a <? 0) (b <? 0)).
  assert (Hn : 0 < Z.abs a) by lia. assert (Hd : 0 < Z.abs b) by lia.
  pose proof (ilog2_ratio_ge _ _ _ Hn Hd Hle) as Hl.
  rewrite round_pos_double by lia.
  destruct (round_pos_normal s _ _ Hn Hd ltac:(lia))
    as [E | (m & e & E & Hnorm & He)]; rewrite E; cbn [fdouble pack];
    [discriminate |].
  destruct (Z.leb_spec (e + 1) etop) as [Le | Le]; [| discriminate].
  intros [= <-]. exists m, e. repeat split; try apply Hnorm; lia.
Qed.

(** X7. The translation estimate is exactly linear under doubling: for
    a nonzero load [n] whose double gives finite total operations, the
    estimate for [2 * n] is, in each of its three components, exactly
    twice the estimate for [n], as the float [2.0 * x] and as a number. *)
Theorem translation_estimates_doubling (w : World) (n : Z)
    (gpu_hours2 total_tflops2 cost2 : float) :
  n <> 0 ->
  result (translation_estimates (2 * n)) w = Ok (gpu_hours2, total_tflops2, cost2) ->
  is_finite total_tflops2 = true ->
  exists gpu_hours total_tflops cost,
    result (translation_estimates n) w = Ok (gpu_hours, total_tflops, cost) /\
    gpu_hours2 = fmul two gpu_hours /\
    total_tflops2 = fmul two total_tflops /\
    cost2 = fmul two cost /\
    (F2Q gpu_hours2 == 2 * F2Q gpu_hours)%Q /\
    (F2Q total_tflops2 == 2 * F2Q total_tflops)%Q /\
    (F2Q cost2 == 2 * F2Q cost)%Q.
Proof.
  intros Hn. rewrite !translation_result. unfold translation_value.
  destruct (int_truediv (2 * n) _) as [x2 |] eqn:E2; cbn [obind]; [| discriminate].
  destruct (int_truediv_double _ _ (-16) _ Hn (hours_ratio n Hn)
              ltac:(unfold emin, prec; lia) E2)
    as (m & e & -> & Hnx & He & ->).
  cbn [obind]. unfold fmul_int.
  rewrite of_int_3600, of_int_GPU_TFLOPS, literal_3600_value, literal_90_value.
  cbn [obind]. change GPU_HOURLY_COST with two.
  set (s := xorb (n <? 0) (WORDS_PER_HOUR_TRANSLATION <? 0)) in *.
  destruct normal_constants as (_ & _ & Hn3600). pose proof normal_90 as Hn90.
  set (H3600 := S754_finite false 7916483719987200 (-41)) in *.
  set (H90 := S754_finite false 6333186975989760 (-46)) in *.
  set (seconds2 := fmul (S754_finite s m (e + 1)) H3600).
  set (total2 := fmul seconds2 H90).
  set (c2 := fmul (S754_finite s m (e + 1)) two).
  intros [= <- <- <-] Hfin. unfold total2, seconds2, c2 in *.
  clear total2 seconds2 c2.
  assert (Hs2 : fmul (S754_finite s m (e + 1)) H3600 <> S754_infinity (xorb s false)).
  { intros E. rewrite E in Hfin. discriminate. }
  destruct (fmul_double_step s false m 7916483719987200 e (-41) Hnx Hn3600)
    as (m1 & e1 & E1 & Hn1 & He1 & E1');
    [lia | unfold emin, prec in *; lia | exact Hs2 |].
  fold H3600 in E1, E1'. rewrite E1' in *. rewrite E1.
  assert (Hs3 : fmul (S754_finite (xorb s false) m1 (e1 + 1)) H90
                <> S754_infinity (xorb (xorb s false) false)).
  { intros E. rewrite E in Hfin. discriminate. }
  destruct (fmul_double_step (xorb s false) false m1 6333186975989760 e1 (-46)
              Hn1 Hn90)
    as (m2 & e2 & E3 & Hn2 & He2 & E3');
    [lia | unfold emin, prec in *; lia | exact Hs3 |].
  fold H90 in E3, E3'. rewrite E3', E3.
  assert (Hnx' : normal (S754_finite s m (e + 1))).
  { destruct Hnx as [Hm He']. split; [exact Hm | lia]. }
  eexists _, _, _. split; [reflexivity |].
  rewrite (fmul_two_l _ _ _ Hnx), (fmul_two_l _ _ _ Hn2),
    (fmul_two_r _ _ _ Hnx), (fmul_two_r _ _ _ Hnx').
  cbn [fdouble pack]. unfold prec in *.
  destruct (Z.leb_spec (e + 1) etop) as [_ | L]; [| lia].
  destruct (Z.leb_spec (e2 + 1) etop) as [_ | L]; [| lia].
  destruct (Z.leb_spec (e + 1 + 1) etop) as [_ | L]; [| lia].
  rewrite (fmul_two_l _ _ _ Hnx'). cbn [fdouble pack].
  destruct (Z.leb_spec (e + 1 + 1) etop) as [_ | L]; [| lia].
  repeat split; try reflexivity; apply F2Q_double.
Qed.

Lemma translation_estimates_doubling_witness :
  50000 <> 0 /\
  result (translation_estimates (2 * 50000)) start
  = Ok (S754_finite false 7505999378950827 (-52),
        S754_finite false 4638564679680000 (-33),
        S754_finite false 7505999378950827 (-51)) /\
  is_finite (S754_finite false 4638564679680000 (-33)) = true /\
  exists gh tf c,
    result (translation_estimates 50000) start = Ok (gh, tf, c) /\
    S754_finite false 7505999378950827 (-52) = fmul two gh /\
    S754_finite false 4638564679680000 (-33) = fmul two tf /\
    S754_finite false 7505999378950827 (-51) = fmul two c /\
    (F2Q (S754_finite false 7505999378950827 (-52)) == 2 * F2Q gh)%Q /\
    (F2Q (S754_finite false 4638564679680000 (-33)) == 2 * F2Q tf)%Q /\
    (F2Q (S754_finite false 7505999378950827 (-51)) == 2 * F2Q c)%Q.
Proof.
  assert (H1 : 50000 <> 0) by discriminate.
  assert (H2 : result (translation_estimates (2 * 50000)) start
               = Ok (S754_finite false 7505999378950827 (-52),
                     S754_finite false 4638564679680000 (-33),
                     S754_finite false 7505999378950827 (-51)))
    by (vm_compute; reflexivity).
  assert (H3 : is_finite (S754_finite false 4638564679680000 (-33)) = true)
    by reflexivity.
  split; [exact H1 | split; [exact H2 | split; [exact H3 |]]].
  exact (translation_estimates_doubling start 50000 _ _ _ H1 H2 H3).
Defined.

(** ** Monotonicity *)

Module Binary64Order.

Lemma rnd_div_mono (a a' b : Z) :
  0 < b -> a <= a' -> rnd_div a b <= rnd_div a' b.
Proof.
  intros Hb Ha.
  pose proof (Z.div_mod a b ltac:(lia)) as Hdm.
  pose proof (Z.div_mod a' b ltac:(lia)) as Hdm'.
  pose proof (Z.mod_pos_bound a b Hb) as Hr.
  pose proof (Z.mod_pos_bound a' b Hb) as Hr'.
  assert (Hq : a / b <= a' / b) by (apply Z.div_le_mono; lia).
  unfold rnd_div.
  destruct (Z.eq_dec (a / b) (a' / b)) as [E | N].
  - rewrite <- E in *.
    assert (a mod b <= a' mod b) by lia.
    destruct (Z.compare_spec (2 * (a mod b)) b),
      (Z.compare_spec (2 * (a' mod b)) b);
      try destruct (Z.even (a / b)); lia.
  - destruct (Z.compare_spec (2 * (a mod b)) b),
      (Z.compare_spec (2 * (a' mod b)) b);
      try destruct (Z.even (a / b)); try destruct (Z.even (a' / b)); lia.
Qed.

Lemma le_ratio_mono_n (c k n n' d : Z) :
  n <= n' -> le_ratio c k n d -> le_ratio c k n' d.
Proof.
  unfold le_ratio, shl. intros Hn H.
  pose proof (pow2_pos (- k)). nia.
Qed.

Lemma ilog2_ratio_mono (n n' d : Z) :
  0 < n -> n <= n' -> 0 < d -> ilog2_ratio n d <= ilog2_ratio n' d.
Proof.
  intros Hn Hle Hd.
  destruct (ilog2_ratio_spec n d Hn Hd) as [H1 _].
  apply ilog2_ratio_ge; try lia.
  now apply le_ratio_mono_n with (n := n).
Qed.

(** The significand before normalisation never exceeds [2^53]. *)
Lemma round_pos_mantissa_le (n d : Z) :
  0 < n -> 0 < d ->
  let e := Z.max (ilog2_ratio n d - (prec - 1)) emin in
  0 <= rnd_div (shl n (- e)) (shl d e) <= 2 ^ prec.
Proof.
  intros Hn Hd e.
  destruct (ilog2_ratio_spec n d Hn Hd) as [_ H2].
  assert (H : ~ le_ratio 1 (e + prec) n d).
  { intros H. apply H2.
    apply le_ratio_mono_k with (k' := e + prec); auto.
    unfold e, prec. lia. }
  rewrite le_ratio_shift in H by (unfold prec; lia).
  unfold le_ratio in H.
  pose proof (shl_pos n (- e) Hn). pose proof (shl_pos d e Hd).
  apply rnd_div_bounds; lia.
Qed.

Lemma units_normalize (m e : Z) :
  0 <= m -> emin <= e -> is_finite (normalize false m e) = true ->
  units (normalize false m e) = m * 2 ^ (e - emin) /\
  in_range (normalize false m e).
Proof.
  intros Hm He. unfold normalize.
  destruct (Z.eqb_spec m (2 ^ prec)) as [-> | N].
  - change (2 ^ (prec - 1)) with 4503599627370496.
    change (2 ^ prec) with 9007199254740992. cbn [pack].
    destruct (e + 1 <=? etop); [intros _ | discriminate].
    cbn [units in_range]. split; [| lia].
    replace (e + 1 - emin) with (Z.succ (e - emin)) by lia.
    rewrite Z.pow_succ_r by lia. lia.
  - destruct m as [| p | p]; try lia; cbn [pack].
    + intros _. split; reflexivity.
    + destruct (e <=? etop); [intros _ | discriminate].
      cbn [units in_range]. split; lia.
Qed.

(** Rounding is monotone in the numerator. *)
Lemma round_pos_mono (n n' d : Z) :
  0 < n -> n <= n' -> 0 < d ->
  ole (round_pos false n d) (round_pos false n' d).
Proof.
  intros Hn Hle Hd. assert (Hn' : 0 < n') by lia.
  assert (R : forall k, 0 < k ->
            signed false (round_pos false k d) /\
            (is_finite (round_pos false k d) = true ->
             in_range (round_pos false k d))).
  { intros k Hk. split; [now apply round_pos_signed |].
    unfold round_pos. intros F.
    pose proof (round_pos_mantissa_le k d Hk Hd) as M. cbv zeta in M.
    exact (proj2 (units_normalize _ (Z.max (ilog2_ratio k d - (prec - 1)) emin)
                    (proj1 M) (Z.le_max_r _ _) F)). }
  assert (W : forall k, 0 < k ->
            signed false (round_pos false k d) /\ in_range (round_pos false k d)).
  { intros k Hk. destruct (R k Hk) as [S I]. split; [exact S |].
    destruct (round_pos false k d) eqn:E; cbn [in_range]; auto.
    now apply I. }
  split; [now apply W | split; [now apply W |]].
  intros F'.
  assert (F : is_finite (round_pos false n d) = true).
  { pose proof (round_pos_overflow false n d Hn Hd) as O.
    pose proof (round_pos_overflow false n' d Hn' Hd) as O'.
    destruct (W n Hn) as [S _].
    destruct (round_pos false n d) as [| s | |] eqn:E; cbn in S; try easy.
    subst s. exfalso.
    assert (H : (2 ^ emax - 2 ^ (etop - 1)) * d <= n')
      by (pose proof (proj1 O eq_refl); lia).
    apply O' in H. rewrite H in F'. discriminate. }
  split; [exact F |].
  pose proof (round_pos_mantissa_le n d Hn Hd) as Hm.
  pose proof (round_pos_mantissa_le n' d Hn' Hd) as Hm'.
  pose proof (ilog2_ratio_mono n n' d Hn Hle Hd) as Hl.
  cbv zeta in Hm, Hm'. unfold round_pos in *.
  set (e := Z.max (ilog2_ratio n d - (prec - 1)) emin) in *.
  set (e' := Z.max (ilog2_ratio n' d - (prec - 1)) emin) in *.
  destruct (units_normalize _ e (proj1 Hm) ltac:(lia) F) as [-> _].
  destruct (units_normalize _ e' (proj1 Hm') ltac:(lia) F') as [-> _].
  assert (P : 0 < 2 ^ (e - emin)) by (apply Z.pow_pos_nonneg; lia).
  destruct (Z.eq_dec e e') as [E | N].
  - rewrite <- E.
    assert (rnd_div (shl n (- e)) (shl d e) <= rnd_div (shl n' (- e)) (shl d e)).
    { apply rnd_div_mono; [now apply shl_pos |].
      unfold shl. pose proof (pow2_pos (- e)). nia. }
    nia.
  - assert (Hlt : e < e') by (unfold e, e' in *; lia).
    assert (Hnorm : emin + (prec - 1) <= ilog2_ratio n' d)
      by (unfold e, e' in *; lia).
    pose proof (round_pos_mantissa n' d Hn' Hd Hnorm) as Hlow. cbv zeta in Hlow.
    replace (ilog2_ratio n' d - (prec - 1)) with e' in Hlow by (unfold e'; lia).
    assert (P' : 2 * 2 ^ (e - emin) <= 2 ^ (e' - emin)).
    { rewrite <- Z.pow_succ_r by lia. apply Z.pow_le_mono_r; lia. }
    change (2 ^ prec) with (2 * 2 ^ (prec - 1)) in Hm.
    assert (Q : 0 < 2 ^ (prec - 1)) by reflexivity.
    nia.
Qed.

(** Rounding is monotone in the ratio. *)
Lemma round_ratio_mono (n n' d d' : Z) :
  0 <= n -> 0 < d -> 0 < d' -> n * d' <= n' * d ->
  ole (round_ratio false n d) (round_ratio false n' d').
Proof.
  intros Hn Hd Hd' Hle. assert (Hn' : 0 <= n') by nia.
  unfold round_ratio.
  destruct (Z.eqb_spec n 0) as [-> | N], (Z.eqb_spec n' 0) as [-> | N'].
  - repeat split; cbn; auto; lia.
  - pose proof (round_pos_signed false n' d' ltac:(lia) Hd') as S'.
    destruct (round_pos_mono n' n' d' ltac:(lia) ltac:(lia) Hd') as (_ & W' & _).
    split; [split; cbn; auto | split; [exact W' |]].
    intros F'. split; [reflexivity |]. destruct W' as [_ I'].
    destruct (round_pos false n' d') as [| | | s m e];
      cbn [units signed in_range is_finite] in *; try lia.
    subst s. assert (0 < 2 ^ (e - emin)) by (apply Z.pow_pos_nonneg; lia). nia.
  - nia.
  - rewrite <- (round_pos_scale false d' n d) by lia.
    rewrite <- (round_pos_scale false d n' d') by lia.
    replace (d * d') with (d' * d) by lia.
    apply round_pos_mono; nia.
Qed.

Lemma shl_base (a K L : Z) :
  L <= K -> L <= 0 -> a * 2 ^ (K - L) * shl 1 (- K) = shl a K * 2 ^ (- L).
Proof.
  intros HK HL. destruct (Z_le_gt_dec 0 K) as [P | N].
  - rewrite shl_neg, shl_nonneg by lia.
    replace (K - L) with (K + - L) by lia. rewrite Z.pow_add_r by lia. lia.
  - rewrite (shl_neg a) by lia. rewrite shl_nonneg by lia.
    replace (- L) with (K - L + - K) by lia.
    rewrite Z.pow_add_r by lia. lia.
Qed.

(** Values [a * 2^K] and [a' * 2^K'] compare as their units do. *)
Lemma ratio_of_units (a a' K K' L : Z) :
  0 < a -> 0 < a' -> L <= K -> L <= K' -> L <= 0 ->
  a * 2 ^ (K - L) <= a' * 2 ^ (K' - L) ->
  shl a K * shl 1 (- K') <= shl a' K' * shl 1 (- K).
Proof.
  intros Ha Ha' HK HK' HL H.
  pose proof (shl_base a K L HK HL) as B.
  pose proof (shl_base a' K' L HK' HL) as B'.
  pose proof (shl_pos 1 (- K) ltac:(lia)) as D.
  pose proof (shl_pos 1 (- K') ltac:(lia)) as D'.
  assert (P : 0 < 2 ^ (- L)) by (apply Z.pow_pos_nonneg; lia).
  assert (E : shl a K * shl 1 (- K') * 2 ^ (- L)
              <= shl a' K' * shl 1 (- K) * 2 ^ (- L)).
  { replace (shl a K * shl 1 (- K') * 2 ^ (- L))
      with (a * 2 ^ (K - L) * shl 1 (- K) * shl 1 (- K')) by (rewrite B; ring).
    replace (shl a' K' * shl 1 (- K) * 2 ^ (- L))
      with (a' * 2 ^ (K' - L) * shl 1 (- K') * shl 1 (- K)) by (rewrite B'; ring).
    nia. }
  nia.
Qed.

Lemma ole_refl_inf (x : float) :
  signed false x -> in_range x -> ole x (S754_infinity false).
Proof.
  intros S I. split; [split; assumption |].
  split; [split; exact I || reflexivity || exact Logic.I |].
  intros F. discriminate F.
Qed.

Section ByConstant.

Variables (my : positive) (ey : Z).
Hypothesis Hey : emin <= ey <= 0.

Lemma ole_positive (x' : float) (mx : positive) (ex : Z) :
  ole (S754_finite false mx ex) x' ->
  x' = S754_infinity false \/
  exists mx' ex', x' = S754_finite false mx' ex' /\ emin <= ex' /\ emin <= ex /\
    Zpos mx * 2 ^ (ex - emin) <= Zpos mx' * 2 ^ (ex' - emin).
Proof.
  intros ((_ & I) & (S' & I') & H).
  destruct x' as [s | s | | s mx' ex']; cbn in S'; try contradiction; subst s.
  - destruct (H eq_refl) as [_ U]. cbn [units in_range] in U, I.
    assert (0 < 2 ^ (ex - emin)) by (apply Z.pow_pos_nonneg; lia). nia.
  - now left.
  - right. destruct (H eq_refl) as [_ U]. cbn [units in_range] in U, I, I'.
    exists mx', ex'. repeat split; auto; lia.
Qed.

Lemma fmul_mono (x x' : float) :
  ole x x' ->
  ole (fmul x (S754_finite false my ey)) (fmul x' (S754_finite false my ey)).
Proof.
  intros H. pose proof H as ((S & I) & (S' & I') & _).
  assert (Sg : forall z, signed false z ->
            signed false (fmul z (S754_finite false my ey))).
  { intros z Sz. apply (fmul_signed false false z my ey Sz). }
  assert (Rg : forall z, signed false z ->
            in_range (fmul z (S754_finite false my ey))).
  { intros [| | | s m e]; cbn [signed fmul in_range]; auto; try easy.
    intros ->. cbn [xorb].
    destruct (round_pos_mono (shl (Zpos m * Zpos my) (e + ey))
                (shl (Zpos m * Zpos my) (e + ey)) (shl 1 (- (e + ey))))
      as ((_ & W) & _); try (apply shl_pos; lia); try lia. exact W. }
  destruct x as [s | s | | s mx ex]; cbn in S; try contradiction; subst s.
  - (* zero *)
    split; [split; [now apply Sg | now apply Rg] |].
    split; [split; [now apply Sg | now apply Rg] |].
    intros F'. split; [reflexivity |].
    pose proof (Sg x' S') as S2. pose proof (Rg x' S') as R2.
    change (units (fmul (S754_zero false) (S754_finite false my ey))) with 0.
    destruct (fmul x' (S754_finite false my ey)) as [s | s | | s m e];
      cbn [units signed in_range is_finite] in *; try lia; try discriminate F'.
    subst s. assert (0 < 2 ^ (e - emin)) by (apply Z.pow_pos_nonneg; lia). nia.
  - (* infinity *)
    destruct H as (_ & _ & H).
    destruct x' as [s | s | | s mx' ex']; cbn in S'; try contradiction; subst s;
      try (destruct (H eq_refl); discriminate).
    apply ole_refl_inf; reflexivity.
  - (* a positive number *)
    destruct (ole_positive _ _ _ H) as [-> | (mx' & ex' & -> & He' & He & U)].
    + apply ole_refl_inf; [now apply Sg | now apply Rg].
    + cbn [fmul xorb].
      assert (E : forall n d, 0 < n -> round_pos false n d = round_ratio false n d).
      { intros n d Hn. unfold round_ratio.
        destruct (Z.eqb_spec n 0); [lia | reflexivity]. }
      rewrite !E by (apply shl_pos; lia).
      apply round_ratio_mono; try (apply shl_pos; lia).
      * pose proof (shl_pos (Zpos mx * Zpos my) (ex + ey) ltac:(lia)). lia.
      * apply ratio_of_units with (L := emin + ey); try lia.
        replace (ex + ey - (emin + ey)) with (ex - emin) by lia.
        replace (ex' + ey - (emin + ey)) with (ex' - emin) by lia.
        nia.
Qed.

Lemma fdiv_mono (x x' : float) :
  ole x x' ->
  exists q q',
    fdiv x (S754_finite false my ey) = Ok q /\
    fdiv x' (S754_finite false my ey) = Ok q' /\ ole q q'.
Proof.
  intros H. pose proof H as ((S & I) & (S' & I') & _).
  assert (Sg : forall z, signed false z ->
            exists q, fdiv z (S754_finite false my ey) = Ok q /\
              signed false q /\ in_range q).
  { intros z Sz.
    destruct (fdiv_signed false false z my ey Sz) as (q & Eq & Sq).
    exists q. repeat split; auto.
    destruct z as [| | | s m e]; cbn [fdiv] in Eq; injection Eq as <-;
      cbn [in_range]; auto.
    destruct (round_pos_mono (shl (Zpos m) (e - ey)) (shl (Zpos m) (e - ey))
                (shl (Zpos my) (ey - e)))
      as ((_ & W) & _); try (apply shl_pos; lia); try lia.
    cbn in Sz. subst s. exact W. }
  destruct x as [s | s | | s mx ex]; cbn [signed] in S; try contradiction; subst s.
  - (* zero *)
    destruct (Sg x' S') as (q' & Eq' & Sq' & Iq').
    exists (S754_zero false), q'.
    split; [reflexivity | split; [exact Eq' |]].
    split; [split; [reflexivity | exact Logic.I] |].
    split; [split; assumption |].
    intros F'. split; [reflexivity |].
    change (units (S754_zero false)) with 0.
    destruct q' as [s | s | | s m e];
      cbn [units signed in_range is_finite] in *; try lia; try discriminate F'.
    subst s. assert (0 < 2 ^ (e - emin)) by (apply Z.pow_pos_nonneg; lia). nia.
  - (* infinity *)
    destruct H as (_ & _ & H).
    destruct x' as [s | s | | s mx' ex']; cbn [signed] in S'; try contradiction;
      subst s; try (destruct (H eq_refl) as [F _]; discriminate F).
    exists (S754_infinity false), (S754_infinity false).
    split; [reflexivity | split; [reflexivity |]].
    apply ole_refl_inf; [reflexivity | exact Logic.I].
  - (* a positive number *)
    destruct (Sg (S754_finite false mx ex) eq_refl) as (q & Eq & Sq & Iq).
    destruct (ole_positive _ _ _ H) as [-> | (mx' & ex' & -> & He' & He & U)].
    + exists q, (S754_infinity false).
      split; [exact Eq | split; [reflexivity |]]. now apply ole_refl_inf.
    + clear q Eq Sq Iq.
      exists (round_pos false (shl (Zpos mx) (ex - ey)) (shl (Zpos my) (ey - ex))),
        (round_pos false (shl (Zpos mx') (ex' - ey)) (shl (Zpos my) (ey - ex'))).
      split; [reflexivity | split; [reflexivity |]].
      assert (E : forall n d, 0 < n -> round_pos false n d = round_ratio false n d).
      { intros n d Hn. unfold round_ratio.
        destruct (Z.eqb_spec n 0); [lia | reflexivity]. }
      rewrite !E by (apply shl_pos; lia).
      apply round_ratio_mono; try (apply shl_pos; lia).
      * pose proof (shl_pos (Zpos mx) (ex - ey) ltac:(lia)). lia.
      * replace (ey - ex) with (- (ex - ey)) by lia.
        replace (ey - ex') with (- (ex' - ey)) by lia.
        replace (Zpos my) with (Zpos my * 1) by lia. rewrite !shl_mul.
        pose proof (ratio_of_units (Zpos mx) (Zpos mx') (ex - ey) (ex' - ey)
                      (emin - ey) ltac:(lia) ltac:(lia) ltac:(lia) ltac:(lia)
                      ltac:(lia)) as R.
        replace (ex - ey - (emin - ey)) with (ex - emin) in R by lia.
        replace (ex' - ey - (emin - ey)) with (ex' - emin) in R by lia.
        specialize (R U). nia.
Qed.

End ByConstant.

(** The order in units is the order of the values. *)
Lemma F2Q_units (m : positive) (e : Z) :
  emin <= e ->
  (F2Q (S754_finite false m e)
   == inject_Z (units (S754_finite false m e)) * Qpower (2 # 1) emin)%Q.
Proof.
  intros He. cbn [F2Q units].
  replace e with (e - emin + emin) at 1 by lia.
  rewrite Qpower_plus by discriminate.
  rewrite Z.mul_1_l, inject_Z_mult, (Zpower_Qpower 2 (e - emin)) by lia.
  change (inject_Z 2) with (2 # 1)%Q. change (inject_Z (Zpos m)) with (Zpos m # 1)%Q.
  ring.
Qed.

Lemma ole_fle (x y : float) : ole x y -> fle x y.
Proof.
  intros ((S & I) & (S' & I') & H).
  assert (P : (0 <= Qpower (2 # 1) emin)%Q) by (apply Qpower_pos; discriminate).
  destruct x as [s | s | | s m e], y as [s' | s' | | s' m' e'];
    cbn in S, S'; try contradiction; subst; cbn [fle]; auto;
    try (destruct (H eq_refl) as [F U]; try discriminate).
  - rewrite F2Q_units by exact I'. cbn [F2Q].
    apply Qmult_le_0_compat; [| exact P].
    change 0%Q with (inject_Z 0). rewrite <- Zle_Qle. exact U.
  - rewrite F2Q_units by exact I. cbn [F2Q].
    rewrite <- (Qmult_0_l (Qpower (2 # 1) emin)).
    apply Qmult_le_compat_r; [| exact P].
    change 0%Q with (inject_Z 0). rewrite <- Zle_Qle. exact U.
  - rewrite !F2Q_units by assumption.
    apply Qmult_le_compat_r; [| exact P].
    rewrite <- Zle_Qle. exact U.
Qed.

Lemma int_truediv_mono (a a' b b' : Z) (x' : float) :
  0 <= a -> 0 < b -> 0 < b' -> a * b' <= a' * b ->
  int_truediv a' b' = Ok x' ->
  exists x, int_truediv a b = Ok x /\ ole x x'.
Proof.
  intros Ha Hb Hb' Hle. assert (Ha' : 0 <= a') by nia.
  pose proof (round_ratio_mono a a' b b' Ha Hb Hb' Hle) as H.
  unfold int_truediv.
  destruct (Z.eqb_spec b 0); [lia |]. destruct (Z.eqb_spec b' 0); [lia |].
  replace (a <? 0) with false by (symmetry; apply Z.ltb_ge; lia).
  replace (a' <? 0) with false by (symmetry; apply Z.ltb_ge; lia).
  replace (b <? 0) with false by (symmetry; apply Z.ltb_ge; lia).
  replace (b' <? 0) with false by (symmetry; apply Z.ltb_ge; lia).
  cbn [xorb]. rewrite !Z.abs_eq by lia.
  intros R.
  assert (Q : round_ratio false a' b' = x' /\ is_finite x' = true).
  { destruct (round_ratio false a' b') as [s' | s' | | s' m' e'];
      try discriminate R; injection R as <-; split; try reflexivity.
    destruct H as (_ & (S' & _) & _). destruct S'. }
  destruct Q as [Q F']. rewrite Q in H. clear R.
  exists (round_ratio false a b). split; [| exact H].
  destruct H as (_ & _ & H). destruct (H F') as [F _].
  destruct (round_ratio false a b); try discriminate F; reflexivity.
Qed.

Lemma of_int_mono (n n' : Z) (x' : float) :
  0 <= n <= n' -> of_int n' = Ok x' ->
  exists x, of_int n = Ok x /\ ole x x'.
Proof.
  intros Hn H.
  assert (E : forall k, int_truediv k 1 = of_int k).
  { intros k. unfold int_truediv, of_int. cbn [Z.eqb Z.ltb Z.compare Z.abs].
    now rewrite Bool.xorb_false_r. }
  rewrite <- E in *.
  apply (int_truediv_mono n n' 1 1); auto; lia.
Qed.

End Binary64Order.

Import Binary64Order.

(** The products by the constants of the estimators keep the order. *)
Lemma estimate_tail_mono (h h' : float) :
  ole h h' ->
  ole (fmul (fmul h (S754_finite false 7916483719987200 (-41)))
         (S754_finite false 6333186975989760 (-46)))
      (fmul (fmul h' (S754_finite false 7916483719987200 (-41)))
         (S754_finite false 6333186975989760 (-46))) /\
  ole (fmul h GPU_HOURLY_COST) (fmul h' GPU_HOURLY_COST).
Proof.
  intros O. split.
  - apply fmul_mono; [unfold emin; lia |].
    apply fmul_mono; [unfold emin; lia | exact O].
  - replace GPU_HOURLY_COST with (S754_finite false 4503599627370496 (-51))
      by reflexivity.
    apply fmul_mono; [unfold emin; lia | exact O].
Qed.

(** X10. More words never give a smaller translation estimate: when the
    estimate for [n'] words returns, the one for any [0 <= n <= n']
    returns too, and its resource-hours, total operations and cost are
    at most those for [n']; rounding never inverts the order. *)
Theorem translation_estimates_monotone (w : World) (n n' : Z)
    (gpu_hours' total_tflops' cost' : float) :
  0 <= n <= n' ->
  result (translation_estimates n') w = Ok (gpu_hours', total_tflops', cost') ->
  exists gpu_hours total_tflops cost,
    result (translation_estimates n) w = Ok (gpu_hours, total_tflops, cost) /\
    fle gpu_hours gpu_hours' /\ fle total_tflops total_tflops' /\
    fle cost cost'.
Proof.
  intros Hn. rewrite !translation_result. unfold translation_value.
  destruct (int_truediv n' _) as [h' |] eqn:E'; cbn [obind]; [| discriminate].
  destruct (int_truediv_mono n n' 60000 60000 h' ltac:(lia) ltac:(lia)
              ltac:(lia) ltac:(lia) E')
    as (h & E & O).
  change 60000 with WORDS_PER_HOUR_TRANSLATION in E.
  rewrite E. cbn [obind]. unfold fmul_int.
  rewrite of_int_3600, of_int_GPU_TFLOPS, literal_3600_value, literal_90_value.
  cbn [obind].
  destruct (estimate_tail_mono h h' O) as [Ot Oc].
  set (t' := fmul (fmul h' _) _) in *. set (c' := fmul h' _) in *.
  intros R. injection R as <- <- <-.
  eexists _, _, _. split; [reflexivity |].
  split; [exact (ole_fle _ _ O) |].
  split; [exact (ole_fle _ _ Ot) | exact (ole_fle _ _ Oc)].
Qed.

Lemma translation_estimates_monotone_witness :
  0 <= 60000 <= 100000 /\
  exists gpu_hours total_tflops cost,
    result (translation_estimates 60000) start
    = Ok (gpu_hours, total_tflops, cost) /\
    fle gpu_hours (S754_finite false 7505999378950827 (-52)) /\
    fle total_tflops (S754_finite false 4638564679680000 (-33)) /\
    fle cost (S754_finite false 7505999378950827 (-51)).
Proof.
  assert (H : 0 <= 60000 <= 100000) by lia.
  split; [exact H |].
  assert (E : result (translation_estimates 100000) start
              = Ok (S754_finite false 7505999378950827 (-52),
                    S754_finite false 4638564679680000 (-33),
                    S754_finite false 7505999378950827 (-51)))
    by (vm_compute; reflexivity).
  exact (translation_estimates_monotone start 60000 100000 _ _ _ H E).
Defined.

(** X11. The latency grows with the document and shrinks with the
    resources: when [translation_doc_time words' g'] returns, so does
    the call with no more words and no fewer resources, and its result
    is at most the other one. *)
Theorem translation_doc_time_monotone (w : World) (words words' g g' : Z)
    (minutes' : float) :
  0 <= words <= words' -> 0 < g' <= g ->
  result (translation_doc_time words' g') w = Ok minutes' ->
  exists minutes,
    result (translation_doc_time words g) w = Ok minutes /\
    fle minutes minutes'.
Proof.
  intros Hw Hg. rewrite !doc_time_result. unfold doc_time_value. intros E'.
  unfold WORDS_PER_MIN_TRANSLATION in *.
  destruct (int_truediv_mono words words' (1000 * g) (1000 * g') minutes'
              ltac:(lia) ltac:(lia) ltac:(lia) ltac:(nia) E')
    as (m & E & O).
  exists m. split; [exact E | exact (ole_fle _ _ O)].
Qed.

Lemma translation_doc_time_monotone_witness :
  (0 <= 5000 <= 10000 /\ 0 < 1 <= 2) /\
  exists minutes,
    result (translation_doc_time 5000 2) start = Ok minutes /\
    fle minutes (S754_finite false 5629499534213120 (-49)).
Proof.
  assert (Hw : 0 <= 5000 <= 10000) by lia.
  assert (Hg : 0 < 1 <= 2) by lia.
  split; [split; [exact Hw | exact Hg] |].
  exact (translation_doc_time_monotone start 5000 10000 2 1 _ Hw Hg eq_refl).
Defined.

(** X12. More users never give a smaller chat estimate: when the
    estimate for [n'] users returns, the one for any [0 <= n <= n']
    returns too, with at most as many tokens, resource-hours, total
    operations and cost, through all six rounded operations. *)
Theorem llm_chat_estimates_monotone (w : World) (n n' tokens' : Z)
    (gpu_hours' total_tflops' cost' : float) :
  0 <= n <= n' ->
  result (llm_chat_estimates n') w
  = Ok (tokens', gpu_hours', total_tflops', cost') ->
  exists tokens gpu_hours total_tflops cost,
    result (llm_chat_estimates n) w = Ok (tokens, gpu_hours, total_tflops, cost) /\
    tokens <= tokens' /\
    fle gpu_hours gpu_hours' /\ fle total_tflops total_tflops' /\
    fle cost cost'.
Proof.
  intros Hn. rewrite !chat_result. unfold chat_value. cbv zeta.
  rewrite flops_per_second_value, FLOPS_PER_TOKEN_value. unfold int_mul_f.
  destruct (of_int (n' * _)) as [x' |] eqn:E'; cbn [obind]; [| discriminate].
  destruct (of_int_mono (n * TOKENS_PER_USER_PER_DAY)
              (n' * TOKENS_PER_USER_PER_DAY) x')
    as (x & E & O); [unfold TOKENS_PER_USER_PER_DAY; lia | exact E' |].
  rewrite E. cbn [obind].
  pose proof (fmul_mono 6815744000000000 (-18) ltac:(unfold emin; lia) _ _ O)
    as O1.
  destruct (fdiv_mono 5760000000000000 (-6) ltac:(unfold emin; lia) _ _ O1)
    as (s & s' & Es & Es' & O2).
  rewrite Es, Es'. cbn [obind]. unfold fdiv_int, fmul_int.
  rewrite of_int_3600, of_int_GPU_TFLOPS, literal_3600_value, literal_90_value.
  cbn [obind].
  destruct (fdiv_mono 7916483719987200 (-41) ltac:(unfold emin; lia) _ _ O2)
    as (h & h' & Eh & Eh' & O3).
  rewrite Eh, Eh'. cbn [obind].
  destruct (estimate_tail_mono h h' O3) as [Ot Oc].
  set (t' := fmul (fmul h' _) _) in *. set (c' := fmul h' _) in *.
  intros R. injection R as <- <- <- <-.
  eexists _, _, _, _. split; [reflexivity |].
  split; [unfold TOKENS_PER_USER_PER_DAY; lia |].
  split; [exact (ole_fle _ _ O3) |].
  split; [exact (ole_fle _ _ Ot) | exact (ole_fle _ _ Oc)].
Qed.

Lemma llm_chat_estimates_monotone_witness :
  0 <= 10000 <= 100000 /\
  exists tokens gpu_hours total_tflops cost,
    result (llm_chat_estimates 10000) start
    = Ok (tokens, gpu_hours, total_tflops, cost) /\
    tokens <= 300000000 /\
    fle gpu_hours (S754_finite false 6776249439330608 (-48)) /\
    fle total_tflops (S754_finite false 8375186227200000 (-30)) /\
    fle cost (S754_finite false 6776249439330608 (-47)).
Proof.
  assert (H : 0 <= 10000 <= 100000) by lia.
  split; [exact H |].
  assert (E : result (llm_chat_estimates 100000) start
              = Ok (300000000, S754_finite false 6776249439330608 (-48),
                    S754_finite false 8375186227200000 (-30),
                    S754_finite false 6776249439330608 (-47)))
    by (vm_compute; reflexivity).
  exact (llm_chat_estimates_monotone start 10000 100000 _ _ _ _ H E).
Defined.

(** ** Accuracy of the int division *)

Module Binary64Accuracy.

(** Rounding to nearest is off by at most half a unit. *)
Lemma rnd_div_half (a b : Z) :
  0 < b -> Z.abs (2 * (rnd_div a b * b - a)) <= b.
Proof.
  intros Hb. unfold rnd_div.
  pose proof (Z.div_mod a b ltac:(lia)) as E.
  pose proof (Z.mod_pos_bound a b Hb) as B.
  set (q := a / b) in *. set (r := a mod b) in *.
  destruct (Z.compare_spec (2 * r) b) as [C | C | C];
    [destruct (Z.even q) | |]; nia.
Qed.

Lemma pow2_inject (k : Z) :
  0 <= k -> (inject_Z (2 ^ k) == Qpower (2 # 1) k)%Q.
Proof. intros Hk. now rewrite Zpower_Qpower. Qed.

(** In the normal range the significand and exponent returned stand
    for the rounded quotient at the exponent of the ratio. *)
Lemma round_pos_value (n d : Z) (m : positive) (e : Z) :
  0 < n -> 0 < d -> emin + (prec - 1) <= ilog2_ratio n d ->
  round_pos false n d = S754_finite false m e ->
  let e0 := ilog2_ratio n d - (prec - 1) in
  e0 <= e /\ Zpos m * 2 ^ (e - e0) = rnd_div (shl n (- e0)) (shl d e0).
Proof.
  intros Hn Hd Hnorm. cbv zeta. unfold round_pos.
  replace (Z.max (ilog2_ratio n d - (prec - 1)) emin)
    with (ilog2_ratio n d - (prec - 1)) by lia.
  set (e0 := ilog2_ratio n d - (prec - 1)).
  set (M := rnd_div (shl n (- e0)) (shl d e0)).
  unfold normalize.
  destruct (Z.eqb_spec M (2 ^ prec)) as [E | E].
  - change (2 ^ (prec - 1)) with (Zpos 4503599627370496). cbn [pack].
    destruct (e0 + 1 <=? etop); [| intros R; discriminate R].
    intros R. injection R as <- <-.
    split; [lia |]. replace (e0 + 1 - e0) with 1 by lia. rewrite E. reflexivity.
  - destruct M as [| p | p]; cbn [pack]; try (intros R; discriminate R).
    destruct (e0 <=? etop); [| intros R; discriminate R].
    intros R. injection R as <- <-.
    split; [lia |]. rewrite Z.sub_diag. lia.
Qed.

(** The relative error of a rounded quotient is at most [2^-53]. *)
Lemma round_pos_error (n d : Z) (m : positive) (e : Z) :
  0 < n -> 0 < d -> emin + (prec - 1) <= ilog2_ratio n d ->
  round_pos false n d = S754_finite false m e ->
  (Qabs (F2Q (S754_finite false m e) * inject_Z d - inject_Z n)
   * inject_Z (2 ^ prec) <= inject_Z n)%Q.
Proof.
  intros Hn Hd Hnorm R.
  destruct (round_pos_value n d m e Hn Hd Hnorm R) as [He V].
  set (e0 := ilog2_ratio n d - (prec - 1)) in *.
  pose proof (rnd_div_half (shl n (- e0)) (shl d e0) (shl_pos _ _ Hd)) as Half.
  rewrite <- V in Half.
  assert (Low : 2 ^ (prec - 1) * shl d e0 <= shl n (- e0)).
  { destruct (ilog2_ratio_spec n d Hn Hd) as [H1 _].
    replace (ilog2_ratio n d) with (e0 + (prec - 1)) in H1 by (unfold e0; lia).
    rewrite le_ratio_shift in H1 by (unfold prec; lia).
    unfold le_ratio in H1. lia. }
  unfold shl in Half, Low.
  set (s := 2 ^ Z.max 0 (- e0)) in *. set (u := 2 ^ Z.max 0 e0) in *.
  set (v := 2 ^ (e - e0)) in *.
  assert (Hs : 0 < s) by (apply Z.pow_pos_nonneg; lia).
  assert (P : (Qpower (2 # 1) e * inject_Z s == inject_Z v * inject_Z u)%Q).
  { unfold s, u, v. rewrite !pow2_inject by lia.
    rewrite <- !Qpower_plus by discriminate.
    replace (e + Z.max 0 (- e0)) with (e - e0 + Z.max 0 e0) by lia.
    reflexivity. }
  assert (K : ((F2Q (S754_finite false m e) * inject_Z d - inject_Z n) * inject_Z s
               == inject_Z (Zpos m * v * (d * u) - n * s))%Q).
  { cbn [F2Q]. unfold Z.sub. rewrite inject_Z_plus, inject_Z_opp, !inject_Z_mult.
    change (Zpos m # 1)%Q with (inject_Z (Zpos m)).
    transitivity (inject_Z (Zpos m) * inject_Z d * (Qpower (2 # 1) e * inject_Z s)
                  - inject_Z n * inject_Z s)%Q; [ring |].
    rewrite P. ring. }
  apply (Qmult_le_r _ _ (inject_Z s)).
  { change 0%Q with (inject_Z 0). now rewrite <- Zlt_Qlt. }
  assert (A : (Qabs (inject_Z s) == inject_Z s)%Q).
  { apply Qabs_pos. change 0%Q with (inject_Z 0). rewrite <- Zle_Qle. lia. }
  assert (T : (Qabs (F2Q (S754_finite false m e) * inject_Z d - inject_Z n)
               * inject_Z (2 ^ prec) * inject_Z s
               == Qabs ((F2Q (S754_finite false m e) * inject_Z d - inject_Z n)
                        * inject_Z s) * inject_Z (2 ^ prec))%Q).
  { rewrite Qabs_Qmult, A. ring. }
  rewrite T, K.
  change (Qabs (inject_Z (Zpos m * v * (d * u) - n * s)))
    with (inject_Z (Z.abs (Zpos m * v * (d * u) - n * s))).
  rewrite <- !inject_Z_mult, <- Zle_Qle.
  change (2 ^ prec) with 9007199254740992.
  change (2 ^ (prec - 1)) with 4503599627370496 in Low. lia.
Qed.

Lemma int_truediv_error (a b : Z) (x : float) :
  0 < a -> 0 < b -> le_ratio 1 (emin + (prec - 1)) a b ->
  int_truediv a b = Ok x ->
  (Qabs (F2Q x * inject_Z b - inject_Z a) * inject_Z (2 ^ prec) <= inject_Z a)%Q.
Proof.
  intros Ha Hb Hr. unfold int_truediv, round_ratio.
  destruct (Z.eqb_spec b 0); [lia |].
  replace (a <? 0) with false by (symmetry; apply Z.ltb_ge; lia).
  replace (b <? 0) with false by (symmetry; apply Z.ltb_ge; lia).
  cbn [xorb]. rewrite !Z.abs_eq by lia.
  destruct (Z.eqb_spec a 0); [lia |].
  pose proof (ilog2_ratio_ge _ _ _ Ha Hb Hr) as Hnorm.
  destruct (round_pos_normal false a b Ha Hb Hnorm) as [E | (m & e & E & _)];
    rewrite E; [intros R; discriminate R |].
  intros R. injection R as <-.
  exact (round_pos_error a b m e Ha Hb Hnorm E).
Qed.

End Binary64Accuracy.

Import Binary64Accuracy.

(** A quotient of at least [2^-1022] is in the normal range. *)
Lemma normal_quotient (a b : Z) :
  0 < a -> 0 < b -> b <= a * 2 ^ 1022 -> le_ratio 1 (emin + (prec - 1)) a b.
Proof.
  intros Ha Hb H. unfold le_ratio. change (emin + (prec - 1)) with (-1022).
  rewrite shl_neg by lia. change (- -1022) with 1022.
  rewrite shl_nonneg by lia. lia.
Qed.

(** X13. The resource-hours of the translation estimate are the word
    count over 60000 up to a relative error of [2^-53], for every
    positive word count on which the call returns:
    [|gpu_hours * 60000 - n| * 2^53 <= n] as rational numbers. *)
Theorem translation_hours_accuracy (w : World) (n : Z)
    (gpu_hours total_tflops cost : float) :
  0 < n ->
  result (translation_estimates n) w = Ok (gpu_hours, total_tflops, cost) ->
  (Qabs (F2Q gpu_hours * inject_Z WORDS_PER_HOUR_TRANSLATION - inject_Z n)
   * inject_Z (2 ^ 53) <= inject_Z n)%Q.
Proof.
  intros Hn. rewrite translation_result. unfold translation_value.
  destruct (int_truediv n _) as [h |] eqn:E; cbn [obind]; [| discriminate].
  unfold fmul_int. rewrite of_int_3600, of_int_GPU_TFLOPS. cbn [obind].
  set (t := fmul (fmul h _) _). set (c := fmul h _).
  intros R. injection R as <- _ _.
  apply (int_truediv_error n WORDS_PER_HOUR_TRANSLATION h Hn); [reflexivity | | exact E].
  apply normal_quotient; [exact Hn | reflexivity |].
  assert (P : 65536 <= 2 ^ 1022) by (vm_compute; discriminate).
  unfold WORDS_PER_HOUR_TRANSLATION, WORDS_PER_MIN_TRANSLATION. nia.
Qed.

Lemma translation_hours_accuracy_witness :
  0 < 100000 /\
  (Qabs (F2Q (S754_finite false 7505999378950827 (-52))
         * inject_Z WORDS_PER_HOUR_TRANSLATION - inject_Z 100000)
   * inject_Z (2 ^ 53) <= inject_Z 100000)%Q.
Proof.
  assert (H : 0 < 100000) by lia.
  assert (E : result (translation_estimates 100000) start
              = Ok (S754_finite false 7505999378950827 (-52),
                    S754_finite false 4638564679680000 (-33),
                    S754_finite false 7505999378950827 (-51)))
    by (vm_compute; reflexivity).
  split; [exact H |].
  exact (translation_hours_accuracy start 100000 _ _ _ H E).
Defined.

(** X14. The latency is the word count over [1000 * g] up to a relative
    error of [2^-53], whenever that quotient is at least [2^-1022], the
    smallest normal float: [|minutes * 1000 * g - words| * 2^53 <= words]
    as rational numbers. *)
Theorem translation_doc_time_accuracy (w : World) (words g : Z)
    (minutes : float) :
  0 < words -> 0 < g ->
  WORDS_PER_MIN_TRANSLATION * g <= words * 2 ^ 1022 ->
  result (translation_doc_time words g) w = Ok minutes ->
  (Qabs (F2Q minutes * inject_Z (WORDS_PER_MIN_TRANSLATION * g) - inject_Z words)
   * inject_Z (2 ^ 53) <= inject_Z words)%Q.
Proof.
  intros Hw Hg Hq. rewrite doc_time_result. unfold doc_time_value. intros E.
  assert (Hd : 0 < WORDS_PER_MIN_TRANSLATION * g)
    by (unfold WORDS_PER_MIN_TRANSLATION; lia).
  apply (int_truediv_error words (WORDS_PER_MIN_TRANSLATION * g) minutes Hw Hd);
    [| exact E].
  apply normal_quotient; assumption.
Qed.

Lemma translation_doc_time_accuracy_witness :
  (0 < 10000 /\ 0 < 3 /\ WORDS_PER_MIN_TRANSLATION * 3 <= 10000 * 2 ^ 1022) /\
  (Qabs (F2Q (S754_finite false 7505999378950827 (-51))
         * inject_Z (WORDS_PER_MIN_TRANSLATION * 3) - inject_Z 10000)
   * inject_Z (2 ^ 53) <= inject_Z 10000)%Q.
Proof.
  assert (Hw : 0 < 10000) by lia.
  assert (Hg : 0 < 3) by lia.
  assert (Hq : WORDS_PER_MIN_TRANSLATION * 3 <= 10000 * 2 ^ 1022)
    by (vm_compute; discriminate).
  assert (E : result (translation_doc_time 10000 3) start
              = Ok (S754_finite false 7505999378950827 (-51)))
    by (vm_compute; reflexivity).
  split; [split; [exact Hw | split; [exact Hg | exact Hq]] |].
  exact (translation_doc_time_accuracy start 10000 3 _ Hw Hg Hq E).
Defined.
